(** * scr.py: the shared support module of the command scripts

    A shallow embedding of [bin/scr.py] and the properties of its version
    codec, configuration path resolver, argument validators, logging
    initialisation and search-path bootstrap.

    Conventions of the embedding:
    - a Python [str] is a [string]; its characters are read as the code
      points 0..255, and the [str] methods used by the module are given on
      that range;
    - a Python [int] is a [Z]; reading one from a string and writing one
      to a string are under CPython's default limit of 4300 digits;
    - a raised exception is the [Raise] case of [result], carrying the
      exception class and its argument;
    - [os.path] is [posixpath] ([os.sep] is [/], [os.altsep] is [None]);
    - the file system is what [os.stat] finds at each path, with the
      access the process has; a change to a file shows under every name
      of the file, and a new entry under every name of the entry. *)

From Stdlib Require Import String Ascii List ZArith NArith Bool Lia.
From Stdlib Require Import Decimal DecimalString DecimalN DecimalZ.
Import ListNotations.
Local Open Scope list_scope.
Local Open Scope string_scope.

(* ================================================================= *)
(** * Exceptions *)

Inductive exn : Type :=
| KeyError (key : string)
| IndexError (msg : string)
| ValueError (msg : string)
| TypeError (msg : string)
| ParamTypeError (msg : string)
| ParamValueError (msg : string)
| OSError (path : string).

Inductive result (A : Type) : Type :=
| Ok (a : A)
| Raise (e : exn).

Arguments Ok {A} a.
Arguments Raise {A} e.

Definition bind {A B : Type} (r : result A) (k : A -> result B) : result B :=
  match r with
  | Ok a => k a
  | Raise e => Raise e
  end.

Notation "x <- r ;; k" := (bind r (fun x => k))
  (at level 61, r at next level, right associativity).

(** [unless b e]: the statement [if not b: raise e]. *)
Definition unless (b : bool) (e : exn) : result unit :=
  if b then Ok tt else Raise e.

(* ================================================================= *)
(** * The [str] and [int] builtins used by the module *)

Module Py.

Definition code (c : ascii) : N := N_of_ascii c.

Definition in_range (lo hi : N) (c : ascii) : bool :=
  ((lo <=? code c) && (code c <=? hi))%N.

(** [c.isspace()] on the code points below 256. *)
Definition isspace (c : ascii) : bool :=
  in_range 9 13 c || in_range 28 32 c
  || (code c =? 133)%N || (code c =? 160)%N.

(** [c.isdecimal()] on the code points below 256. *)
Definition isdigit (c : ascii) : bool := in_range 48 57 c.

(** [c.lower()]: A-Z and the Latin-1 capitals (all of 192..222 but the
    multiplication sign 215) move up by 32. *)
Definition lower_char (c : ascii) : ascii :=
  if in_range 65 90 c
     || (in_range 192 222 c && negb (code c =? 215)%N)
  then ascii_of_N (code c + 32) else c.

(** [c.upper()]: a-z and the Latin-1 small letters 224..254 (but the
    division sign 247) move down by 32; the sharp s (223) becomes [SS].
    The micro sign (181) and y with diaeresis (255) have capitals above
    255: they are left as they are, which no lookup against an ASCII key
    can tell apart. *)
Definition upper_char (c : ascii) : string :=
  if in_range 97 122 c
     || (in_range 224 254 c && negb (code c =? 247)%N)
  then String (ascii_of_N (code c - 32)) ""
  else if (code c =? 223)%N then "SS"
  else String c "".

Fixpoint lower (s : string) : string :=
  match s with
  | "" => ""
  | String c r => String (lower_char c) (lower r)
  end.

Fixpoint upper (s : string) : string :=
  match s with
  | "" => ""
  | String c r => upper_char c ++ upper r
  end.

Fixpoint lstrip (s : string) : string :=
  match s with
  | "" => ""
  | String c r => if isspace c then lstrip r else s
  end.

Fixpoint rstrip (s : string) : string :=
  match s with
  | "" => ""
  | String c r =>
      match rstrip r with
      | "" => if isspace c then "" else String c ""
      | r' => String c r'
      end
  end.

(** [s.strip()] *)
Definition strip (s : string) : string := rstrip (lstrip s).

(** [s.startswith(p)] *)
Fixpoint startswith (p s : string) : bool :=
  match p, s with
  | "", _ => true
  | String a p', String b s' => Ascii.eqb a b && startswith p' s'
  | String _ _, "" => false
  end.

(** [s.endswith(c)] for a one-character suffix. *)
Fixpoint endswith_char (c : ascii) (s : string) : bool :=
  match s with
  | "" => false
  | String a "" => Ascii.eqb a c
  | String _ r => endswith_char c r
  end.

(** [s.find(sub)]: the lowest index at which [sub] occurs. *)
Fixpoint find (sub s : string) : option nat :=
  if startswith sub s then Some 0
  else match s with
       | "" => None
       | String _ r => option_map S (find sub r)
       end.

(** [s.index(sub)] raises [ValueError] where [find] has no answer. *)
Definition index (sub s : string) : result nat :=
  match find sub s with
  | Some i => Ok i
  | None => Raise (ValueError "substring not found")
  end.

(** [s[n:]] *)
Fixpoint drop (n : nat) (s : string) : string :=
  match n, s with
  | O, _ => s
  | S n', String _ r => drop n' r
  | S _, "" => ""
  end.

(** [s[:n]] *)
Fixpoint take (n : nat) (s : string) : string :=
  match n, s with
  | O, _ => ""
  | S n', String c r => String c (take n' r)
  | S _, "" => ""
  end.

(** [s[lo:hi]] for non-negative bounds. *)
Definition slice (lo hi : nat) (s : string) : string :=
  take (hi - lo) (drop lo s).

(** [s[0]] *)
Definition first_char (s : string) : result ascii :=
  match s with
  | String c _ => Ok c
  | "" => Raise (IndexError "string index out of range")
  end.

(** [c in s] for a one-character [c]. *)
Fixpoint contains_char (c : ascii) (s : string) : bool :=
  match s with
  | "" => false
  | String a r => Ascii.eqb c a || contains_char c r
  end.

(** [s.split(sep)] for a one-character separator. *)
Fixpoint split (sep : ascii) (s : string) : list string :=
  match s with
  | "" => [""]
  | String c r =>
      if Ascii.eqb c sep then "" :: split sep r
      else match split sep r with
           | h :: t => String c h :: t
           | [] => [String c ""]
           end
  end.

(** [sep.join(l)] *)
Definition join (sep : string) (l : list string) : string :=
  String.concat sep l.

(** [s.replace(a, b)] for one-character [a] and [b]. *)
Fixpoint replace_char (a b : ascii) (s : string) : string :=
  match s with
  | "" => ""
  | String c r =>
      String (if Ascii.eqb c a then b else c) (replace_char a b r)
  end.

(** [s.split()]: the maximal runs of characters that are not
    whitespace. [cur] is the run being read. *)
Fixpoint split_ws_from (cur : option string) (s : string) : list string :=
  match s with
  | "" => match cur with Some w => [w] | None => [] end
  | String c r =>
      if isspace c
      then match cur with
           | Some w => w :: split_ws_from None r
           | None => split_ws_from None r
           end
      else split_ws_from
             (Some (match cur with
                    | Some w => w ++ String c ""
                    | None => String c ""
                    end)) r
  end.

Definition split_ws (s : string) : list string := split_ws_from None s.

Fixpoint all_digits (s : string) : bool :=
  match s with
  | "" => true
  | String c r => isdigit c && all_digits r
  end.

(** [s.isdecimal()] *)
Definition isdecimal (s : string) : bool :=
  match s with
  | "" => false
  | _ => all_digits s
  end.

(** The digits of an integer literal given to [int]: single underscores
    are allowed between two digits and are dropped. [after_digit] tells
    whether the character before was a digit. *)
Fixpoint int_digits (after_digit : bool) (s : string) : option string :=
  match s with
  | "" => if after_digit then Some "" else None
  | String c r =>
      if isdigit c then option_map (String c) (int_digits true r)
      else if Ascii.eqb c "_" && after_digit then int_digits false r
      else None
  end.

Definition invalid_literal (s : string) : exn :=
  ValueError ("invalid literal for int() with base 10: '" ++ s ++ "'").

(** The limit CPython puts on the number of digits of an integer that is
    read from a string or written to one: 4300, as
    [sys.get_int_max_str_digits()] gives it in a process that has not
    changed it. *)
Definition int_max_str_digits : Z := 4300.

Definition nat_digits (n : nat) : string :=
  NilEmpty.string_of_uint (Nat.to_uint n).

Definition int_limit_error (digits : nat) : exn :=
  ValueError
    ("Exceeds the limit (4300 digits) for integer string conversion: "
     ++ "value has " ++ nat_digits digits
     ++ " digits; use sys.set_int_max_str_digits() to increase the limit").

Definition str_limit_error : exn :=
  ValueError
    ("Exceeds the limit (4300 digits) for integer string conversion; "
     ++ "use sys.set_int_max_str_digits() to increase the limit").

(** The run of digits and underscores a string starts with, and what
    follows the run. *)
Fixpoint digit_run (s : string) : string * string :=
  match s with
  | "" => ("", "")
  | String c r =>
      if isdigit c || Ascii.eqb c "_"
      then let '(run, rest) := digit_run r in (String c run, rest)
      else ("", s)
  end.

(** [int(s)]: surrounding whitespace is dropped and one sign is allowed;
    the run of digits that follows is checked for its underscores, then
    for the number of its digits, leading zeros counted, and nothing may
    follow it; the digits are read in base ten. Anything else is a
    [ValueError]. *)
Definition int (s : string) : result Z :=
  let t := strip s in
  let '(negative, body) :=
    match t with
    | String "-" r => (true, r)
    | String "+" r => (false, r)
    | _ => (false, t)
    end in
  let '(run, rest) := digit_run body in
  match int_digits false run with
  | Some ds =>
      if (int_max_str_digits <? Z.of_nat (String.length ds))%Z
      then Raise (int_limit_error (String.length ds))
      else
        match rest with
        | "" =>
            match NilZero.uint_of_string ds with
            | Some u =>
                let n := Z.of_N (N.of_uint u) in
                Ok (if negative then (- n)%Z else n)
            | None => Raise (invalid_literal s)
            end
        | String _ _ => Raise (invalid_literal s)
        end
  | None => Raise (invalid_literal s)
  end.

(** The decimal numeral of an integer, with its sign. *)
Definition numeral (i : Z) : string := NilZero.string_of_int (Z.to_int i).

(** [str(i)]: the numeral of [i], unless it has more digits than the
    limit allows. *)
Definition str (i : Z) : result string :=
  let s := numeral i in
  let digits := String.length (if startswith "-" s then drop 1 s else s) in
  if (int_max_str_digits <? Z.of_nat digits)%Z then Raise str_limit_error
  else Ok s.

End Py.

(* ================================================================= *)
(** * [posixpath] *)

Module PosixPath.

Definition isabs (p : string) : bool := Py.startswith "/" p.

(** [posixpath.join(a, b)] *)
Definition join (a b : string) : string :=
  if Py.startswith "/" b then b
  else if String.eqb a "" || Py.endswith_char "/" a then a ++ b
  else a ++ "/" ++ b.

(** [(p[:i], p[i:])] for [i = p.rfind('/') + 1]. *)
Fixpoint split_at_last_sep (p : string) : string * string :=
  match p with
  | "" => ("", "")
  | String c r =>
      match split_at_last_sep r with
      | ("", t) =>
          if Ascii.eqb c "/" then ("/", r) else ("", String c t)
      | (h, t) => (String c h, t)
      end
  end.

Fixpoint all_seps (s : string) : bool :=
  match s with
  | "" => true
  | String c r => Ascii.eqb c "/" && all_seps r
  end.

(** [s.rstrip('/')] *)
Fixpoint rstrip_seps (s : string) : string :=
  match s with
  | "" => ""
  | String c r =>
      match rstrip_seps r with
      | "" => if Ascii.eqb c "/" then "" else String c ""
      | r' => String c r'
      end
  end.

(** [posixpath.dirname(p)] *)
Definition dirname (p : string) : string :=
  let head := fst (split_at_last_sep p) in
  if negb (String.eqb head "") && negb (all_seps head)
  then rstrip_seps head else head.

(** [posixpath.basename(p)] *)
Definition basename (p : string) : string := snd (split_at_last_sep p).

(** The loop of [normpath] over the components; [stack] is [new_comps],
    last component first. *)
Fixpoint norm_comps (initial_slashes : nat) (stack comps : list string)
  : list string :=
  match comps with
  | [] => stack
  | comp :: rest =>
      if String.eqb comp "" || String.eqb comp "." then
        norm_comps initial_slashes stack rest
      else if negb (String.eqb comp "..")
              || (Nat.eqb initial_slashes 0
                  && match stack with [] => true | _ => false end)
              || match stack with
                 | top :: _ => String.eqb top ".."
                 | [] => false
                 end
      then norm_comps initial_slashes (comp :: stack) rest
      else match stack with
           | _ :: below => norm_comps initial_slashes below rest
           | [] => norm_comps initial_slashes stack rest
           end
  end.

Fixpoint seps (n : nat) : string :=
  match n with
  | O => ""
  | S k => String "/" (seps k)
  end.

(** [posixpath.normpath(path)] *)
Definition normpath (path : string) : string :=
  if String.eqb path "" then "."
  else
    let initial_slashes :=
      if Py.startswith "/" path
      then if Py.startswith "//" path && negb (Py.startswith "///" path)
           then 2%nat else 1%nat
      else 0%nat in
    let comps := norm_comps initial_slashes [] (Py.split "/" path) in
    let joined := seps initial_slashes ++ Py.join "/" (List.rev comps) in
    if String.eqb joined "" then "." else joined.

(** [posixpath.abspath(path)], in a process whose working directory is
    [cwd]. *)
Definition abspath (cwd path : string) : string :=
  normpath (if isabs path then path else join cwd path).

(** [posixpath.expanduser(path)]. [home_of ""] is the home directory of
    the user of the process, [home_of name] the one of the user [name];
    [None] where there is none to be found. *)
Definition expanduser (home_of : string -> option string) (path : string)
  : string :=
  if negb (Py.startswith "~" path) then path
  else
    let i := match Py.find "/" (Py.drop 1 path) with
             | Some k => S k
             | None => String.length path
             end in
    match home_of (Py.slice 1 i path) with
    | None => path
    | Some userhome =>
        let r := rstrip_seps userhome ++ Py.drop i path in
        if String.eqb r "" then "/" else r
    end.

End PosixPath.

(* ================================================================= *)
(** * The file system and the process around the module *)

Module Os.

(** A special file (a device, a FIFO): what reading it as text gives, if
    it can be read, and whether it takes a text written to it, are the
    device's own. *)
Record device : Type := {
  dev_read : option string;
  dev_takes : string -> bool
}.

Inductive kind : Type := Dir | Reg | Special (d : device).

(** What [os.stat] tells of a path, with the access the process has and
    whether the file is the process's own. For a regular file [content]
    is its text. *)
Record node : Type := {
  st_dev : Z;
  st_ino : Z;
  st_kind : kind;
  owned : bool;
  may_read : bool;
  may_write : bool;
  may_search : bool;
  content : string
}.

(** [fs p] is the node [os.stat(p)] finds, symbolic links followed and
    relative paths taken from the working directory; [None] where
    [os.stat] raises. *)
Definition FS : Type := string -> option node.

(** What is at a name at which [os.stat] finds nothing: no entry; a
    symbolic link whose target is missing, with what [os.stat] finds of
    the directory the target would be made in; or a name at which the
    system makes no entry (a name too long, a loop of links, a file
    system that takes no new entry). *)
Inductive vacancy : Type :=
| Free
| Dangling (target_dir : option node)
| Refused.

(** The file system and the process. [alias q p] tells that [q] and [p]
    are names of one directory entry: an entry made at [p] is found at
    [q] too. A privileged process is one the permission bits do not
    bind. *)
Record World : Type := {
  fs : FS;
  vacant : string -> vacancy;
  alias : string -> string -> bool;
  cwd : string;
  home_of : string -> option string;
  argv0 : string;
  umask : Z;
  next_ino : Z;
  privileged : bool
}.

Definition F_OK : Z := 0.
Definition X_OK : Z := 1.
Definition W_OK : Z := 2.
Definition R_OK : Z := 4.

Definition is_dir (n : node) : bool :=
  match st_kind n with Dir => true | _ => false end.

Definition is_reg (n : node) : bool :=
  match st_kind n with Reg => true | _ => false end.

(** [os.path.exists(p)] *)
Definition exists_ (f : FS) (p : string) : bool :=
  match f p with Some _ => true | None => false end.

(** [os.path.isdir(p)] *)
Definition isdir (f : FS) (p : string) : bool :=
  match f p with Some n => is_dir n | None => false end.

(** [os.path.isfile(p)] *)
Definition isfile (f : FS) (p : string) : bool :=
  match f p with Some n => is_reg n | None => false end.

(** [os.access(p, mode)]: every access asked for in [mode] is granted. *)
Definition access (f : FS) (p : string) (mode : Z) : bool :=
  match f p with
  | Some n =>
      (negb (Z.testbit mode 2) || may_read n)
      && (negb (Z.testbit mode 1) || may_write n)
      && (negb (Z.testbit mode 0) || may_search n)
  | None => false
  end.

Definition same_node (a b : node) : bool :=
  (st_dev a =? st_dev b)%Z && (st_ino a =? st_ino b)%Z.

(** [os.path.samefile(a, b)]: both paths are stat'ed, which raises for a
    path that does not exist. *)
Definition samefile (f : FS) (a b : string) : result bool :=
  match f a, f b with
  | Some na, Some nb => Ok (same_node na nb)
  | None, _ => Raise (OSError a)
  | _, None => Raise (OSError b)
  end.

(** The file system with a new entry [n] at the name [p]: the entry is
    found at [p] and at the names of [p] at which nothing was found. *)
Definition enter (w : World) (p : string) (n : node) : FS :=
  fun q =>
    if String.eqb q p then Some n
    else match fs w q with
         | Some m => Some m
         | None => if alias w q p then Some n else None
         end.

(** The directory an entry named [p] is made in; separators at the end
    of [p] do not count. *)
Definition parent (p : string) : string :=
  match PosixPath.dirname (PosixPath.rstrip_seps p) with
  | "" => "."
  | d => d
  end.

(** A name a file can be made at: not empty, and without a separator at
    its end. *)
Definition file_name (p : string) : bool :=
  negb (String.eqb p "") && negb (Py.endswith_char "/" p).

(** The read, write and search access the process has to a file of its
    own with the permission bits [bits]: the owner's bits, or, for a
    privileged process, read and write access whatever the bits and
    search access to a directory or where some execute bit is set. *)
Definition granted (w : World) (dir : bool) (bits : Z)
  : bool * bool * bool :=
  if privileged w
  then (true, true,
        dir || Z.testbit bits 6 || Z.testbit bits 3 || Z.testbit bits 0)
  else (Z.testbit bits 8, Z.testbit bits 7, Z.testbit bits 6).

(** A node made by the process, with the bits [perm & ~umask]. *)
Definition fresh (w : World) (k : kind) (perm : Z) (dev : Z) : node :=
  let bits := Z.land perm (Z.lnot (umask w)) in
  let g := granted w (match k with Dir => true | _ => false end) bits in
  {| st_dev := dev; st_ino := next_ino w; st_kind := k; owned := true;
     may_read := fst (fst g); may_write := snd (fst g);
     may_search := snd g;
     content := "" |}.

Definition with_entry (w : World) (p : string) (n : node) : World :=
  {| fs := enter w p n; vacant := vacant w; alias := alias w;
     cwd := cwd w; home_of := home_of w; argv0 := argv0 w;
     umask := umask w; next_ino := (next_ino w + 1)%Z;
     privileged := privileged w |}.

(** Making the entry [p] of kind [k] in the directory [dir]: the
    directory has to be there, writeable and searchable. *)
Definition create_in (dir : option node) (w : World) (p : string)
  (k : kind) (perm : Z) : result World :=
  match dir with
  | Some d =>
      if is_dir d && may_write d && may_search d
      then Ok (with_entry w p (fresh w k perm (st_dev d)))
      else Raise (OSError p)
  | None => Raise (OSError p)
  end.

(** Making the entry [p] where nothing is in the way. *)
Definition create (w : World) (p : string) (k : kind) (perm : Z)
  : result World :=
  create_in (fs w (parent p)) w p k perm.

(** [os.mkdir(p)]: one level only, and at a free name only: a symbolic
    link is in the way even when its target is missing. *)
Definition mkdir (w : World) (p : string) : result World :=
  match fs w p with
  | Some _ => Raise (OSError p)
  | None =>
      match vacant w p with
      | Free =>
          if String.eqb p "" then Raise (OSError p) else create w p Dir 511
      | Dangling _ | Refused => Raise (OSError p)
      end
  end.

(** The file [open] makes at a name at which [os.stat] finds nothing: at
    the name, or, through a symbolic link, at its target. *)
Definition make_file (w : World) (p : string) : result World :=
  if file_name p then
    match vacant w p with
    | Free => create w p Reg 438
    | Dangling dir => create_in dir w p Reg 438
    | Refused => Raise (OSError p)
    end
  else Raise (OSError p).

(** [open(p, 'a')]: an existing file is opened for writing, a missing
    one is made. *)
Definition open_append (w : World) (p : string) : result World :=
  match fs w p with
  | Some n =>
      if negb (is_dir n) && may_write n then Ok w else Raise (OSError p)
  | None => make_file w p
  end.

(** [open(p, 'rt').read()]: the text of a regular file, or what the
    device gives. *)
Definition read_text (w : World) (p : string) : result string :=
  match fs w p with
  | Some n =>
      if negb (is_dir n) && may_read n
      then match st_kind n with
           | Special d =>
               match dev_read d with
               | Some t => Ok t
               | None => Raise (OSError p)
               end
           | _ => Ok (content n)
           end
      else Raise (OSError p)
  | None => Raise (OSError p)
  end.

End Os.

(* ================================================================= *)
(** * The [logging] backend *)

Module Logging.

Definition NOTSET : Z := 0.
Definition DEBUG : Z := 10.
Definition INFO : Z := 20.
Definition WARNING : Z := 30.
Definition ERROR : Z := 40.
Definition CRITICAL : Z := 50.

(** [manager_disable] is [logging.root.manager.disable]; the root logger
    has a level and the files of its handlers. *)
Record state : Type := {
  manager_disable : Z;
  root_level : Z;
  root_handlers : list string
}.

Definition initial : state :=
  {| manager_disable := 0; root_level := WARNING; root_handlers := [] |}.

(** [logging.disable(level)] *)
Definition disable (level : Z) (l : state) : state :=
  {| manager_disable := level; root_level := root_level l;
     root_handlers := root_handlers l |}.

(** [logging.root.isEnabledFor(level)]: whether a record of severity
    [level] is let through. *)
Definition isEnabledFor (l : state) (level : Z) : bool :=
  if (manager_disable l >=? level)%Z then false
  else (level >=? root_level l)%Z.

(** What [basicConfig(filename=..., level=...)] does to the root logger
    once the file is open; nothing if the root logger has a handler. *)
Definition configure (filename : string) (level : Z) (l : state) : state :=
  {| manager_disable := manager_disable l; root_level := level;
     root_handlers := root_handlers l ++ [filename] |}%list.

End Logging.

(* ================================================================= *)
(** * The module [scr]: state *)

(** The module's globals, with the state of the interpreter and of the
    system the module reads and writes. Before [_init_module] has run the
    directory globals are unbound; [_init_module] reads none of them. *)
Record State : Type := {
  BIN_DIR : string;
  CUR_DIR : string;
  ETC_DIR : string;
  LIB_DIR : string;
  LOG_DIR : string;
  REL_DIR : string;
  SCH_DIR : string;
  PROG_NAME : string;
  debug : bool;
  sys_path : list string;
  world : Os.World;
  logging : Logging.state
}.

Definition set_LOG_DIR (d : string) (st : State) : State :=
  {| BIN_DIR := BIN_DIR st; CUR_DIR := CUR_DIR st; ETC_DIR := ETC_DIR st;
     LIB_DIR := LIB_DIR st; LOG_DIR := d; REL_DIR := REL_DIR st;
     SCH_DIR := SCH_DIR st; PROG_NAME := PROG_NAME st; debug := debug st;
     sys_path := sys_path st; world := world st; logging := logging st |}.

Definition set_world (w : Os.World) (st : State) : State :=
  {| BIN_DIR := BIN_DIR st; CUR_DIR := CUR_DIR st; ETC_DIR := ETC_DIR st;
     LIB_DIR := LIB_DIR st; LOG_DIR := LOG_DIR st; REL_DIR := REL_DIR st;
     SCH_DIR := SCH_DIR st; PROG_NAME := PROG_NAME st; debug := debug st;
     sys_path := sys_path st; world := w; logging := logging st |}.

Definition set_logging (l : Logging.state) (st : State) : State :=
  {| BIN_DIR := BIN_DIR st; CUR_DIR := CUR_DIR st; ETC_DIR := ETC_DIR st;
     LIB_DIR := LIB_DIR st; LOG_DIR := LOG_DIR st; REL_DIR := REL_DIR st;
     SCH_DIR := SCH_DIR st; PROG_NAME := PROG_NAME st; debug := debug st;
     sys_path := sys_path st; world := world st; logging := l |}.

Definition set_sys_path (sp : list string) (st : State) : State :=
  {| BIN_DIR := BIN_DIR st; CUR_DIR := CUR_DIR st; ETC_DIR := ETC_DIR st;
     LIB_DIR := LIB_DIR st; LOG_DIR := LOG_DIR st; REL_DIR := REL_DIR st;
     SCH_DIR := SCH_DIR st; PROG_NAME := PROG_NAME st; debug := debug st;
     sys_path := sp; world := world st; logging := logging st |}.

(** Statements that change the state and may raise: the state at the
    point of the [raise] is kept. *)
Definition M (A : Type) : Type := State -> result A * State.

Definition ret {A : Type} (a : A) : M A := fun st => (Ok a, st).

Definition mbind {A B : Type} (m : M A) (k : A -> M B) : M B :=
  fun st =>
    match m st with
    | (Ok a, st') => k a st'
    | (Raise e, st') => (Raise e, st')
    end.

Definition lift {A : Type} (r : State -> result A) : M A :=
  fun st => (r st, st).

Definition modify (f : State -> State) : M unit :=
  fun st => (Ok tt, f st).

(** The state [m] leaves, raised or not. *)
Definition after {A : Type} (m : M A) (st : State) : State := snd (m st).

Notation "x <~ m ;; k" := (mbind m (fun x => k))
  (at level 61, m at next level, right associativity).

(** Python's [dict] literal with string keys, and [d[key]]. *)
Fixpoint dict_get {V : Type} (d : list (string * V)) (key : string)
  : result V :=
  match d with
  | [] => Raise (KeyError key)
  | (k, v) :: rest => if String.eqb k key then Ok v else dict_get rest key
  end.

(** Truth of an [Optional[str]] argument: [None] and [''] are false. *)
Definition truthy (o : option string) : bool :=
  match o with
  | Some (String _ _) => true
  | _ => false
  end.

Definition str_of (o : option string) : string :=
  match o with Some s => s | None => "" end.

(* ================================================================= *)
(** * The module [scr]: version codec *)

(** The generator [int(s) for s in segs if s.isdecimal()], collected. *)
Fixpoint decimal_segments (segs : list string) : result (list Z) :=
  match segs with
  | [] => Ok []
  | s :: rest =>
      if Py.isdecimal s
      then i <- Py.int s ;; tl <- decimal_segments rest ;; Ok (i :: tl)
      else decimal_segments rest
  end.

Definition semver_to_vsn (vstr : string) : result (list Z) :=
  decimal_segments (Py.split "." vstr).

(** The generator [str(i) for i in vsn], collected. *)
Fixpoint numerals (vsn : list Z) : result (list string) :=
  match vsn with
  | [] => Ok []
  | i :: rest =>
      s <- Py.str i ;; tl <- numerals rest ;; Ok (s :: tl)
  end.

Definition vsn_to_semver (vsn : list Z) : result string :=
  segs <- numerals vsn ;; Ok (Py.join "." segs).

(* ================================================================= *)
(** * The module [scr]: exceptions *)

Definition raise_param_error {A : Type} (st : State) (msg : string)
  (bad_type : bool) : result A :=
  let exc :=
    if debug st
    then (if bad_type then ParamTypeError msg else ParamValueError msg)
    else (if bad_type then TypeError msg else ValueError msg) in
  Raise exc.

(* ================================================================= *)
(** * The module [scr]: validators *)

Definition abs_expanded (st : State) (path : string) : string :=
  PosixPath.abspath (Os.cwd (world st))
    (PosixPath.expanduser (Os.home_of (world st)) path).

Definition PossibleFile (st : State) (path : string) : result string :=
  let f := Os.fs (world st) in
  let fp := abs_expanded st path in
  if Os.exists_ f fp then
    if negb (Os.isfile f fp) then
      raise_param_error st ("exists but not a file: '" ++ fp ++ "'") false
    else if negb (Os.access f fp Os.R_OK || Os.access f fp Os.W_OK) then
      raise_param_error st ("insufficient file permissions: '" ++ fp ++ "'")
        false
    else Ok fp
  else
    let dp := PosixPath.dirname fp in
    if negb (Os.isdir f dp) then
      raise_param_error st ("not a directory: '" ++ dp ++ "'") false
    else if negb (Os.access f dp Os.W_OK) then
      raise_param_error st
        ("insufficient directory permissions: '" ++ dp ++ "'") false
    else Ok fp.

Definition ReadableAbsDir (st : State) (path : string) : result string :=
  let f := Os.fs (world st) in
  if negb (Os.isdir f path) then
    raise_param_error st ("not a directory: '" ++ path ++ "'") false
  else if negb (Os.access f path Os.W_OK) then
    raise_param_error st
      ("insufficient directory permissions: '" ++ path ++ "'") false
  else Ok path.

Definition ReadableAbsFile (st : State) (path : string) : result string :=
  let f := Os.fs (world st) in
  if negb (Os.isfile f path && Os.access f path Os.R_OK) then
    raise_param_error st ("not a readable file: '" ++ path ++ "'") false
  else Ok path.

Definition ReadableDir (st : State) (path : string) : result string :=
  ReadableAbsDir st (abs_expanded st path).

Definition ReadableFile (st : State) (path : string) : result string :=
  ReadableAbsFile st (abs_expanded st path).

Definition read_file (st : State) (path : string) : result string :=
  Os.read_text (world st) path.

Definition NamesListOrFile (st : State) (param : string)
  : result (list string) :=
  param' <- (if Py.startswith "@" param
             then p <- ReadableFile st (Py.drop 1 param) ;; read_file st p
             else Ok param) ;;
  Ok (Py.split_ws (Py.replace_char "," " " param')).

(* ================================================================= *)
(** * The module [scr]: configuration paths *)

Definition _fspath_seps : string := "/".

Definition stache_map (st : State) : list (string * string) :=
  [ ("bin", BIN_DIR st);
    ("etc", ETC_DIR st);
    ("lib", LIB_DIR st);
    ("log", LOG_DIR st);
    ("prog", PROG_NAME st);
    ("rel", REL_DIR st);
    ("schema", SCH_DIR st) ].

Definition resolve_conf_path (st : State) (path : string) : result string :=
  path' <-
    (if Py.startswith "~" path then
       Ok (PosixPath.expanduser (Os.home_of (world st)) path)
     else if Py.startswith "{{" path then
       subend <- Py.index "}}" path ;;
       let substr := Py.lower (Py.strip (Py.slice 2 subend path)) in
       repl <- dict_get (stache_map st) substr ;;
       let tail := Py.drop (subend + 2) path in
       c <- Py.first_char tail ;;
       if Py.contains_char c _fspath_seps
       then Ok (repl ++ tail)
       else Ok (PosixPath.join repl tail)
     else Ok path) ;;
  Ok (PosixPath.abspath (Os.cwd (world st)) path').

(* ================================================================= *)
(** * The module [scr]: initialization *)

Definition LOG_LEVELS : list (string * Z) :=
  [ ("ALL", Logging.NOTSET);
    ("DEBUG", Logging.DEBUG);
    ("INFO", Logging.INFO);
    ("WARNING", Logging.WARNING);
    ("ERROR", Logging.ERROR);
    ("CRITICAL", Logging.CRITICAL);
    ("NONE", (-1)%Z) ].

(** [logging.basicConfig(filename=..., filemode='at', ..., level=...)]:
    with no handler on the root logger yet, the file is opened for
    appending and becomes the root logger's handler. *)
Definition basicConfig (filename : string) (level : Z) : M unit :=
  fun st =>
    match Logging.root_handlers (logging st) with
    | [] =>
        let file := PosixPath.abspath (Os.cwd (world st)) filename in
        match Os.open_append (world st) file with
        | Ok w =>
            (Ok tt,
             set_logging (Logging.configure file level (logging st))
               (set_world w st))
        | Raise e => (Raise e, st)
        end
    | _ :: _ => (Ok tt, st)
    end.

(** [os.mkdir(path)] as a statement. *)
Definition os_mkdir (path : string) : M unit :=
  fun st =>
    match Os.mkdir (world st) path with
    | Ok w => (Ok tt, set_world w st)
    | Raise e => (Raise e, st)
    end.

(** Lines 253 to 256 of [init_log]: the directory the call works in. *)
Definition init_log_dir (logdir : option string) : M string :=
  if truthy logdir then
    d <~ lift (fun st => resolve_conf_path st (str_of logdir)) ;;
    _u <~ modify (set_LOG_DIR d) ;;
    ret d
  else lift (fun st => Ok (LOG_DIR st)).

(** Lines 257 to 270 of [init_log]. *)
Definition init_log_open (logdir : string) (logname : option string)
  (loglevel : Z) : M unit :=
  _u <~ (fun st =>
           if negb (Os.isdir (Os.fs (world st)) logdir) then
             if Os.exists_ (Os.fs (world st)) logdir then
               (raise_param_error st
                  ("not a directory: '" ++ logdir ++ "'") false, st)
             else os_mkdir logdir st
           else (Ok tt, st)) ;;
  _u <~ lift (fun st =>
           if negb (Os.access (Os.fs (world st)) logdir
                      (Z.lor (Z.lor Os.R_OK Os.W_OK) Os.X_OK))
           then raise_param_error st
                  ("insufficient directory permissions: '" ++ logdir ++ "'")
                  false
           else Ok tt) ;;
  name <~ lift (fun st =>
           Ok (if negb (truthy logname) then PROG_NAME st
               else str_of logname)) ;;
  let logfile := PosixPath.join logdir (name ++ ".log") in
  basicConfig logfile loglevel.

Definition init_log (level : string) (logdir logname : option string)
  : M unit :=
  loglevel <~ lift (fun _ => dict_get LOG_LEVELS (Py.upper level)) ;;
  if (loglevel <? 0)%Z then
    (* disable *)
    modify (fun st =>
              set_logging (Logging.disable (Z.lxor 2 31 - 1) (logging st)) st)
  else
    dir <~ init_log_dir logdir ;;
    init_log_open dir logname loglevel.

(** [a and b] where [b] may raise. *)
Definition and_then (a : bool) (b : result bool) : result bool :=
  if a then b else Ok false.

(** The loop [for _d in _sp] of [_init_module]: [true] when it is left by
    its [return]. *)
Fixpoint already_on_path (f : Os.FS) (_libdir : string) (_sp : list string)
  : result bool :=
  match _sp with
  | [] => Ok false
  | _d :: rest =>
      same <- and_then (Os.exists_ f _d) (Os.samefile f _d _libdir) ;;
      if same then Ok true else already_on_path f _libdir rest
  end.

(** [l.insert(i, x)] *)
Definition list_insert {A : Type} (i : nat) (x : A) (l : list A) : list A :=
  (firstn i l ++ x :: skipn i l)%list.

(** [l[0]] *)
Definition list_first {A : Type} (l : list A) : result A :=
  match l with
  | a :: _ => Ok a
  | [] => Raise (IndexError "list index out of range")
  end.

Definition _init_module : M unit :=
  fun st0 =>
    let w := world st0 in
    let f := Os.fs w in
    let _script := PosixPath.abspath (Os.cwd w) (Os.argv0 w) in
    let _bindir := PosixPath.dirname _script in
    let _reldir := PosixPath.dirname _bindir in
    let _libdir := PosixPath.join _reldir "lib" in
    let st :=
      {| BIN_DIR := _bindir;
         CUR_DIR := Os.cwd w;
         ETC_DIR := PosixPath.join _reldir "etc";
         LIB_DIR := _libdir;
         LOG_DIR := PosixPath.join _reldir "log";
         REL_DIR := _reldir;
         SCH_DIR := PosixPath.join _reldir "schema";
         PROG_NAME := PosixPath.basename _script;
         debug := debug st0;
         sys_path := sys_path st0;
         world := w;
         logging := logging st0 |} in
    if Os.isdir f _libdir && Os.access f _libdir (Z.lor Os.R_OK Os.X_OK)
    then
      let _sp := sys_path st in
      (found <~ lift (fun _ => already_on_path f _libdir _sp) ;;
       if found then ret tt
       else
         _sp0 <~ lift (fun _ => list_first _sp) ;;
         same <~ lift (fun _ =>
                   and_then (Os.exists_ f _sp0)
                     (Os.samefile f _sp0 _bindir)) ;;
         if same
         then modify (set_sys_path (list_insert 1 _libdir _sp))
         else modify (set_sys_path (_sp ++ [_libdir])%list)) st
    else (Ok tt, st).

(* ================================================================= *)
(** * The module [scr]: common helpers *)

(** [key in d] for a [dict] with string keys, kept as its items in the
    order of insertion. *)
Fixpoint dict_has {V : Type} (d : list (string * V)) (key : string) : bool :=
  match d with
  | [] => false
  | (k, _) :: rest => String.eqb k key || dict_has rest key
  end.

(** [d[key] = v]: a key that is there keeps its place, a new one goes to
    the end. *)
Fixpoint dict_set {V : Type} (d : list (string * V)) (key : string) (v : V)
  : list (string * V) :=
  match d with
  | [] => [(key, v)]
  | (k, x) :: rest =>
      if String.eqb k key then (k, v) :: rest
      else (k, x) :: dict_set rest key v
  end.

(** [key in keys] for a sequence of strings. *)
Fixpoint seq_has (keys : list string) (key : string) : bool :=
  match keys with
  | [] => false
  | k :: rest => String.eqb k key || seq_has rest key
  end.

(** The loop [for key in keys] of [dict_with]. *)
Fixpoint dict_with_keys {V : Type} (src : list (string * V))
  (keys : list string) (out : list (string * V))
  : result (list (string * V)) :=
  match keys with
  | [] => Ok out
  | key :: rest =>
      if dict_has src key
      then v <- dict_get src key ;; dict_with_keys src rest (dict_set out key v)
      else dict_with_keys src rest out
  end.

(** The loop [for key, val in src.items()] of [dict_with]. *)
Fixpoint dict_with_items {V : Type} (items : list (string * V))
  (keys : list string) (out : list (string * V)) : list (string * V) :=
  match items with
  | [] => out
  | (key, val) :: rest =>
      if seq_has keys key
      then dict_with_items rest keys (dict_set out key val)
      else dict_with_items rest keys out
  end.

Definition dict_with {V : Type} (src : list (string * V))
  (keys : list string) (keyorder : bool) : result (list (string * V)) :=
  if keyorder then dict_with_keys src keys []
  else Ok (dict_with_items src keys []).

(** The world with the file [old] changed to [new]: every name at which
    [os.stat] finds that file, by its device and inode, shows the
    change. *)
Definition change_node (w : Os.World) (old new : Os.node) : Os.World :=
  {| Os.fs := fun q =>
                match Os.fs w q with
                | Some m => if Os.same_node m old then Some new else Some m
                | None => None
                end;
     Os.vacant := Os.vacant w; Os.alias := Os.alias w;
     Os.cwd := Os.cwd w; Os.home_of := Os.home_of w;
     Os.argv0 := Os.argv0 w; Os.umask := Os.umask w;
     Os.next_ino := Os.next_ino w; Os.privileged := Os.privileged w |}.

Definition with_content (n : Os.node) (c : string) : Os.node :=
  {| Os.st_dev := Os.st_dev n; Os.st_ino := Os.st_ino n;
     Os.st_kind := Os.st_kind n; Os.owned := Os.owned n;
     Os.may_read := Os.may_read n;
     Os.may_write := Os.may_write n; Os.may_search := Os.may_search n;
     Os.content := c |}.

Definition with_access (n : Os.node) (g : bool * bool * bool) : Os.node :=
  {| Os.st_dev := Os.st_dev n; Os.st_ino := Os.st_ino n;
     Os.st_kind := Os.st_kind n; Os.owned := Os.owned n;
     Os.may_read := fst (fst g);
     Os.may_write := snd (fst g); Os.may_search := snd g;
     Os.content := Os.content n |}.

(** [open(p, 'wt')]: an existing regular file is emptied, a device is
    opened as it is, a missing file is made. *)
Definition open_write (w : Os.World) (p : string) : result Os.World :=
  match Os.fs w p with
  | Some n =>
      if negb (Os.is_dir n) && Os.may_write n
      then Ok (if Os.is_reg n then change_node w n (with_content n "")
               else w)
      else Raise (OSError p)
  | None => Os.make_file w p
  end.

(** [os.chmod(p, mode)]: for the owner of the file or a privileged
    process; the access the process has from then on is what the bits
    of [mode] grant it. *)
Definition os_chmod (w : Os.World) (p : string) (mode : Z)
  : result Os.World :=
  match Os.fs w p with
  | Some n =>
      if Os.owned n || Os.privileged w
      then Ok (change_node w n
                 (with_access n (Os.granted w (Os.is_dir n) mode)))
      else Raise (OSError p)
  | None => Raise (OSError p)
  end.

(** [fd.write(content)] on the file opened at [p], with the number of
    characters written: a regular file has the text after what it held;
    a device takes the text or refuses it. *)
Definition fd_write (w : Os.World) (p : string) (content : string)
  : result (Z * Os.World) :=
  match Os.fs w p with
  | Some n =>
      match Os.st_kind n with
      | Os.Special d =>
          if Os.dev_takes d content
          then Ok (Z.of_nat (String.length content), w)
          else Raise (OSError p)
      | _ =>
          Ok (Z.of_nat (String.length content),
              change_node w n (with_content n (Os.content n ++ content)))
      end
  | None => Raise (OSError p)
  end.

(** Truth of an [Optional[int]] argument: [None] and [0] are false. *)
Definition truthy_int (o : option Z) : bool :=
  match o with
  | Some m => negb (m =? 0)%Z
  | None => false
  end.

Definition int_of (o : option Z) : Z :=
  match o with Some m => m | None => 0%Z end.

Definition write_file (path : string) (content : option string)
  (mode : option Z) : M Z :=
  fun st =>
    match open_write (world st) path with
    | Raise e => (Raise e, st)
    | Ok w1 =>
        match (if truthy_int mode then os_chmod w1 path (int_of mode)
               else Ok w1) with
        | Raise e => (Raise e, set_world w1 st)
        | Ok w2 =>
            if truthy content then
              match fd_write w2 path (str_of content) with
              | Ok (n, w3) => (Ok n, set_world w3 st)
              | Raise e => (Raise e, set_world w2 st)
              end
            else (Ok 0%Z, set_world w2 st)
        end
    end.

(** The keys of a [dict], in the order of insertion. *)
Definition dict_keys {V : Type} (d : list (string * V)) : list string :=
  map fst d.

(** The strings of a sequence, each at the place of its first
    occurrence; [seen] are the strings met before. *)
Fixpoint first_seen (seen l : list string) : list string :=
  match l with
  | [] => []
  | x :: rest =>
      if seq_has seen x then first_seen seen rest
      else x :: first_seen (x :: seen) rest
  end.

(* ================================================================= *)
(** * Vocabulary of the specification *)

(** The integer a string of decimal digits denotes, most significant digit
    first. *)
Definition digit_value (c : ascii) : Z := Z.of_N (Py.code c) - 48.

Fixpoint decimal_value_from (acc : Z) (s : string) : Z :=
  match s with
  | "" => acc
  | String c r => decimal_value_from (10 * acc + digit_value c) r
  end.

Definition decimal_value (s : string) : Z := decimal_value_from 0 s.


(** A digit group without its leading zeros; the last digit always stays. *)
Fixpoint strip_leading_zeros (s : string) : string :=
  match s with
  | String "0" (String _ _ as r) => strip_leading_zeros r
  | _ => s
  end.

(** A segment of no more digits than [int] reads. *)
Definition within_limit (seg : string) : bool :=
  (Z.of_nat (String.length seg) <=? Py.int_max_str_digits)%Z.




(** The keys of the token table. *)
Definition stache_keys : list string :=
  ["bin"; "etc"; "lib"; "log"; "prog"; "rel"; "schema"].

(** In a path that opens with the token marker and has its closing marker
    at [subend]: the token, as it is looked up, and the tail. *)
Definition token_of (path : string) (subend : nat) : string :=
  Py.lower (Py.strip (Py.slice 2 subend path)).

Definition tail_of (path : string) (subend : nat) : string :=
  Py.drop (subend + 2) path.

(** A path in canonical absolute form: it starts at a root and [normpath]
    leaves it as it is. *)
Definition canonical (p : string) : Prop :=
  PosixPath.isabs p = true /\ PosixPath.normpath p = p.

(** The resolver as the specification words it, at one state and path: a
    recognized token resolves, the base is put directly before a tail that
    starts with a separator and joined to any other tail with exactly one
    separator between them, and the result is made absolute. *)
Definition resolves_as_specified (st : State) (path : string) : Prop :=
  forall subend base,
    Py.startswith "{{" path = true ->
    Py.find "}}" path = Some subend ->
    dict_get (stache_map st) (token_of path subend) = Ok base ->
    resolve_conf_path st path
    = Ok (PosixPath.abspath (Os.cwd (world st))
            (if Py.startswith "/" (tail_of path subend)
             then base ++ tail_of path subend
             else base ++ "/" ++ tail_of path subend)).

(** A component of a canonical path: a name, neither [.] nor [..]. *)
Definition good_comp (c : string) : bool :=
  negb (String.eqb c "") && negb (String.eqb c ".")
  && negb (String.eqb c "..") && negb (Py.contains_char "/" c).

(** [k] slashes, then the components with one slash between them. *)
Definition canon (k : nat) (comps : list string) : string :=
  PosixPath.seps k ++ Py.join "/" comps.

(** The two kinds of parameter error, under either presentation. *)
Definition is_value_error (e : exn) : bool :=
  match e with
  | ValueError _ | ParamValueError _ => true
  | _ => false
  end.

Definition is_type_error (e : exn) : bool :=
  match e with
  | TypeError _ | ParamTypeError _ => true
  | _ => false
  end.

(** The globals [init_log] has no business with are the same in both
    states. *)
Definition same_globals (st st' : State) : Prop :=
  BIN_DIR st' = BIN_DIR st /\ CUR_DIR st' = CUR_DIR st
  /\ ETC_DIR st' = ETC_DIR st /\ LIB_DIR st' = LIB_DIR st
  /\ REL_DIR st' = REL_DIR st /\ SCH_DIR st' = SCH_DIR st
  /\ PROG_NAME st' = PROG_NAME st.

(** Filesystem identity of two paths: both exist and name one node. A
    path that does not exist is identical to none. *)
Definition identical (f : Os.FS) (a b : string) : bool :=
  match f a, f b with
  | Some na, Some nb => Os.same_node na nb
  | _, _ => false
  end.

(** The directories [_init_module] derives from where the program is. *)
Definition bindir_of (w : Os.World) : string :=
  PosixPath.dirname (PosixPath.abspath (Os.cwd w) (Os.argv0 w)).

Definition libdir_of (w : Os.World) : string :=
  PosixPath.join (PosixPath.dirname (bindir_of w)) "lib".

(** The search path the specification words for the end of Bootstrap,
    the candidate being there, readable and traversable. *)
Definition specified_search_path (f : Os.FS) (bin lib : string)
  (sp : list string) : list string :=
  if existsb (fun d => identical f d lib) sp then sp
  else match sp with
       | d0 :: rest =>
           if identical f d0 bin then d0 :: lib :: rest
           else (sp ++ [lib])%list
       | [] => (sp ++ [lib])%list
       end.

Definition bootstrap_as_specified (st0 : State) : Prop :=
  let w := world st0 in
  Os.isdir (Os.fs w) (libdir_of w) = true ->
  Os.access (Os.fs w) (libdir_of w) (Z.lor Os.R_OK Os.X_OK) = true ->
  sys_path (after _init_module st0)
  = specified_search_path (Os.fs w) (bindir_of w) (libdir_of w)
      (sys_path st0).

(** The built-in kind a parameter error collapses to. *)
Definition generic (e : exn) : exn :=
  match e with
  | ParamTypeError m => TypeError m
  | ParamValueError m => ValueError m
  | _ => e
  end.

Definition collapse {A : Type} (r : result A) : result A :=
  match r with
  | Ok a => Ok a
  | Raise e => Raise (generic e)
  end.

(** The state with the module's [debug] flag set to [b]. *)
Definition with_debug (b : bool) (st : State) : State :=
  {| BIN_DIR := BIN_DIR st; CUR_DIR := CUR_DIR st; ETC_DIR := ETC_DIR st;
     LIB_DIR := LIB_DIR st; LOG_DIR := LOG_DIR st; REL_DIR := REL_DIR st;
     SCH_DIR := SCH_DIR st; PROG_NAME := PROG_NAME st; debug := b;
     sys_path := sys_path st; world := world st; logging := logging st |}.

Definition message (e : exn) : string :=
  match e with
  | KeyError m | IndexError m | ValueError m | TypeError m
  | ParamTypeError m | ParamValueError m | OSError m => m
  end.

(** A directory the process can make an entry in: it is there,
    writeable and searchable. *)
Definition takes_entry (dir : option Os.node) : bool :=
  match dir with
  | Some d => Os.is_dir d && Os.may_write d && Os.may_search d
  | None => false
  end.



(** A change to the file found at [p], or none: the file is changed to a
    node of the same device and inode, under every name it has. *)
Definition retouch (p : string) (w w' : Os.World) : Prop :=
  w' = w
  \/ exists n n',
       Os.fs w p = Some n /\ Os.same_node n' n = true
       /\ w' = change_node w n n'.

(** [f'] is [f] but for the file [n] found at [p]: that file is still
    found at [p], and every entry that is another file is as it was. *)
Definition same_but (p : string) (n : Os.node) (f f' : Os.FS) : Prop :=
  (exists nd, f' p = Some nd /\ Os.same_node nd n = true)
  /\ forall q m, f q = Some m -> Os.same_node m n = false -> f' q = Some m.

(** Whether [PossibleFile] lets the absolute path [fp] through. *)
Definition possible_file (f : Os.FS) (fp : string) : bool :=
  if Os.exists_ f fp
  then Os.isfile f fp && (Os.access f fp Os.R_OK || Os.access f fp Os.W_OK)
  else Os.isdir f (PosixPath.dirname fp)
       && Os.access f (PosixPath.dirname fp) Os.W_OK.

(** Every character of [s] passes [p]. *)
Fixpoint all_chars (p : ascii -> bool) (s : string) : bool :=
  match s with
  | "" => true
  | String c r => p c && all_chars p r
  end.

(** A name as [NamesListOrFile] gives them: not empty, and without a
    comma or a whitespace character. *)
Definition name_char (c : ascii) : bool :=
  negb (Py.isspace c) && negb (Ascii.eqb c ",").

Definition is_name (s : string) : bool :=
  negb (String.eqb s "") && all_chars name_char s.

(** The file [init_log] gives the logging backend for the directory [d]:
    [<logname>.log] in [d], the program's name standing in for a name
    that is missing or empty. *)
Definition log_file (st : State) (d : string) (logname : option string)
  : string :=
  PosixPath.abspath (Os.cwd (world st))
    (PosixPath.join d
       ((if truthy logname then str_of logname else PROG_NAME st) ++ ".log")).

Definition rwx : Z := Z.lor (Z.lor Os.R_OK Os.W_OK) Os.X_OK.

(** ** Example deployments *)

Definition entry (k : Os.kind) (ino : Z) (r w x : bool) : Os.node :=
  {| Os.st_dev := 1; Os.st_ino := ino; Os.st_kind := k; Os.owned := true;
     Os.may_read := r; Os.may_write := w; Os.may_search := x;
     Os.content := "" |}.

Fixpoint fs_of (entries : list (string * Os.node)) : Os.FS :=
  fun p =>
    match entries with
    | [] => None
    | (q, n) :: rest => if String.eqb p q then Some n else fs_of rest p
    end.

(** Two names of one entry of a directory: the same name in directories
    that are the same file. *)
Definition same_entry (f : Os.FS) (q p : string) : bool :=
  String.eqb (PosixPath.basename q) (PosixPath.basename p)
  && match f (Os.parent q), f (Os.parent p) with
     | Some a, Some b => Os.same_node a b
     | _, _ => false
     end.

(** An unprivileged process with the umask 022, in a file system without
    dangling links. *)
Definition world_of (entries : list (string * Os.node)) (cwd argv0 : string)
  : Os.World :=
  {| Os.fs := fs_of entries;
     Os.vacant := fun _ => Os.Free;
     Os.alias := same_entry (fs_of entries);
     Os.cwd := cwd;
     Os.home_of := fun u => if String.eqb u "" then Some "/root" else None;
     Os.argv0 := argv0; Os.umask := 18; Os.next_ino := 1000;
     Os.privileged := false |}.

(** The process as the module finds it when it is loaded. *)
Definition at_load (w : Os.World) (sp : list string) : State :=
  {| BIN_DIR := ""; CUR_DIR := ""; ETC_DIR := ""; LIB_DIR := "";
     LOG_DIR := ""; REL_DIR := ""; SCH_DIR := ""; PROG_NAME := "";
     debug := false; sys_path := sp; world := w;
     logging := Logging.initial |}.

(** A release under [/opt/riak], which [/srv/riak] is a symbolic link to,
    started from [/opt/riak] as [bin/riak-admin]. *)
Definition riak_entries : list (string * Os.node) :=
  [ ("/", entry Os.Dir 2 true true true);
    ("/opt/riak", entry Os.Dir 10 true true true);
    ("/opt/riak/bin", entry Os.Dir 11 true true true);
    ("/opt/riak/lib", entry Os.Dir 12 true false true);
    ("/opt/riak/etc/riak.conf", entry Os.Reg 14 true false false);
    ("/srv/riak", entry Os.Dir 10 true true true);
    ("/srv/riak/bin", entry Os.Dir 11 true true true);
    ("/srv/riak/lib", entry Os.Dir 12 true false true) ].

Definition riak_world : Os.World :=
  world_of riak_entries "/opt/riak" "bin/riak-admin".

(** The same release started as [/srv/riak/bin/riak-admin]. *)
Definition riak_alias_world : Os.World :=
  world_of riak_entries "/" "/srv/riak/bin/riak-admin".

Definition riak_state : State :=
  after _init_module (at_load riak_world ["/opt/riak/bin"; "/usr/lib/python3"]).

(** A tool installed as [/bin/riak-admin]: its release root is [/]. *)
Definition root_world : Os.World :=
  world_of
    [ ("/", entry Os.Dir 2 true true true);
      ("/bin", entry Os.Dir 3 true true true) ]
    "/" "/bin/riak-admin".

Definition root_state : State :=
  after _init_module (at_load root_world ["/bin"]).

(** The release started as [bin/riak-admin] by a process that has moved
    to [/var] before it loads the module: [/var/lib] is there, [/var/bin]
    is not. *)
Definition moved_world : Os.World :=
  world_of
    [ ("/", entry Os.Dir 2 true true true);
      ("/var", entry Os.Dir 20 true true true);
      ("/var/lib", entry Os.Dir 21 true false true);
      ("/opt/riak/bin", entry Os.Dir 11 true true true) ]
    "/var" "bin/riak-admin".

(** The same tool after [init_log("INFO", "/")]. *)
Definition root_log_state : State :=
  after (init_log "INFO" (Some "/") None) root_state.

(** A file of notes in [/data], which [/data/./notes] names as well. *)
Definition notes_world : Os.World :=
  world_of
    [ ("/", entry Os.Dir 2 true true true);
      ("/data", entry Os.Dir 30 true true true);
      ("/data/.", entry Os.Dir 30 true true true);
      ("/data/notes", entry Os.Reg 31 true true false);
      ("/data/./notes", entry Os.Reg 31 true true false) ]
    "/" "/bin/riak-admin".

Definition notes_state : State := at_load notes_world ["/bin"].

(* ================================================================= *)
(** * Properties *)

(** ** Characters *)

Ltac each_char c :=
  destruct c as [[|] [|] [|] [|] [|] [|] [|] [|]].

Ltac by_cases_on_char c :=
  each_char c; vm_compute;
  try reflexivity; try discriminate; try tauto.

Lemma isdigit_not_space c : Py.isdigit c = true -> Py.isspace c = false.
Proof. by_cases_on_char c. Qed.

Lemma isdigit_not_dot c : Py.isdigit c = true -> Ascii.eqb c "." = false.
Proof. by_cases_on_char c. Qed.

Lemma isdigit_not_sign c :
  Py.isdigit c = true -> c <> "-"%char /\ c <> "+"%char.
Proof.
  each_char c; vm_compute; intros H;
    try discriminate H; split; discriminate.
Qed.

Lemma isdigit_cases c :
  Py.isdigit c = true ->
  In c ["0"; "1"; "2"; "3"; "4"; "5"; "6"; "7"; "8"; "9"]%char.
Proof.
  each_char c; vm_compute; intros H;
    try discriminate H; tauto.
Qed.

(** ** Strings of digits *)

Lemma lstrip_digits s : Py.all_digits s = true -> Py.lstrip s = s.
Proof.
  destruct s as [|c r]; simpl; [reflexivity|].
  intros H. apply andb_prop in H as [Hc _].
  now rewrite (isdigit_not_space c Hc).
Qed.

Lemma rstrip_digits s : Py.all_digits s = true -> Py.rstrip s = s.
Proof.
  induction s as [|c r IH]; simpl; [reflexivity|].
  intros H. apply andb_prop in H as [Hc Hr].
  rewrite (IH Hr), (isdigit_not_space c Hc). now destruct r.
Qed.

Lemma strip_digits s : Py.all_digits s = true -> Py.strip s = s.
Proof.
  intros H. unfold Py.strip. rewrite (lstrip_digits s H).
  now apply rstrip_digits.
Qed.

Lemma isdecimal_all_digits s : Py.isdecimal s = true -> Py.all_digits s = true.
Proof. destruct s; [discriminate | trivial]. Qed.

Lemma int_digits_of_digits s b :
  Py.all_digits s = true -> (s <> "" \/ b = true) ->
  Py.int_digits b s = Some s.
Proof.
  revert b. induction s as [|c r IH]; simpl; intros b H Hne.
  - destruct Hne as [Hne | ->]; [now destruct Hne | reflexivity].
  - apply andb_prop in H as [Hc Hr]. rewrite Hc.
    rewrite (IH true Hr); [reflexivity | now right].
Qed.

Lemma uint_of_digits s :
  Py.all_digits s = true -> exists u, NilEmpty.uint_of_string s = Some u.
Proof.
  induction s as [|c r IH]; simpl; intros H.
  - now exists Nil.
  - apply andb_prop in H as [Hc Hr]. destruct (IH Hr) as [u ->].
    apply isdigit_cases in Hc. simpl in Hc.
    repeat (destruct Hc as [<- | Hc]; [eexists; reflexivity|]).
    destruct Hc.
Qed.

Lemma of_uint_acc_value u acc :
  Z.pos (Pos.of_uint_acc u acc)
  = decimal_value_from (Z.pos acc) (NilEmpty.string_of_uint u).
Proof.
  revert acc. induction u as [|u IH|u IH|u IH|u IH|u IH|u IH|u IH|u IH|u IH|u IH];
    intros acc;
    cbn [Pos.of_uint_acc NilEmpty.string_of_uint decimal_value_from];
    [reflexivity | rewrite IH; f_equal ..];
    rewrite ?Pos2Z.inj_add, Pos2Z.inj_mul;
    match goal with
    | |- context [digit_value ?c] =>
        let v := eval vm_compute in (digit_value c) in
        change (digit_value c) with v
    end; lia.
Qed.

Lemma of_uint_value u :
  Z.of_N (Pos.of_uint u) = decimal_value_from 0 (NilEmpty.string_of_uint u).
Proof.
  induction u as [|u IH|u IH|u IH|u IH|u IH|u IH|u IH|u IH|u IH|u IH];
    cbn [Pos.of_uint NilEmpty.string_of_uint decimal_value_from Z.of_N];
    [reflexivity | exact IH | rewrite of_uint_acc_value; reflexivity ..].
Qed.

Lemma uint_of_string_value s u :
  NilEmpty.uint_of_string s = Some u ->
  Z.of_N (N.of_uint u) = decimal_value s.
Proof.
  intros H. apply NilEmpty.sus in H. subst s.
  unfold N.of_uint, decimal_value. apply of_uint_value.
Qed.

Lemma digit_run_digits s :
  Py.all_digits s = true -> Py.digit_run s = (s, "").
Proof.
  induction s as [|c r IH]; cbn [Py.all_digits Py.digit_run];
    [reflexivity|].
  intros H. apply andb_prop in H as [Hc Hr].
  now rewrite Hc, (IH Hr).
Qed.

(** [int] on a string of decimal digits gives the number the digits
    denote, unless the digits are more than the limit allows. *)
Lemma int_of_decimal s :
  Py.isdecimal s = true ->
  Py.int s
  = if (Py.int_max_str_digits <? Z.of_nat (String.length s))%Z
    then Raise (Py.int_limit_error (String.length s))
    else Ok (decimal_value s).
Proof.
  intros Hd. pose proof (isdecimal_all_digits s Hd) as Ha.
  unfold Py.int. rewrite (strip_digits s Ha).
  destruct s as [|c r]; [discriminate|].
  assert (Hc : Py.isdigit c = true) by (simpl in Ha; now apply andb_prop in Ha).
  destruct (isdigit_not_sign c Hc) as [Hm Hp].
  assert (Hbody :
    (match String c r with
     | String "-" r0 => (true, r0)
     | String "+" r0 => (false, r0)
     | _ => (false, String c r)
     end) = (false, String c r)).
  { clear - Hm Hp. each_char c; try reflexivity;
      [now destruct Hp | now destruct Hm]. }
  rewrite Hbody, (digit_run_digits _ Ha).
  rewrite (int_digits_of_digits (String c r) false Ha)
    by (left; discriminate).
  destruct (Py.int_max_str_digits <? _)%Z; [reflexivity|].
  destruct (uint_of_digits _ Ha) as [u Hu].
  unfold NilZero.uint_of_string. rewrite Hu.
  now rewrite (uint_of_string_value _ _ Hu).
Qed.

Lemma string_of_uint_digits u :
  Py.all_digits (NilEmpty.string_of_uint u) = true.
Proof. induction u; simpl; trivial. Qed.

Lemma pos_to_uint_nonnil p : Pos.to_uint p <> Nil.
Proof. apply DecimalPos.Unsigned.to_uint_nonnil. Qed.

Lemma string_of_uint_nonempty u : u <> Nil -> NilEmpty.string_of_uint u <> "".
Proof. destruct u; simpl; congruence. Qed.

Lemma numeral_nonneg i :
  (0 <= i)%Z ->
  Py.numeral i = NilEmpty.string_of_uint (N.to_uint (Z.to_N i))
  /\ N.to_uint (Z.to_N i) <> Nil.
Proof.
  intros Hi. destruct i as [|p|p]; [| |lia]; unfold Py.numeral; simpl.
  - split; [reflexivity | discriminate].
  - split; [|apply pos_to_uint_nonnil].
    destruct (Pos.to_uint p) eqn:E; try reflexivity.
    now destruct (pos_to_uint_nonnil p).
Qed.

Lemma numeral_isdecimal i :
  (0 <= i)%Z -> Py.isdecimal (Py.numeral i) = true.
Proof.
  intros Hi. destruct (numeral_nonneg i Hi) as [-> Hn].
  pose proof (string_of_uint_nonempty _ Hn) as Hne.
  pose proof (string_of_uint_digits (N.to_uint (Z.to_N i))) as Hd.
  destruct (NilEmpty.string_of_uint (N.to_uint (Z.to_N i)));
    [now destruct Hne | exact Hd].
Qed.

(** The numeral of a non-negative integer denotes it. *)
Lemma decimal_value_numeral i :
  (0 <= i)%Z -> decimal_value (Py.numeral i) = i.
Proof.
  intros Hi. destruct (numeral_nonneg i Hi) as [-> _].
  rewrite <- (uint_of_string_value _ (N.to_uint (Z.to_N i))).
  - rewrite DecimalN.Unsigned.of_to. lia.
  - apply NilEmpty.usu.
Qed.


Lemma unorm_string u :
  u <> Nil ->
  NilEmpty.string_of_uint (unorm u)
  = strip_leading_zeros (NilEmpty.string_of_uint u).
Proof.
  induction u as [|u IH|u IH|u IH|u IH|u IH|u IH|u IH|u IH|u IH|u IH];
    intros Hne; [now destruct Hne | | reflexivity ..].
  destruct u as [|u|u|u|u|u|u|u|u|u|u]; [reflexivity | | reflexivity ..].
  change (unorm (D0 (D0 u))) with (unorm (D0 u)).
  rewrite IH by discriminate. reflexivity.
Qed.

Lemma unorm_nonnil u : unorm u <> Nil.
Proof. unfold unorm. destruct (nzhead u); discriminate. Qed.

(** [str] of the value of a digit group is the group without its leading
    zeros. *)
Lemma numeral_decimal_value s :
  Py.isdecimal s = true ->
  Py.numeral (decimal_value s) = strip_leading_zeros s.
Proof.
  intros Hd. pose proof (isdecimal_all_digits s Hd) as Ha.
  destruct (uint_of_digits s Ha) as [u Hu].
  rewrite <- (uint_of_string_value s u Hu).
  pose proof (NilEmpty.sus s u Hu) as Hs.
  assert (Hne : u <> Nil) by (intros ->; subst s; discriminate).
  rewrite <- Hs, <- (unorm_string u Hne), <- DecimalN.Unsigned.to_of.
  unfold Py.numeral.
  destruct (N.of_uint u) as [|p] eqn:E; [reflexivity|].
  simpl. pose proof (pos_to_uint_nonnil p).
  now destruct (Pos.to_uint p).
Qed.

(** ** Splitting and joining *)

Lemma split_nonempty sep s : Py.split sep s <> [].
Proof.
  destruct s as [|c r]; simpl; [discriminate|].
  destruct (Ascii.eqb c sep); [discriminate|].
  destruct (Py.split sep r); discriminate.
Qed.

Lemma join_cons sep x y l :
  Py.join sep (x :: y :: l) = x ++ sep ++ Py.join sep (y :: l).
Proof. reflexivity. Qed.


Lemma split_no_sep sep s :
  Forall (fun seg => Py.contains_char sep seg = false) (Py.split sep s).
Proof.
  induction s as [|c r IH]; simpl; [repeat constructor|].
  pose proof (split_nonempty sep r) as Hne.
  destruct (Ascii.eqb_spec c sep) as [->|Hc].
  - constructor; [reflexivity | exact IH].
  - destruct (Py.split sep r) as [|h t]; [now destruct Hne|].
    inversion IH as [|? ? Hh Ht]; subst. constructor; [|exact Ht].
    simpl. rewrite Hh, orb_false_r. apply Ascii.eqb_neq. congruence.
Qed.

Lemma split_app_sep sep x r :
  Py.contains_char sep x = false ->
  Py.split sep (x ++ String sep r) = x :: Py.split sep r.
Proof.
  induction x as [|c x IH]; simpl; intros H.
  - now rewrite Ascii.eqb_refl.
  - apply orb_false_elim in H as [Hc Hx].
    rewrite Ascii.eqb_sym, Hc, (IH Hx). reflexivity.
Qed.

Lemma split_one sep x :
  Py.contains_char sep x = false -> Py.split sep x = [x].
Proof.
  induction x as [|c x IH]; simpl; intros H; [reflexivity|].
  apply orb_false_elim in H as [Hc Hx].
  rewrite Ascii.eqb_sym, Hc, (IH Hx). reflexivity.
Qed.

Lemma split_join sep segs :
  segs <> [] ->
  Forall (fun seg => Py.contains_char sep seg = false) segs ->
  Py.split sep (Py.join (String sep "") segs) = segs.
Proof.
  induction segs as [|x l IH]; intros Hne H; [now destruct Hne|].
  inversion H as [|? ? Hx Hl]; subst.
  destruct l as [|y l].
  - simpl. now apply split_one.
  - rewrite join_cons. change (String sep "" ++ ?r) with (String sep r).
    rewrite (split_app_sep sep x _ Hx), IH; [reflexivity | discriminate | exact Hl].
Qed.

Lemma digits_no_dot s :
  Py.all_digits s = true -> Py.contains_char "." s = false.
Proof.
  induction s as [|c r IH]; cbn [Py.contains_char Py.all_digits];
    intros H; [reflexivity|].
  apply andb_prop in H as [Hc Hr].
  rewrite (IH Hr), orb_false_r, Ascii.eqb_sym. now apply isdigit_not_dot.
Qed.

(** ** The version codec *)

Lemma digit_value_range c :
  Py.isdigit c = true -> (0 <= digit_value c <= 9)%Z.
Proof.
  intros H. apply isdigit_cases in H. simpl in H.
  repeat (destruct H as [<- | H]; [vm_compute; split; discriminate|]).
  destruct H.
Qed.

Lemma decimal_value_from_split acc s :
  decimal_value_from acc s
  = (acc * 10 ^ Z.of_nat (String.length s) + decimal_value s)%Z.
Proof.
  unfold decimal_value. revert acc.
  induction s as [|c r IH]; intros acc.
  - cbn [decimal_value_from String.length]. change (Z.of_nat 0) with 0%Z.
    rewrite Z.pow_0_r. lia.
  - cbn [decimal_value_from String.length].
    rewrite (IH (10 * acc + digit_value c)%Z), (IH (10 * 0 + digit_value c)%Z).
    rewrite Nat2Z.inj_succ, Z.pow_succ_r by lia. ring.
Qed.

(** A string of [n] digits denotes a number below [10 ^ n]. *)
Lemma decimal_value_bounds s :
  Py.all_digits s = true ->
  (0 <= decimal_value s < 10 ^ Z.of_nat (String.length s))%Z.
Proof.
  induction s as [|c r IH]; intros H.
  - vm_compute. split; [discriminate | reflexivity].
  - cbn [Py.all_digits] in H. apply andb_prop in H as [Hc Hr].
    specialize (IH Hr). pose proof (digit_value_range c Hc) as Hd.
    unfold decimal_value at 1 2. cbn [decimal_value_from String.length].
    rewrite decimal_value_from_split.
    rewrite Nat2Z.inj_succ, Z.pow_succ_r by lia.
    set (P := (10 ^ Z.of_nat (String.length r))%Z) in *. nia.
Qed.

Lemma decimal_value_nonneg s :
  Py.isdecimal s = true -> (0 <= decimal_value s)%Z.
Proof.
  intros H. now apply decimal_value_bounds, isdecimal_all_digits.
Qed.

Lemma strip_leading_zeros_other c r :
  c <> "0"%char -> strip_leading_zeros (String c r) = String c r.
Proof. intros Hc. each_char c; first [reflexivity | now destruct Hc]. Qed.

Lemma strip_leading_zeros_length s :
  (String.length (strip_leading_zeros s) <= String.length s)%nat.
Proof.
  induction s as [|c r IH]; [apply le_n|].
  destruct (Ascii.eqb_spec c "0") as [->|Hc].
  - destruct r as [|c' r']; [apply le_n|].
    change (strip_leading_zeros (String "0" (String c' r')))
      with (strip_leading_zeros (String c' r')).
    cbn [String.length] in *. lia.
  - rewrite (strip_leading_zeros_other c r Hc). apply le_n.
Qed.

(** A numeral of two digits or more that has no leading zero denotes a
    number of that many digits. *)
Lemma decimal_value_lower c r :
  Py.all_digits (String c r) = true -> r <> "" ->
  strip_leading_zeros (String c r) = String c r ->
  (10 ^ Z.of_nat (String.length r) <= decimal_value (String c r))%Z.
Proof.
  intros Ha Hr Hs.
  assert (Hc : c <> "0"%char).
  { intros ->. destruct r as [|c' r']; [now destruct Hr|].
    change (strip_leading_zeros (String "0" (String c' r')))
      with (strip_leading_zeros (String c' r')) in Hs.
    pose proof (strip_leading_zeros_length (String c' r')) as Hl.
    rewrite Hs in Hl. cbn [String.length] in Hl. lia. }
  cbn [Py.all_digits] in Ha. apply andb_prop in Ha as [Hd Hrd].
  assert (H1 : (1 <= digit_value c)%Z).
  { apply isdigit_cases in Hd. simpl in Hd.
    destruct Hd as [<- | Hd]; [now destruct Hc|].
    repeat (destruct Hd as [<- | Hd]; [vm_compute; discriminate|]).
    destruct Hd. }
  pose proof (decimal_value_bounds r Hrd) as Hb.
  unfold decimal_value at 1. cbn [decimal_value_from].
  rewrite decimal_value_from_split.
  set (P := (10 ^ Z.of_nat (String.length r))%Z) in *.
  assert (0 < P)%Z by (apply Z.pow_pos_nonneg; lia). nia.
Qed.

(** The numeral of a non-negative integer has at most [k] digits exactly
    when the integer is below [10 ^ k]. *)
Lemma numeral_length i k :
  (0 <= i)%Z -> (1 <= k)%Z ->
  (Z.of_nat (String.length (Py.numeral i)) <= k)%Z <-> (i < 10 ^ k)%Z.
Proof.
  intros Hi Hk.
  pose proof (numeral_isdecimal i Hi) as Hd.
  pose proof (isdecimal_all_digits _ Hd) as Ha.
  pose proof (decimal_value_numeral i Hi) as Hv.
  split.
  - intros Hl. pose proof (decimal_value_bounds _ Ha) as [_ Hb].
    rewrite Hv in Hb. eapply Z.lt_le_trans; [exact Hb|].
    apply Z.pow_le_mono_r; lia.
  - intros Hlt. apply Z.nlt_ge. intros Hl.
    pose proof (numeral_decimal_value _ Hd) as Hs. rewrite Hv in Hs.
    destruct (Py.numeral i) as [|c r] eqn:E; [discriminate|].
    assert (Hr : r <> "").
    { intros ->. cbn [String.length] in Hl. lia. }
    pose proof (decimal_value_lower c r Ha Hr (eq_sym Hs)) as Hlo.
    rewrite Hv in Hlo. cbn [String.length] in Hl.
    assert (10 ^ k <= 10 ^ Z.of_nat (String.length r))%Z
      by (apply Z.pow_le_mono_r; lia).
    lia.
Qed.

Lemma numeral_negative p :
  Py.numeral (Z.neg p) = String "-" (Py.numeral (Z.pos p)).
Proof.
  unfold Py.numeral. cbn [Z.to_int NilZero.string_of_int]. f_equal.
Qed.

Lemma numeral_no_sign i :
  (0 <= i)%Z -> Py.startswith "-" (Py.numeral i) = false.
Proof.
  intros Hi. pose proof (numeral_isdecimal i Hi) as Hd.
  destruct (Py.numeral i) as [|c r]; [reflexivity|].
  cbn [Py.isdecimal Py.all_digits] in Hd. apply andb_prop in Hd as [Hc _].
  cbn [Py.startswith]. destruct (Ascii.eqb_spec "-" c) as [<-|_];
    [discriminate Hc | reflexivity].
Qed.

(** The digits [str] counts: those of the numeral of the magnitude. *)
Lemma str_digits i :
  Py.str i
  = if (Py.int_max_str_digits
        <? Z.of_nat (String.length (Py.numeral (Z.abs i))))%Z
    then Raise Py.str_limit_error else Ok (Py.numeral i).
Proof.
  unfold Py.str. destruct i as [|p|p].
  - reflexivity.
  - now rewrite (numeral_no_sign (Z.pos p)).
  - rewrite numeral_negative. reflexivity.
Qed.

(** [str] returns for the integers of a magnitude below [10 ^ 4300], and
    for no other. *)
Lemma str_within i :
  (Z.abs i < 10 ^ Py.int_max_str_digits)%Z -> Py.str i = Ok (Py.numeral i).
Proof.
  intros H. rewrite str_digits.
  apply (numeral_length (Z.abs i) Py.int_max_str_digits) in H;
    [|apply Z.abs_nonneg | discriminate].
  now replace (_ <? _)%Z with false by (symmetry; apply Z.ltb_ge; exact H).
Qed.


Lemma within_limit_spec seg :
  within_limit seg = true
  <-> (Z.of_nat (String.length seg) <= Py.int_max_str_digits)%Z.
Proof. unfold within_limit. apply Z.leb_le. Qed.

Lemma int_within s :
  Py.isdecimal s = true -> within_limit s = true ->
  Py.int s = Ok (decimal_value s).
Proof.
  intros Hd Hw. rewrite (int_of_decimal s Hd).
  apply within_limit_spec in Hw.
  now replace (_ <? _)%Z with false by (symmetry; apply Z.ltb_ge; exact Hw).
Qed.

Lemma int_beyond s :
  Py.isdecimal s = true -> within_limit s = false ->
  Py.int s = Raise (Py.int_limit_error (String.length s)).
Proof.
  intros Hd Hw. rewrite (int_of_decimal s Hd).
  unfold within_limit in Hw. apply Z.leb_gt in Hw.
  now replace (_ <? _)%Z with true by (symmetry; apply Z.ltb_lt; exact Hw).
Qed.

(** The value of a decimal segment within the limit can be written. *)
Lemma decimal_value_within s :
  Py.isdecimal s = true -> within_limit s = true ->
  (0 <= decimal_value s < 10 ^ Py.int_max_str_digits)%Z.
Proof.
  intros Hd Hw. apply within_limit_spec in Hw.
  pose proof (decimal_value_bounds s (isdecimal_all_digits s Hd)) as [H0 H1].
  split; [exact H0|]. eapply Z.lt_le_trans; [exact H1|].
  apply Z.pow_le_mono_r; lia.
Qed.

Lemma numeral_within i :
  (0 <= i < 10 ^ Py.int_max_str_digits)%Z ->
  within_limit (Py.numeral i) = true.
Proof.
  intros [H0 H1]. apply within_limit_spec.
  apply (numeral_length i Py.int_max_str_digits); [exact H0 | discriminate|].
  exact H1.
Qed.

(** The parse, where every decimal segment is within the limit. *)
Lemma decimal_segments_within segs :
  Forall (fun seg => within_limit seg = true) (filter Py.isdecimal segs) ->
  decimal_segments segs = Ok (map decimal_value (filter Py.isdecimal segs)).
Proof.
  induction segs as [|s rest IH]; cbn [filter decimal_segments];
    [reflexivity|].
  destruct (Py.isdecimal s) eqn:Hd; [|exact IH].
  intros H. inversion H as [|? ? Hs Hrest]; subst.
  rewrite (int_within s Hd Hs), (IH Hrest). reflexivity.
Qed.

(** What the parse returned, and that it met no segment beyond the
    limit. *)
Lemma decimal_segments_returns segs v :
  decimal_segments segs = Ok v ->
  Forall (fun seg => within_limit seg = true) (filter Py.isdecimal segs)
  /\ v = map decimal_value (filter Py.isdecimal segs).
Proof.
  revert v. induction segs as [|s rest IH]; cbn [filter decimal_segments];
    intros v H.
  - injection H as <-. now split.
  - destruct (Py.isdecimal s) eqn:Hd; [|now apply IH].
    destruct (within_limit s) eqn:Hw.
    + rewrite (int_within s Hd Hw) in H. cbn [bind] in H.
      destruct (decimal_segments rest) as [tl|e]; [|discriminate H].
      injection H as <-. destruct (IH tl eq_refl) as [Hf ->].
      split; [now constructor | reflexivity].
    + rewrite (int_beyond s Hd Hw) in H. discriminate H.
Qed.


Lemma numerals_within v :
  Forall (fun i => Z.abs i < 10 ^ Py.int_max_str_digits)%Z v ->
  numerals v = Ok (map Py.numeral v).
Proof.
  induction 1 as [|i v Hi _ IH]; cbn [numerals map]; [reflexivity|].
  now rewrite (str_within i Hi), IH.
Qed.

Lemma numeral_no_dot i : Py.contains_char "." (Py.numeral i) = false.
Proof.
  destruct i as [|p|p].
  - reflexivity.
  - apply digits_no_dot, isdecimal_all_digits, numeral_isdecimal. lia.
  - rewrite numeral_negative. cbn [Py.contains_char].
    rewrite (digits_no_dot (Py.numeral (Z.pos p))); [reflexivity|].
    apply isdecimal_all_digits, numeral_isdecimal. lia.
Qed.

Lemma numeral_negative_not_decimal i :
  (i < 0)%Z -> Py.isdecimal (Py.numeral i) = false.
Proof.
  intros H. destruct i as [|p|p]; try lia. now rewrite numeral_negative.
Qed.

(** The parse of the numerals of any integers the limit allows: the
    integers that are not negative. *)
Lemma decimal_segments_numerals v :
  Forall (fun i => Z.abs i < 10 ^ Py.int_max_str_digits)%Z v ->
  decimal_segments (map Py.numeral v) = Ok (filter (fun i => 0 <=? i)%Z v).
Proof.
  induction 1 as [|i v Hi _ IH]; [reflexivity|].
  cbn [map decimal_segments filter].
  destruct (0 <=? i)%Z eqn:E.
  - apply Z.leb_le in E. rewrite (numeral_isdecimal i E).
    rewrite (int_within _ (numeral_isdecimal i E)).
    + rewrite (decimal_value_numeral i E), IH. reflexivity.
    + apply numeral_within. lia.
  - apply Z.leb_gt in E. now rewrite (numeral_negative_not_decimal i E).
Qed.

Lemma parse_format_any v :
  Forall (fun i => Z.abs i < 10 ^ Py.int_max_str_digits)%Z v ->
  exists t,
    vsn_to_semver v = Ok t
    /\ semver_to_vsn t = Ok (filter (fun i => 0 <=? i)%Z v).
Proof.
  intros Hv. unfold vsn_to_semver. rewrite (numerals_within v Hv).
  cbn [bind]. eexists. split; [reflexivity|]. unfold semver_to_vsn.
  destruct v as [|i v]; [reflexivity|].
  rewrite split_join.
  - now apply decimal_segments_numerals.
  - discriminate.
  - apply Forall_forall. intros seg Hin.
    apply in_map_iff in Hin as [j [<- _]]. apply numeral_no_dot.
Qed.

Lemma filter_nonneg_all v :
  Forall (fun i => 0 <= i)%Z v -> filter (fun i => 0 <=? i)%Z v = v.
Proof.
  induction 1 as [|i v Hi _ IH]; [reflexivity|]. cbn [filter].
  replace (0 <=? i)%Z with true by (symmetry; now apply Z.leb_le).
  now rewrite IH.
Qed.

Lemma parse_format_nonneg v :
  Forall (fun i => 0 <= i < 10 ^ Py.int_max_str_digits)%Z v ->
  exists t, vsn_to_semver v = Ok t /\ semver_to_vsn t = Ok v.
Proof.
  intros Hv.
  destruct (parse_format_any v) as (t & Ht & Hp).
  { eapply Forall_impl; [|exact Hv]. cbv beta. intros i Hi.
    rewrite Z.abs_eq; lia. }
  exists t. split; [exact Ht|]. rewrite Hp. f_equal.
  apply filter_nonneg_all. eapply Forall_impl; [|exact Hv].
  cbv beta. intros i Hi. lia.
Qed.

(** What the parse returns can be written: every integer of it is
    non-negative and below [10 ^ 4300]. *)
Lemma parse_values_within s v :
  semver_to_vsn s = Ok v ->
  Forall (fun i => 0 <= i < 10 ^ Py.int_max_str_digits)%Z v.
Proof.
  unfold semver_to_vsn. intros H.
  apply decimal_segments_returns in H as [Hw ->].
  apply Forall_forall. intros i Hin.
  apply in_map_iff in Hin as [seg [<- Hseg]].
  pose proof (proj1 (Forall_forall _ _) Hw seg Hseg) as Hs. cbv beta in Hs.
  apply filter_In in Hseg as [_ Hd]. now apply decimal_value_within.
Qed.

(** A small number is far below the limit. *)
Lemma small_within_limit i :
  (0 <= i < 1000)%Z -> (0 <= i < 10 ^ Py.int_max_str_digits)%Z.
Proof.
  intros [H0 H1]. split; [exact H0|].
  apply (Z.lt_le_trans _ (10 ^ 3)%Z); [exact H1|].
  apply Z.pow_le_mono_r; [lia | discriminate].
Qed.






(** ** The configuration path resolver *)

Lemma stache_not_tilde path :
  Py.startswith "{{" path = true -> Py.startswith "~" path = false.
Proof.
  destruct path as [|c r]; [discriminate|].
  cbn [Py.startswith]. destruct (Ascii.eqb_spec "{" c) as [<-|]; [|discriminate].
  reflexivity.
Qed.

(** The token branch of [resolve_conf_path], once the closing marker is
    found. *)
Lemma resolve_stache st path subend :
  Py.startswith "{{" path = true ->
  Py.find "}}" path = Some subend ->
  resolve_conf_path st path
  = (path' <- (repl <- dict_get (stache_map st) (token_of path subend) ;;
               c <- Py.first_char (tail_of path subend) ;;
               if Py.contains_char c _fspath_seps
               then Ok (repl ++ tail_of path subend)
               else Ok (PosixPath.join repl (tail_of path subend))) ;;
     Ok (PosixPath.abspath (Os.cwd (world st)) path')).
Proof.
  intros Hs Hf. unfold resolve_conf_path, Py.index.
  rewrite (stache_not_tilde path Hs), Hs, Hf. reflexivity.
Qed.

Lemma stache_map_unknown st key :
  ~ In key stache_keys -> dict_get (stache_map st) key = Raise (KeyError key).
Proof.
  intros Hk. unfold stache_map, stache_keys in *. cbn [dict_get].
  repeat match goal with
  | |- context [String.eqb ?k key] =>
      destruct (String.eqb_spec k key) as [E|_];
      [exfalso; apply Hk; rewrite <- E; simpl; tauto|]
  end.
  reflexivity.
Qed.

Lemma stache_map_known st key :
  In key stache_keys -> exists base, dict_get (stache_map st) key = Ok base.
Proof.
  unfold stache_keys. simpl.
  intros H. repeat (destruct H as [<- | H]; [eexists; reflexivity|]).
  destruct H.
Qed.

(** C5. A path that opens with the token marker, has a closing marker, and
    whose token, trimmed and lower-cased, is none of the seven keys makes
    [resolve_conf_path] raise the [KeyError] of the table lookup itself,
    with the token as its argument, whatever the debug flag is. *)
Theorem resolve_conf_path_unknown_token (st : State) (path : string)
  (subend : nat) :
  Py.startswith "{{" path = true ->
  Py.find "}}" path = Some subend ->
  ~ In (token_of path subend) stache_keys ->
  resolve_conf_path st path = Raise (KeyError (token_of path subend)).
Proof.
  intros Hs Hf Hk. rewrite (resolve_stache st path subend Hs Hf).
  now rewrite (stache_map_unknown st _ Hk).
Qed.

Lemma resolve_conf_path_unknown_token_witness :
  resolve_conf_path riak_state "{{bogus}}/x" = Raise (KeyError "bogus").
Proof.
  apply (resolve_conf_path_unknown_token riak_state "{{bogus}}/x" 7).
  - reflexivity.
  - reflexivity.
  - vm_compute. intros H.
    repeat (destruct H as [H | H]; [discriminate H|]). exact H.
Defined.

(** C10. A path that is a recognized token with nothing after the closing
    marker does not resolve to the base directory: reading the first
    character of the empty tail raises [IndexError]. *)
Theorem resolve_conf_path_empty_tail (st : State) (path : string)
  (subend : nat) :
  Py.startswith "{{" path = true ->
  Py.find "}}" path = Some subend ->
  In (token_of path subend) stache_keys ->
  tail_of path subend = "" ->
  resolve_conf_path st path = Raise (IndexError "string index out of range").
Proof.
  intros Hs Hf Hk Ht. rewrite (resolve_stache st path subend Hs Hf).
  destruct (stache_map_known st _ Hk) as [base ->].
  rewrite Ht. reflexivity.
Qed.

Lemma resolve_conf_path_empty_tail_witness :
  resolve_conf_path riak_state "{{log}}"
  = Raise (IndexError "string index out of range").
Proof.
  apply (resolve_conf_path_empty_tail riak_state "{{log}}" 5).
  - reflexivity.
  - reflexivity.
  - vm_compute. tauto.
  - reflexivity.
Defined.

(** ** Canonical paths *)

Lemma good_comp_inv c :
  good_comp c = true ->
  String.eqb c "" = false /\ String.eqb c "." = false
  /\ String.eqb c ".." = false /\ Py.contains_char "/" c = false.
Proof.
  unfold good_comp. intros H.
  repeat (apply andb_prop in H as [H ?]).
  repeat split; now apply negb_true_iff.
Qed.

Lemma good_comp_head c :
  good_comp c = true ->
  exists a r, c = String a r /\ Ascii.eqb "/" a = false.
Proof.
  intros H. apply good_comp_inv in H as (Hne & _ & _ & Hs).
  destruct c as [|a r]; [discriminate|].
  exists a, r. split; [reflexivity|].
  cbn [Py.contains_char] in Hs. now apply orb_false_elim in Hs as [Ha _].
Qed.

Lemma norm_comps_good k stack l :
  k <> 0%nat ->
  Forall (fun c => good_comp c = true) stack ->
  Forall (fun c => Py.contains_char "/" c = false) l ->
  Forall (fun c => good_comp c = true) (PosixPath.norm_comps k stack l).
Proof.
  intros Hk. revert stack.
  induction l as [|comp rest IH]; intros stack Hst Hl; [exact Hst|].
  inversion Hl as [|? ? Hc Hrest]; subst.
  cbn [PosixPath.norm_comps].
  destruct (String.eqb comp "") eqn:E1; [now apply IH|].
  destruct (String.eqb comp ".") eqn:E2; [now apply IH|].
  cbn [orb].
  destruct (String.eqb comp "..") eqn:E3; cbn [negb orb].
  - replace (Nat.eqb k 0) with false
      by (symmetry; now apply Nat.eqb_neq).
    cbn [andb orb].
    destruct stack as [|top below]; [now apply IH|].
    inversion Hst as [|? ? Htop Hbelow]; subst.
    apply good_comp_inv in Htop as (_ & _ & -> & _).
    now apply IH.
  - apply IH; [|exact Hrest]. constructor; [|exact Hst].
    unfold good_comp. now rewrite E1, E2, E3, Hc.
Qed.

Lemma norm_comps_push k stack l :
  Forall (fun c => good_comp c = true) l ->
  PosixPath.norm_comps k stack l = (List.rev l ++ stack)%list.
Proof.
  revert stack. induction l as [|comp rest IH]; intros stack Hl; [reflexivity|].
  inversion Hl as [|? ? Hc Hrest]; subst.
  apply good_comp_inv in Hc as (E1 & E2 & E3 & _).
  cbn [PosixPath.norm_comps]. rewrite E1, E2, E3. cbn [orb negb].
  rewrite (IH _ Hrest). cbn [List.rev]. now rewrite <- app_assoc.
Qed.

Lemma good_no_sep comps :
  Forall (fun c => good_comp c = true) comps ->
  Forall (fun c => Py.contains_char "/" c = false) comps.
Proof.
  apply Forall_impl. intros c H. now apply good_comp_inv in H.
Qed.

Lemma norm_comps_skip k stack l :
  PosixPath.norm_comps k stack ("" :: l) = PosixPath.norm_comps k stack l.
Proof. reflexivity. Qed.

(** A canonical form is left as it is by [normpath]. *)
Lemma normpath_canon k comps :
  k = 1%nat \/ k = 2%nat ->
  Forall (fun c => good_comp c = true) comps ->
  PosixPath.normpath (canon k comps) = canon k comps.
Proof.
  intros Hk Hg. destruct comps as [|c cs].
  - destruct Hk as [-> | ->]; reflexivity.
  - pose proof Hg as Hg'. inversion Hg' as [|? ? Hc _]; subst.
    destruct (good_comp_head c Hc) as (a & r & -> & Ha).
    assert (Hsplit :
      Py.split "/" (Py.join "/" (String a r :: cs)) = String a r :: cs).
    { apply split_join; [discriminate | now apply good_no_sep]. }
    assert (Hj : exists t, Py.join "/" (String a r :: cs) = String a t).
    { destruct cs; [now exists r|]. rewrite join_cons. eexists. reflexivity. }
    destruct Hj as [t Hj].
    unfold PosixPath.normpath, canon.
    destruct Hk as [-> | ->]; cbn [PosixPath.seps append];
      rewrite Hj; cbn [String.eqb Py.startswith];
      rewrite ?Ascii.eqb_refl, ?Ha; cbn [andb negb];
      rewrite <- Hj; cbn [Py.split]; rewrite ?Ascii.eqb_refl, Hsplit;
      rewrite !norm_comps_skip;
      rewrite (norm_comps_push _ [] _ Hg), app_nil_r, rev_involutive;
      rewrite Hj; reflexivity.
Qed.

(** [normpath] takes an absolute path to a canonical form. *)
Lemma normpath_abs_canon p :
  PosixPath.isabs p = true ->
  exists k comps,
    (k = 1%nat \/ k = 2%nat)
    /\ Forall (fun c => good_comp c = true) comps
    /\ PosixPath.normpath p = canon k comps.
Proof.
  intros Habs. unfold PosixPath.isabs in Habs.
  destruct p as [|c r]; [discriminate|].
  unfold PosixPath.normpath. cbn [String.eqb]. rewrite Habs.
  set (k := if Py.startswith "//" (String c r)
               && negb (Py.startswith "///" (String c r))
            then 2%nat else 1%nat).
  assert (Hk : k = 1%nat \/ k = 2%nat) by (unfold k; destruct (_ && _); auto).
  exists k, (List.rev (PosixPath.norm_comps k [] (Py.split "/" (String c r)))).
  split; [exact Hk|]. split.
  - apply Forall_rev, norm_comps_good.
    + destruct Hk as [-> | ->]; discriminate.
    + constructor.
    + apply split_no_sep.
  - unfold canon. destruct Hk as [-> | ->]; reflexivity.
Qed.

Lemma normpath_idempotent p :
  PosixPath.isabs p = true ->
  PosixPath.normpath (PosixPath.normpath p) = PosixPath.normpath p.
Proof.
  intros H. destruct (normpath_abs_canon p H) as (k & comps & Hk & Hg & ->).
  now apply normpath_canon.
Qed.

Lemma canon_isabs k comps :
  k = 1%nat \/ k = 2%nat -> PosixPath.isabs (canon k comps) = true.
Proof. intros [-> | ->]; reflexivity. Qed.

Lemma normpath_isabs p :
  PosixPath.isabs p = true -> PosixPath.isabs (PosixPath.normpath p) = true.
Proof.
  intros H. destruct (normpath_abs_canon p H) as (k & comps & Hk & _ & ->).
  now apply canon_isabs.
Qed.

Lemma join_isabs a b :
  PosixPath.isabs a = true -> PosixPath.isabs (PosixPath.join a b) = true.
Proof.
  unfold PosixPath.isabs, PosixPath.join. intros Ha.
  destruct (Py.startswith "/" b) eqn:Hb; [exact Hb|].
  destruct a as [|c r]; [discriminate|].
  destruct (_ || _); exact Ha.
Qed.

(** [abspath] gives a canonical absolute path, the working directory
    being absolute as [os.getcwd()] is. *)
Lemma abspath_canonical cwd p :
  PosixPath.isabs cwd = true -> canonical (PosixPath.abspath cwd p).
Proof.
  intros Hc. unfold canonical, PosixPath.abspath.
  assert (H : PosixPath.isabs
                (if PosixPath.isabs p then p else PosixPath.join cwd p) = true).
  { destruct (PosixPath.isabs p) eqn:Hp; [exact Hp | now apply join_isabs]. }
  split; [now apply normpath_isabs | now apply normpath_idempotent].
Qed.

Lemma abspath_of_canonical cwd p :
  canonical p -> PosixPath.abspath cwd p = p.
Proof. intros [Ha Hn]. unfold PosixPath.abspath. now rewrite Ha. Qed.

Lemma append_assoc_string (a b c : string) : (a ++ b) ++ c = a ++ b ++ c.
Proof. induction a as [|x a IH]; simpl; [reflexivity | now rewrite IH]. Qed.

Lemma join_app sep l1 l2 :
  l1 <> [] -> l2 <> [] ->
  Py.join sep (l1 ++ l2)%list = Py.join sep l1 ++ sep ++ Py.join sep l2.
Proof.
  intros H1 H2. induction l1 as [|x l IH]; [now destruct H1|].
  destruct l as [|y l].
  - destruct l2 as [|z l2]; [now destruct H2 | reflexivity].
  - change ((x :: y :: l) ++ l2)%list with (x :: y :: (l ++ l2))%list.
    rewrite !join_cons.
    change (y :: (l ++ l2))%list with ((y :: l) ++ l2)%list.
    rewrite IH by discriminate.
    now rewrite !append_assoc_string.
Qed.

(** A canonical path that is not a root stays canonical when names are
    put after it. *)
Lemma canonical_extend d comps :
  canonical d -> Py.endswith_char "/" d = false ->
  comps <> [] -> Forall (fun c => good_comp c = true) comps ->
  canonical (d ++ "/" ++ Py.join "/" comps).
Proof.
  intros [Ha Hn] He Hne Hg.
  destruct (normpath_abs_canon d Ha) as (k & cs & Hk & Hcs & Hd).
  rewrite Hn in Hd.
  assert (Hcsne : cs <> []).
  { intros ->. subst d. destruct Hk as [-> | ->]; discriminate He. }
  assert (Heq : d ++ "/" ++ Py.join "/" comps = canon k (cs ++ comps)%list).
  { unfold canon. rewrite (join_app _ _ _ Hcsne Hne), Hd. unfold canon.
    now rewrite append_assoc_string. }
  rewrite Heq. split.
  - now apply canon_isabs.
  - apply normpath_canon; [exact Hk | now apply Forall_app].
Qed.

(** ** Tokens and tails *)

Lemma startswith_app p s :
  Py.startswith p s = true -> s = p ++ Py.drop (String.length p) s.
Proof.
  revert s. induction p as [|a p IH]; intros s H; [reflexivity|].
  destruct s as [|b s]; [discriminate|].
  cbn [Py.startswith] in H. apply andb_prop in H as [Hab Hp].
  apply Ascii.eqb_eq in Hab as ->. simpl. f_equal. now apply IH.
Qed.

Lemma find_split sub s i :
  Py.find sub s = Some i ->
  s = Py.take i s ++ sub ++ Py.drop (i + String.length sub) s.
Proof.
  revert i. induction s as [|c r IH]; intros i H.
  - cbn [Py.find] in H. destruct (Py.startswith sub "") eqn:E; [|discriminate].
    injection H as <-. now apply startswith_app.
  - cbn [Py.find] in H. destruct (Py.startswith sub (String c r)) eqn:E.
    + injection H as <-. now apply startswith_app.
    + destruct (Py.find sub r) as [j|] eqn:Ej; [|discriminate].
      injection H as <-. simpl. f_equal. now apply IH.
Qed.

(** The token sits between the opening and the closing marker, and the
    tail is what comes after the closing marker. *)
Lemma markers_decompose path subend :
  Py.startswith "{{" path = true ->
  Py.find "}}" path = Some subend ->
  path = "{{" ++ Py.slice 2 subend path ++ "}}" ++ tail_of path subend.
Proof.
  intros Hs Hf.
  destruct path as [|a [|b rest]]; cbn [Py.startswith] in Hs;
    [discriminate Hs | rewrite andb_false_r in Hs; discriminate Hs |].
  apply andb_prop in Hs as [Ha Hs]. apply andb_prop in Hs as [Hb _].
  apply Ascii.eqb_eq in Ha as <-. apply Ascii.eqb_eq in Hb as <-.
  assert (E : Ascii.eqb "}" "{" = false) by reflexivity.
  cbn [Py.find Py.startswith] in Hf. rewrite E in Hf. cbn [andb] in Hf.
  destruct (Py.find "}}" rest) as [j|] eqn:Ej;
    cbn [option_map] in Hf; [|discriminate Hf].
  injection Hf as <-.
  pose proof (find_split _ _ _ Ej) as Hsplit.
  change (String.length "}}") with 2%nat in Hsplit.
  unfold tail_of, Py.slice.
  replace (S (S j) - 2)%nat with j by lia.
  replace (S (S j) + 2)%nat with (S (S (j + 2))) by lia.
  cbn [Py.drop append]. do 2 f_equal. exact Hsplit.
Qed.

(** ** The token branch on a tail that is not empty *)

Lemma sep_first c t :
  Py.contains_char c _fspath_seps = Py.startswith "/" (String c t).
Proof.
  unfold _fspath_seps. cbn [Py.contains_char Py.startswith].
  now rewrite orb_false_r, andb_true_r, Ascii.eqb_sym.
Qed.

Lemma resolve_stache_tail st path subend base :
  Py.startswith "{{" path = true ->
  Py.find "}}" path = Some subend ->
  dict_get (stache_map st) (token_of path subend) = Ok base ->
  tail_of path subend <> "" ->
  resolve_conf_path st path
  = Ok (PosixPath.abspath (Os.cwd (world st))
          (if Py.startswith "/" (tail_of path subend)
           then base ++ tail_of path subend
           else PosixPath.join base (tail_of path subend))).
Proof.
  intros Hs Hf Hb Ht. rewrite (resolve_stache st path subend Hs Hf), Hb.
  destruct (tail_of path subend) as [|c t] eqn:E; [now destruct Ht|].
  cbn [bind Py.first_char]. rewrite (sep_first c t).
  now destruct (Py.startswith "/" (String c t)).
Qed.

Lemma join_inserts_one base tail :
  Py.startswith "/" tail = false ->
  base <> "" -> Py.endswith_char "/" base = false ->
  PosixPath.join base tail = base ++ "/" ++ tail.
Proof.
  intros Ht Hb He. unfold PosixPath.join. rewrite Ht, He.
  destruct base; [now destruct Hb | reflexivity].
Qed.

Lemma join_inserts_none base tail :
  Py.startswith "/" tail = false ->
  base = "" \/ Py.endswith_char "/" base = true ->
  PosixPath.join base tail = base ++ tail.
Proof.
  intros Ht Hb. unfold PosixPath.join. rewrite Ht.
  destruct Hb as [-> | ->]; [reflexivity | now rewrite orb_true_r].
Qed.

Lemma resolve_log_example st :
  resolve_conf_path st "{{log}}/sub/file.log"
  = Ok (PosixPath.abspath (Os.cwd (world st)) (LOG_DIR st ++ "/sub/file.log")).
Proof. reflexivity. Qed.

(** C4, as amended. For a path that opens with the token marker, whose
    token is in the table and whose tail after the closing marker is not
    empty: the token is what stands between the markers, trimmed and
    lower-cased; a tail that starts with a separator is put directly after
    the base, any other tail is joined to it by [os.path.join], which puts
    exactly one separator between them when the base is not empty and does
    not end with one, and none otherwise; and the result is a canonical
    absolute path. In particular [{{log}}/sub/file.log] resolves to the
    canonical form of the log directory followed by [/sub/file.log], which
    is the log directory joined with [sub/file.log] when the log directory
    is a canonical absolute path that does not end with a separator. *)
Theorem resolve_conf_path_token (st : State) (path : string) (subend : nat)
  (base : string) :
  Py.startswith "{{" path = true ->
  Py.find "}}" path = Some subend ->
  dict_get (stache_map st) (Py.lower (Py.strip (Py.slice 2 subend path)))
  = Ok base ->
  tail_of path subend <> "" ->
  let tail := tail_of path subend in
  let cwd := Os.cwd (world st) in
  path = "{{" ++ Py.slice 2 subend path ++ "}}" ++ tail
  /\ resolve_conf_path st path
     = Ok (PosixPath.abspath cwd
             (if Py.startswith "/" tail then base ++ tail
              else PosixPath.join base tail))
  /\ (Py.startswith "/" tail = false ->
      base <> "" -> Py.endswith_char "/" base = false ->
      PosixPath.join base tail = base ++ "/" ++ tail)
  /\ (Py.startswith "/" tail = false ->
      base = "" \/ Py.endswith_char "/" base = true ->
      PosixPath.join base tail = base ++ tail)
  /\ (PosixPath.isabs cwd = true ->
      exists r, resolve_conf_path st path = Ok r /\ canonical r)
  /\ resolve_conf_path st "{{log}}/sub/file.log"
     = Ok (PosixPath.abspath cwd (LOG_DIR st ++ "/sub/file.log"))
  /\ (canonical (LOG_DIR st) ->
      Py.endswith_char "/" (LOG_DIR st) = false ->
      resolve_conf_path st "{{log}}/sub/file.log"
      = Ok (PosixPath.join (LOG_DIR st) "sub/file.log")).
Proof.
  intros Hs Hf Hb Ht tail cwd.
  pose proof (resolve_stache_tail st path subend base Hs Hf Hb Ht) as Hr.
  fold tail cwd in Hr.
  split; [now apply markers_decompose|].
  split; [exact Hr|].
  split; [apply join_inserts_one|].
  split; [apply join_inserts_none|].
  split; [intros Hc; eexists; split; [exact Hr | now apply abspath_canonical]|].
  split; [apply resolve_log_example|].
  intros Hcan He. rewrite resolve_log_example.
  assert (Hne : LOG_DIR st <> "").
  { destruct Hcan as [Ha _]. intros E. rewrite E in Ha. discriminate Ha. }
  rewrite (join_inserts_one (LOG_DIR st) "sub/file.log" eq_refl Hne He).
  f_equal. apply abspath_of_canonical.
  apply (canonical_extend (LOG_DIR st) ["sub"; "file.log"] Hcan He);
    [discriminate | repeat constructor].
Qed.

Lemma resolve_conf_path_token_witness :
  resolve_conf_path riak_state "{{ LOG }}sub/file.log"
  = Ok "/opt/riak/log/sub/file.log"
  /\ resolve_conf_path riak_state "{{log}}/sub/file.log"
     = Ok (PosixPath.join (LOG_DIR riak_state) "sub/file.log").
Proof.
  assert (Hne : tail_of "{{ LOG }}sub/file.log" 7 <> "") by discriminate.
  pose proof (resolve_conf_path_token riak_state "{{ LOG }}sub/file.log" 7
                "/opt/riak/log" eq_refl eq_refl eq_refl Hne)
    as (_ & Hr & _ & _ & _ & _ & Hlog).
  split; [exact Hr|].
  apply Hlog; [split; reflexivity | reflexivity].
Defined.

(** C4, as the specification words it, fails: with the release root [/]
    the join rule puts no separator between [/] and [etc/riak.conf]; with
    the log directory [/] the example resolves to [//sub/file.log], not to
    [/] joined with [sub/file.log]; and a token with no tail raises. *)
Lemma resolve_conf_path_not_as_specified :
  ~ resolves_as_specified root_state "{{rel}}etc/riak.conf"
  /\ resolve_conf_path root_log_state "{{log}}/sub/file.log"
     <> Ok (PosixPath.join (LOG_DIR root_log_state) "sub/file.log")
  /\ ~ resolves_as_specified riak_state "{{log}}".
Proof.
  split; [|split].
  - intros H. specialize (H 5%nat "/" eq_refl eq_refl eq_refl).
    vm_compute in H. discriminate H.
  - vm_compute. discriminate.
  - intros H. specialize (H 5%nat "/opt/riak/log" eq_refl eq_refl eq_refl).
    vm_compute in H. discriminate H.
Qed.

(** ** The validators *)

Lemma access_W_OK f path n :
  f path = Some n -> Os.access f path Os.W_OK = Os.may_write n.
Proof.
  intros H. unfold Os.access. rewrite H.
  change (Z.testbit Os.W_OK 2) with false.
  change (Z.testbit Os.W_OK 1) with true.
  change (Z.testbit Os.W_OK 0) with false.
  cbn [negb orb andb]. now rewrite andb_true_r.
Qed.

(** C6. [ReadableAbsDir] gives back, unchanged, a path that is a directory
    the process may write to; a path that is not a directory, a plain file
    too, fails with the parameter value error [not a directory: 'path']
    ([ParamValueError] with debug on, [ValueError] with debug off); and for
    a directory it is the write access alone that decides, whatever the
    read access is. *)
Theorem ReadableAbsDir_spec (st : State) (path : string) :
  let f := Os.fs (world st) in
  (Os.isdir f path = true -> Os.access f path Os.W_OK = true ->
   ReadableAbsDir st path = Ok path)
  /\ (Os.isdir f path = false ->
      ReadableAbsDir st path
      = Raise (if debug st
               then ParamValueError ("not a directory: '" ++ path ++ "'")
               else ValueError ("not a directory: '" ++ path ++ "'"))
      /\ forall e, ReadableAbsDir st path = Raise e -> is_value_error e = true)
  /\ (forall n, f path = Some n -> Os.is_dir n = true ->
      (ReadableAbsDir st path = Ok path <-> Os.may_write n = true)).
Proof.
  intros f. unfold ReadableAbsDir. fold f. split; [|split].
  - intros -> ->. reflexivity.
  - intros ->. cbn [negb]. unfold raise_param_error. split; [reflexivity|].
    intros e [= <-]. now destruct (debug st).
  - intros n Hn Hd. rewrite (access_W_OK f path n Hn).
    unfold Os.isdir. rewrite Hn, Hd. cbn [negb].
    destruct (Os.may_write n); cbn [negb]; split; intros H;
      try reflexivity; discriminate H.
Qed.

Lemma ReadableAbsDir_spec_witness :
  ReadableAbsDir riak_state "/opt/riak/bin" = Ok "/opt/riak/bin"
  /\ ReadableAbsDir riak_state "/opt/riak/etc/riak.conf"
     = Raise (ValueError "not a directory: '/opt/riak/etc/riak.conf'")
  /\ ReadableAbsDir riak_state "/opt/riak/lib" <> Ok "/opt/riak/lib".
Proof.
  split; [|split].
  - apply (proj1 (ReadableAbsDir_spec riak_state "/opt/riak/bin"));
      reflexivity.
  - apply (proj1 (proj2 (ReadableAbsDir_spec riak_state
                           "/opt/riak/etc/riak.conf"))).
    reflexivity.
  - intros H.
    apply (proj2 (proj2 (ReadableAbsDir_spec riak_state "/opt/riak/lib"))
             (entry Os.Dir 12 true false true) eq_refl eq_refl) in H.
    discriminate H.
Defined.

(** ** The debug flag *)

Lemma generic_message e : message (generic e) = message e.
Proof. now destruct e. Qed.

Lemma collapse_ok {A : Type} (r : result A) a : collapse r = Ok a <-> r = Ok a.
Proof. destruct r; simpl; split; congruence. Qed.

Lemma raise_param_error_debug {A : Type} st msg bad_type :
  @raise_param_error A (with_debug false st) msg bad_type
  = collapse (@raise_param_error A (with_debug true st) msg bad_type).
Proof. unfold raise_param_error. simpl. now destruct bad_type. Qed.

Ltac split_tests :=
  repeat match goal with
  | |- context [if ?b then _ else _] => destruct b eqn:?
  end.

Lemma PossibleFile_debug st path :
  PossibleFile (with_debug false st) path
  = collapse (PossibleFile (with_debug true st) path).
Proof.
  unfold PossibleFile, abs_expanded, raise_param_error. simpl.
  split_tests; reflexivity.
Qed.

Lemma ReadableAbsDir_debug st path :
  ReadableAbsDir (with_debug false st) path
  = collapse (ReadableAbsDir (with_debug true st) path).
Proof.
  unfold ReadableAbsDir, raise_param_error. simpl. split_tests; reflexivity.
Qed.

Lemma ReadableAbsFile_debug st path :
  ReadableAbsFile (with_debug false st) path
  = collapse (ReadableAbsFile (with_debug true st) path).
Proof.
  unfold ReadableAbsFile, raise_param_error. simpl. split_tests; reflexivity.
Qed.

Lemma read_text_raises w p e : Os.read_text w p = Raise e -> e = OSError p.
Proof.
  unfold Os.read_text. destruct (Os.fs w p) as [n|]; [|now intros [= <-]].
  destruct (negb (Os.is_dir n) && Os.may_read n); [|now intros [= <-]].
  destruct (Os.st_kind n) as [| |d]; try discriminate.
  destruct (Os.dev_read d); [discriminate | now intros [= <-]].
Qed.

Lemma NamesListOrFile_debug st param :
  NamesListOrFile (with_debug false st) param
  = collapse (NamesListOrFile (with_debug true st) param).
Proof.
  unfold NamesListOrFile. destruct (Py.startswith "@" param); [|reflexivity].
  unfold ReadableFile. rewrite ReadableAbsFile_debug.
  change (abs_expanded (with_debug false st)) with (abs_expanded (with_debug true st)).
  destruct (ReadableAbsFile (with_debug true st) _) as [p|e];
    [|reflexivity].
  cbn [collapse bind]. unfold read_file. simpl.
  destruct (Os.read_text (world st) p) as [c|e] eqn:E; [reflexivity|].
  cbn [bind collapse]. f_equal.
  now apply read_text_raises in E as ->.
Qed.

Lemma resolve_conf_path_debug b st p :
  resolve_conf_path (with_debug b st) p = resolve_conf_path st p.
Proof. reflexivity. Qed.

Lemma dict_get_plain {V : Type} (d : list (string * V)) key e :
  dict_get d key = Raise e -> generic e = e.
Proof.
  induction d as [|[k v] d IH]; simpl.
  - now intros [= <-].
  - destruct (String.eqb k key); [discriminate | exact IH].
Qed.

Lemma resolve_conf_path_plain st p e :
  resolve_conf_path st p = Raise e -> generic e = e.
Proof.
  unfold resolve_conf_path, Py.index, Py.first_char.
  destruct (Py.startswith "~" p); [discriminate|].
  destruct (Py.startswith "{{" p); [|discriminate].
  destruct (Py.find "}}" p) as [i|]; cbn [bind]; [|now intros [= <-]].
  destruct (dict_get (stache_map st) _) as [repl|e'] eqn:E; cbn [bind].
  - destruct (Py.drop (i + 2) p) as [|c t]; cbn [bind]; [now intros [= <-]|].
    destruct (Py.contains_char c _fspath_seps); discriminate.
  - intros [= <-]. now apply dict_get_plain in E.
Qed.

Lemma enter_at w p n : Os.enter w p n p = Some n.
Proof. unfold Os.enter. now rewrite String.eqb_refl. Qed.

(** A new entry takes the place of none that was there. *)
Lemma enter_keeps w p n q m :
  Os.fs w p = None -> Os.fs w q = Some m -> Os.enter w p n q = Some m.
Proof.
  unfold Os.enter. intros Hp Hq.
  destruct (String.eqb_spec q p) as [->|_]; [congruence|]. now rewrite Hq.
Qed.

Lemma create_in_ok dir w p k perm w' :
  Os.create_in dir w p k perm = Ok w' ->
  takes_entry dir = true
  /\ exists dev, w' = Os.with_entry w p (Os.fresh w k perm dev).
Proof.
  unfold Os.create_in, takes_entry. destruct dir as [d|]; [|discriminate].
  destruct (Os.is_dir d && Os.may_write d && Os.may_search d);
    [|discriminate].
  intros [= <-]. split; [reflexivity|]. now exists (Os.st_dev d).
Qed.

Lemma create_in_takes dir w p k perm :
  takes_entry dir = true ->
  exists dev,
    Os.create_in dir w p k perm
    = Ok (Os.with_entry w p (Os.fresh w k perm dev)).
Proof.
  unfold Os.create_in, takes_entry. destruct dir as [d|]; [|discriminate].
  intros ->. now exists (Os.st_dev d).
Qed.

Lemma takes_entry_isdir f p :
  takes_entry (f p) = true -> Os.isdir f p = true.
Proof.
  unfold takes_entry, Os.isdir. destruct (f p) as [d|]; [|discriminate].
  now destruct (Os.is_dir d).
Qed.

(** The errors of the file system are [OSError]s of the path. *)
Lemma create_in_raises dir w p k perm e :
  Os.create_in dir w p k perm = Raise e -> e = OSError p.
Proof.
  unfold Os.create_in. destruct dir as [d|];
    [destruct (Os.is_dir d && Os.may_write d && Os.may_search d)|];
    try discriminate; now intros [= <-].
Qed.

Lemma mkdir_raises w p e : Os.mkdir w p = Raise e -> e = OSError p.
Proof.
  unfold Os.mkdir, Os.create. destruct (Os.fs w p); [now intros [= <-]|].
  destruct (Os.vacant w p); try (now intros [= <-]).
  destruct (String.eqb p ""); [now intros [= <-]|].
  apply create_in_raises.
Qed.

Lemma make_file_raises w p e : Os.make_file w p = Raise e -> e = OSError p.
Proof.
  unfold Os.make_file, Os.create.
  destruct (Os.file_name p); [|now intros [= <-]].
  destruct (Os.vacant w p); try (now intros [= <-]);
    apply create_in_raises.
Qed.

(** A file that [open] makes is a new entry at its name. *)
Lemma make_file_ok w p w' :
  Os.make_file w p = Ok w' ->
  exists dev, w' = Os.with_entry w p (Os.fresh w Os.Reg 438 dev).
Proof.
  unfold Os.make_file, Os.create.
  destruct (Os.file_name p); [|discriminate].
  intros H. destruct (Os.vacant w p); try discriminate H;
    apply create_in_ok in H as (_ & dev & ->); eauto.
Qed.

Lemma open_append_raises w p e :
  Os.open_append w p = Raise e -> e = OSError p.
Proof.
  unfold Os.open_append.
  destruct (Os.fs w p) as [n|]; [|apply make_file_raises].
  destruct (negb (Os.is_dir n) && Os.may_write n); [discriminate|].
  now intros [= <-].
Qed.

Lemma mkdir_plain w p e : Os.mkdir w p = Raise e -> generic e = e.
Proof. intros H. now apply mkdir_raises in H as ->. Qed.

Lemma open_append_plain w p e : Os.open_append w p = Raise e -> generic e = e.
Proof. intros H. now apply open_append_raises in H as ->. Qed.

Lemma world_with_debug b st : world (with_debug b st) = world st.
Proof. reflexivity. Qed.

Lemma logging_with_debug b st : logging (with_debug b st) = logging st.
Proof. reflexivity. Qed.

Lemma PROG_NAME_with_debug b st : PROG_NAME (with_debug b st) = PROG_NAME st.
Proof. reflexivity. Qed.

Lemma debug_with_debug b st : debug (with_debug b st) = b.
Proof. reflexivity. Qed.

Lemma set_world_with_debug b w st :
  set_world w (with_debug b st) = with_debug b (set_world w st).
Proof. reflexivity. Qed.

Ltac debug_projections :=
  repeat rewrite set_world_with_debug; repeat rewrite world_with_debug;
  repeat rewrite logging_with_debug; repeat rewrite PROG_NAME_with_debug;
  repeat rewrite debug_with_debug.

Ltac finish_open_debug s :=
  cbv beta iota; debug_projections;
  match goal with |- context [Os.access ?f ?p ?m] =>
    destruct (Os.access f p m) end; cbn [negb]; [|reflexivity];
  destruct (Logging.root_handlers (logging s)); [|reflexivity];
  match goal with |- context [Os.open_append ?a ?p] =>
    let E := fresh "E" in
    destruct (Os.open_append a p) eqn:E; [reflexivity|];
    cbn [fst snd collapse]; now rewrite (open_append_plain _ _ _ E)
  end.

Lemma init_log_open_debug st d logname loglevel :
  init_log_open d logname loglevel (with_debug false st)
  = (collapse (fst (init_log_open d logname loglevel (with_debug true st))),
     with_debug false (snd (init_log_open d logname loglevel (with_debug true st)))).
Proof.
  unfold init_log_open, mbind, lift, os_mkdir, basicConfig, raise_param_error.
  debug_projections.
  destruct (Os.isdir (Os.fs (world st)) d); cbn [negb];
    [finish_open_debug st|].
  destruct (Os.exists_ (Os.fs (world st)) d); [reflexivity|].
  destruct (Os.mkdir (world st) d) as [w|e] eqn:E.
  - change (logging st) with (logging (set_world w st)).
    finish_open_debug (set_world w st).
  - cbn [fst snd collapse]. now rewrite (mkdir_plain _ _ _ E).
Qed.

Lemma init_log_debug st level logdir logname :
  init_log level logdir logname (with_debug false st)
  = (collapse (fst (init_log level logdir logname (with_debug true st))),
     with_debug false (snd (init_log level logdir logname (with_debug true st)))).
Proof.
  unfold init_log, mbind, lift.
  destruct (dict_get LOG_LEVELS (Py.upper level)) as [loglevel|e] eqn:E;
    [|cbn [fst snd collapse]; now rewrite (dict_get_plain _ _ _ E)].
  destruct (loglevel <? 0)%Z; [reflexivity|].
  unfold init_log_dir, mbind, lift, modify, ret.
  destruct (truthy logdir).
  - rewrite !resolve_conf_path_debug.
    destruct (resolve_conf_path st (str_of logdir)) as [d|e] eqn:Er;
      [|cbn [fst snd collapse]; now rewrite (resolve_conf_path_plain _ _ _ Er)].
    change (set_LOG_DIR d (with_debug false st))
      with (with_debug false (set_LOG_DIR d st)).
    change (set_LOG_DIR d (with_debug true st))
      with (with_debug true (set_LOG_DIR d st)).
    apply init_log_open_debug.
  - apply init_log_open_debug.
Qed.

Lemma ReadableDir_debug st path :
  ReadableDir (with_debug false st) path
  = collapse (ReadableDir (with_debug true st) path).
Proof. apply ReadableAbsDir_debug. Qed.

Lemma ReadableFile_debug st path :
  ReadableFile (with_debug false st) path
  = collapse (ReadableFile (with_debug true st) path).
Proof. apply ReadableAbsFile_debug. Qed.

(** C9. The debug flag decides the class of a parameter error and nothing
    else: [raise_param_error] raises [ParamTypeError] or [ParamValueError]
    with debug on and [TypeError] or [ValueError] with debug off, with the
    message it was given; and every validator, and [init_log], run with
    debug off gives what it gives with debug on, the class of a parameter
    error collapsed to the built-in one: it fails on the same inputs, with
    the same message, and returns the same value where it does not fail. *)
Theorem debug_changes_kind_only (st : State) (msg : string) (bad_type : bool)
  (path level : string) (logdir logname : option string) :
  @raise_param_error unit (with_debug true st) msg bad_type
  = Raise (if bad_type then ParamTypeError msg else ParamValueError msg)
  /\ @raise_param_error unit (with_debug false st) msg bad_type
     = Raise (if bad_type then TypeError msg else ValueError msg)
  /\ (forall e, message (generic e) = message e)
  /\ (forall (r : result string) a, collapse r = Ok a <-> r = Ok a)
  /\ PossibleFile (with_debug false st) path
     = collapse (PossibleFile (with_debug true st) path)
  /\ ReadableAbsDir (with_debug false st) path
     = collapse (ReadableAbsDir (with_debug true st) path)
  /\ ReadableAbsFile (with_debug false st) path
     = collapse (ReadableAbsFile (with_debug true st) path)
  /\ ReadableDir (with_debug false st) path
     = collapse (ReadableDir (with_debug true st) path)
  /\ ReadableFile (with_debug false st) path
     = collapse (ReadableFile (with_debug true st) path)
  /\ NamesListOrFile (with_debug false st) path
     = collapse (NamesListOrFile (with_debug true st) path)
  /\ fst (init_log level logdir logname (with_debug false st))
     = collapse (fst (init_log level logdir logname (with_debug true st))).
Proof.
  split; [reflexivity|]. split; [reflexivity|].
  split; [apply generic_message|].
  split; [apply collapse_ok|].
  split; [apply PossibleFile_debug|].
  split; [apply ReadableAbsDir_debug|].
  split; [apply ReadableAbsFile_debug|].
  split; [apply ReadableDir_debug|].
  split; [apply ReadableFile_debug|].
  split; [apply NamesListOrFile_debug|].
  now rewrite init_log_debug.
Qed.

(** ** Logging initialisation *)

(** C1. What [init_log] does for a level that reads [NONE] in upper case:
    it returns at once and leaves the file system and the log directory
    alone, but the threshold it gives [logging.disable] is
    [(2 ^ 31) - 1] with Python's [^], exclusive or, which is 28: records
    of a severity above 28 are not disabled, so WARNING, ERROR and
    CRITICAL records still pass a root logger at its default level. *)
Theorem init_log_none_threshold (st : State) (level : string)
  (logdir logname : option string) :
  Py.upper level = "NONE" ->
  let st' := after (init_log level logdir logname) st in
  fst (init_log level logdir logname st) = Ok tt
  /\ world st' = world st
  /\ LOG_DIR st' = LOG_DIR st
  /\ Logging.manager_disable (logging st') = 28%Z
  /\ (forall sev,
        Logging.isEnabledFor (logging st') sev = true
        <-> (28 < sev /\ Logging.root_level (logging st) <= sev)%Z)
  /\ (Logging.root_level (logging st) = Logging.WARNING ->
      Logging.isEnabledFor (logging st') Logging.CRITICAL = true
      /\ Logging.isEnabledFor (logging st') Logging.ERROR = true
      /\ Logging.isEnabledFor (logging st') Logging.WARNING = true).
Proof.
  intros Hl st'.
  assert (Hrun : init_log level logdir logname st
                 = (Ok tt, set_logging (Logging.disable 28 (logging st)) st)).
  { unfold init_log, mbind, lift. rewrite Hl. reflexivity. }
  unfold st', after. rewrite Hrun. cbn [fst snd].
  split; [reflexivity|]. split; [reflexivity|]. split; [reflexivity|].
  split; [reflexivity|]. split.
  - intros sev. unfold Logging.isEnabledFor.
    cbn [logging set_logging Logging.disable Logging.manager_disable
           Logging.root_level].
    destruct (28 >=? sev)%Z eqn:E1; [split; [discriminate | lia]|].
    destruct (sev >=? Logging.root_level (logging st))%Z eqn:E2;
      split; try discriminate; try reflexivity; lia.
  - intros Hw. unfold Logging.isEnabledFor.
    cbn [logging set_logging Logging.disable Logging.manager_disable
           Logging.root_level].
    rewrite Hw. repeat split; reflexivity.
Qed.

Lemma init_log_none_threshold_witness :
  fst (init_log "none" (Some "/var/log/riak") None riak_state) = Ok tt
  /\ Logging.isEnabledFor
       (logging (after (init_log "none" (Some "/var/log/riak") None)
                   riak_state))
       Logging.CRITICAL = true.
Proof.
  pose proof (init_log_none_threshold riak_state "none"
                (Some "/var/log/riak") None eq_refl)
    as (Hr & _ & _ & _ & _ & Hc).
  split; [exact Hr | exact (proj1 (Hc eq_refl))].
Defined.

Lemma set_LOG_DIR_same st : set_LOG_DIR (LOG_DIR st) st = st.
Proof. now destruct st. Qed.

Lemma same_globals_refl st : same_globals st st.
Proof. repeat split. Qed.

(** What comes after the choice of the directory changes the file system
    and the logging backend only. *)
Ltac frame_done :=
  cbv beta iota zeta; cbn [snd]; split; [repeat split | reflexivity].

Ltac finish_open_frame :=
  cbv beta iota zeta;
  match goal with |- context [Os.access ?f ?p ?m] =>
    destruct (Os.access f p m) end; cbn [negb]; [|frame_done];
  match goal with |- context [Logging.root_handlers ?l] =>
    destruct (Logging.root_handlers l) end; [|frame_done];
  match goal with |- context [Os.open_append ?a ?p] =>
    destruct (Os.open_append a p) end; frame_done.

Lemma init_log_open_frame d logname loglevel st :
  let st' := snd (init_log_open d logname loglevel st) in
  same_globals st st' /\ LOG_DIR st' = LOG_DIR st.
Proof.
  unfold init_log_open, mbind, lift, os_mkdir, basicConfig, raise_param_error.
  destruct (Os.isdir (Os.fs (world st)) d); cbn [negb];
    [finish_open_frame|].
  destruct (Os.exists_ (Os.fs (world st)) d); [frame_done|].
  destruct (Os.mkdir (world st) d) as [w|e]; [finish_open_frame | frame_done].
Qed.

Lemma init_log_frame level logdir logname st :
  same_globals st (after (init_log level logdir logname) st).
Proof.
  unfold after, init_log, mbind, lift.
  destruct (dict_get LOG_LEVELS (Py.upper level)) as [loglevel|e];
    [|apply same_globals_refl].
  destruct (loglevel <? 0)%Z; [repeat split|].
  unfold init_log_dir, mbind, lift, modify, ret.
  destruct (truthy logdir).
  - destruct (resolve_conf_path st (str_of logdir)) as [d|e];
      [|apply same_globals_refl].
    apply (init_log_open_frame d logname loglevel (set_LOG_DIR d st)).
  - apply (init_log_open_frame (LOG_DIR st) logname loglevel st).
Qed.

Lemma init_log_with_dir st level logdir logname loglevel d :
  dict_get LOG_LEVELS (Py.upper level) = Ok loglevel -> (0 <= loglevel)%Z ->
  logdir <> "" ->
  resolve_conf_path st logdir = Ok d ->
  init_log level (Some logdir) logname st
  = init_log_open d logname loglevel (set_LOG_DIR d st).
Proof.
  intros Hl Hpos Hne Hr. unfold init_log, mbind at 1, lift at 1. rewrite Hl.
  replace (loglevel <? 0)%Z with false by (symmetry; apply Z.ltb_ge; lia).
  unfold init_log_dir. destruct logdir as [|c r]; [now destruct Hne|].
  cbn [truthy str_of]. unfold mbind, lift, modify, ret. now rewrite Hr.
Qed.

Lemma init_log_without_dir st level logname loglevel :
  dict_get LOG_LEVELS (Py.upper level) = Ok loglevel -> (0 <= loglevel)%Z ->
  init_log level None logname st
  = init_log_open (LOG_DIR st) logname loglevel st.
Proof.
  intros Hl Hpos. unfold init_log, mbind at 1, lift at 1. rewrite Hl.
  replace (loglevel <? 0)%Z with false by (symmetry; apply Z.ltb_ge; lia).
  reflexivity.
Qed.

Lemma normpath_nonempty p : PosixPath.normpath p <> "".
Proof.
  unfold PosixPath.normpath. destruct (String.eqb p ""); [discriminate|].
  match goal with |- context [String.eqb ?j ""] =>
    destruct (String.eqb_spec j "") as [_|Hj] end; [discriminate | exact Hj].
Qed.

Lemma resolve_conf_path_abspath st p d :
  resolve_conf_path st p = Ok d ->
  exists x, d = PosixPath.abspath (Os.cwd (world st)) x.
Proof.
  unfold resolve_conf_path.
  match goal with |- bind ?r _ = _ -> _ => destruct r as [x|e] end;
    cbn [bind]; [|discriminate].
  intros [= <-]. now exists x.
Qed.

Lemma canonical_resolves st d :
  canonical d -> resolve_conf_path st d = Ok d.
Proof.
  intros Hc. pose proof Hc as [Ha _]. unfold PosixPath.isabs in Ha.
  destruct d as [|c r]; [discriminate|].
  cbn [Py.startswith] in Ha. apply andb_prop in Ha as [Hc' _].
  apply Ascii.eqb_eq in Hc' as <-.
  unfold resolve_conf_path.
  change (Py.startswith "~" (String "/" r)) with false.
  change (Py.startswith "{{" (String "/" r)) with false.
  cbn [bind]. now rewrite (abspath_of_canonical _ _ Hc).
Qed.

(** What [os.mkdir] leaves where it returns: the name was free, in a
    directory that takes an entry; it is a directory now, and every
    entry that was there is as it was. *)
Lemma mkdir_makes_dir w d w' :
  Os.mkdir w d = Ok w' ->
  Os.isdir (Os.fs w') d = true
  /\ (forall q m, Os.fs w q = Some m -> Os.fs w' q = Some m)
  /\ Os.isdir (Os.fs w) (Os.parent d) = true
  /\ Os.fs w d = None /\ Os.vacant w d = Os.Free.
Proof.
  unfold Os.mkdir, Os.create.
  destruct (Os.fs w d) eqn:Hd; [discriminate|].
  destruct (Os.vacant w d); try discriminate.
  destruct (String.eqb d ""); [discriminate|].
  intros H. apply create_in_ok in H as (Ht & dev & ->).
  cbn [Os.fs Os.with_entry]. unfold Os.isdir. rewrite enter_at.
  split; [reflexivity|]. split; [|split; [|now split]].
  - intros q m Hq. now apply enter_keeps.
  - now apply takes_entry_isdir.
Qed.

(** [os.mkdir] returns at a free name in a directory that takes an
    entry. *)
Lemma mkdir_free w d :
  d <> "" -> Os.fs w d = None -> Os.vacant w d = Os.Free ->
  takes_entry (Os.fs w (Os.parent d)) = true ->
  exists w', Os.mkdir w d = Ok w'.
Proof.
  intros Hne Hd Hv Ht. unfold Os.mkdir, Os.create. rewrite Hd, Hv.
  apply String.eqb_neq in Hne as ->.
  destruct (create_in_takes _ w d Os.Dir 511 Ht) as [dev ->]. eauto.
Qed.

Lemma mkdir_one_level w d :
  Os.isdir (Os.fs w) (Os.parent d) = false -> Os.exists_ (Os.fs w) d = false ->
  Os.mkdir w d = Raise (OSError d).
Proof.
  unfold Os.mkdir, Os.create, Os.create_in, Os.isdir, Os.exists_.
  intros Hp He.
  destruct (Os.fs w d); [discriminate|].
  destruct (Os.vacant w d); try reflexivity.
  destruct (String.eqb d ""); [reflexivity|].
  destruct (Os.fs w (Os.parent d)) as [n|]; [|reflexivity].
  now rewrite Hp.
Qed.

(** A name that is not free is in the way of [os.mkdir]. *)
Lemma mkdir_in_the_way w d :
  Os.vacant w d <> Os.Free -> Os.mkdir w d = Raise (OSError d).
Proof.
  unfold Os.mkdir. intros Hv. destruct (Os.fs w d); [reflexivity|].
  destruct (Os.vacant w d); [now destruct Hv | reflexivity | reflexivity].
Qed.

(** Opening a file for appending leaves every entry that was there as it
    was. *)
Lemma open_append_keeps_entries w p w' q m :
  Os.open_append w p = Ok w' ->
  Os.fs w q = Some m -> Os.fs w' q = Some m.
Proof.
  unfold Os.open_append.
  destruct (Os.fs w p) as [n|] eqn:Hp.
  - destruct (negb (Os.is_dir n) && Os.may_write n); [|discriminate].
    now intros [= <-].
  - intros H Hq. apply make_file_ok in H as [dev ->].
    cbn [Os.fs Os.with_entry]. now apply enter_keeps.
Qed.

Lemma open_append_keeps_dir w p w' d :
  Os.open_append w p = Ok w' ->
  Os.isdir (Os.fs w) d = true -> Os.isdir (Os.fs w') d = true.
Proof.
  intros Ho. unfold Os.isdir.
  destruct (Os.fs w d) as [m|] eqn:Hd; [|discriminate].
  now rewrite (open_append_keeps_entries _ _ _ _ _ Ho Hd).
Qed.

Lemma init_log_open_keeps_dir d logname loglevel st q :
  Os.isdir (Os.fs (world st)) d = true ->
  Os.isdir (Os.fs (world st)) q = true ->
  Os.isdir (Os.fs (world (snd (init_log_open d logname loglevel st)))) q
  = true.
Proof.
  intros Hd Hq.
  unfold init_log_open, mbind, lift, os_mkdir, basicConfig, raise_param_error.
  rewrite Hd. cbn [negb]. cbv beta iota.
  match goal with |- context [Os.access ?f ?p ?m] =>
    destruct (Os.access f p m) end; cbn [negb snd]; [|exact Hq].
  destruct (Logging.root_handlers (logging st)); cbn [snd]; [|exact Hq].
  match goal with |- context [Os.open_append ?a ?p] =>
    destruct (Os.open_append a p) eqn:E end; cbn [snd]; [|exact Hq].
  now apply (open_append_keeps_dir _ _ _ _ E).
Qed.

Lemma missing_not_dir f p : Os.exists_ f p = false -> Os.isdir f p = false.
Proof. unfold Os.exists_, Os.isdir. now destruct (f p). Qed.

(** What comes after the directory is there leaves every entry as it
    was. *)
Lemma init_log_open_rest_keeps d logname loglevel st q m :
  Os.isdir (Os.fs (world st)) d = true ->
  Os.fs (world st) q = Some m ->
  Os.fs (world (snd (init_log_open d logname loglevel st))) q = Some m.
Proof.
  intros Hd Hq.
  unfold init_log_open, mbind, lift, os_mkdir, basicConfig, raise_param_error.
  rewrite Hd. cbn [negb]. cbv beta iota.
  match goal with |- context [Os.access ?f ?p ?m] =>
    destruct (Os.access f p m) end; cbn [negb snd]; [|exact Hq].
  destruct (Logging.root_handlers (logging st)); cbn [snd]; [|exact Hq].
  match goal with |- context [Os.open_append ?a ?p] =>
    destruct (Os.open_append a p) eqn:E end; cbn [snd]; [|exact Hq].
  now apply (open_append_keeps_entries _ _ _ _ _ E).
Qed.

(** Where [os.mkdir] returns, the directory is there when [init_log] is
    left, however it is left, and every entry that was there is as it
    was. *)
Lemma init_log_open_creates d logname loglevel st w :
  Os.exists_ (Os.fs (world st)) d = false ->
  Os.mkdir (world st) d = Ok w ->
  let f' := Os.fs (world (snd (init_log_open d logname loglevel st))) in
  Os.isdir f' d = true
  /\ forall q m, Os.fs (world st) q = Some m -> f' q = Some m.
Proof.
  intros He Hm. destruct (mkdir_makes_dir _ _ _ Hm) as (Hd & Hk & _).
  assert (Hrun : snd (init_log_open d logname loglevel st)
                 = snd (init_log_open d logname loglevel (set_world w st))).
  { unfold init_log_open, mbind, lift, os_mkdir.
    change (world (set_world w st)) with w.
    rewrite (missing_not_dir _ _ He), He, Hm, Hd. reflexivity. }
  cbv zeta. rewrite Hrun. split.
  - now apply init_log_open_keeps_dir.
  - intros q m Hq. apply init_log_open_rest_keeps; [exact Hd|].
    now apply Hk.
Qed.

Lemma init_log_open_mkdir_fails d logname loglevel st e :
  Os.exists_ (Os.fs (world st)) d = false ->
  Os.mkdir (world st) d = Raise e ->
  init_log_open d logname loglevel st = (Raise e, st).
Proof.
  intros He Hm. unfold init_log_open, mbind at 1, os_mkdir.
  now rewrite (missing_not_dir _ _ He), He, Hm.
Qed.

Lemma init_log_open_not_dir d logname loglevel st :
  Os.exists_ (Os.fs (world st)) d = true ->
  Os.isdir (Os.fs (world st)) d = false ->
  init_log_open d logname loglevel st
  = (Raise (if debug st
            then ParamValueError ("not a directory: '" ++ d ++ "'")
            else ValueError ("not a directory: '" ++ d ++ "'")), st).
Proof.
  intros He Hd. unfold init_log_open, mbind at 1, raise_param_error.
  now rewrite Hd, He.
Qed.

(** C8. A call of [init_log] with a level of the table other than [NONE]
    and a log directory that resolves to [d] leaves [d] in [LOG_DIR],
    whether the call then returns or raises, and changes none of the other
    directory globals nor the program name, as no call of [init_log] does.
    A later call without a log directory works in [d]: it runs the rest of
    [init_log] on [d], leaves [LOG_DIR] at [d], and is the call that names
    [d]. A [d] that exists and is no directory fails with the parameter
    value error [not a directory: 'd']. A [d] that does not exist (and
    holds no NUL character) is made by [os.mkdir], one level: where the
    name is free and the directory above [d] takes an entry, [d] is a
    directory when [init_log] is left, however it is left, and every
    entry that was there is as it was; where the directory above [d] is
    missing nothing is made and the [OSError] of [os.mkdir] is the
    outcome, as it is where the name is not free, a symbolic link to
    nothing being in the way. *)
Theorem init_log_logdir (st : State) (level logdir : string)
  (logname : option string) (loglevel : Z) (d : string) :
  dict_get LOG_LEVELS (Py.upper level) = Ok loglevel -> (0 <= loglevel)%Z ->
  logdir <> "" ->
  resolve_conf_path st logdir = Ok d ->
  let run := init_log level (Some logdir) logname st in
  let st' := snd run in
  let f := Os.fs (world st) in
  LOG_DIR st' = d
  /\ same_globals st st'
  /\ (forall l o n s, same_globals s (after (init_log l o n) s))
  /\ (forall level2 logname2 loglevel2,
        dict_get LOG_LEVELS (Py.upper level2) = Ok loglevel2 ->
        (0 <= loglevel2)%Z ->
        init_log level2 None logname2 st'
        = init_log_open d logname2 loglevel2 st'
        /\ LOG_DIR (after (init_log level2 None logname2) st') = d
        /\ (PosixPath.isabs (Os.cwd (world st)) = true ->
            init_log level2 None logname2 st'
            = init_log level2 (Some d) logname2 st'))
  /\ (Os.exists_ f d = true -> Os.isdir f d = false ->
      run = (Raise (if debug st
                    then ParamValueError ("not a directory: '" ++ d ++ "'")
                    else ValueError ("not a directory: '" ++ d ++ "'")),
             set_LOG_DIR d st))
  /\ (Os.exists_ f d = false -> Py.contains_char "000" d = false ->
      (Os.vacant (world st) d = Os.Free ->
       takes_entry (f (Os.parent d)) = true ->
       Os.isdir (Os.fs (world st')) d = true
       /\ forall q m, f q = Some m -> Os.fs (world st') q = Some m)
      /\ (Os.isdir f (Os.parent d) = false ->
          run = (Raise (OSError d), set_LOG_DIR d st))
      /\ (Os.vacant (world st) d <> Os.Free ->
          run = (Raise (OSError d), set_LOG_DIR d st))).
Proof.
  intros Hl Hpos Hne Hr run st' f.
  assert (Hrun : run = init_log_open d logname loglevel (set_LOG_DIR d st))
    by now apply init_log_with_dir.
  assert (Hlog : LOG_DIR st' = d).
  { unfold st'. rewrite Hrun.
    now rewrite (proj2 (init_log_open_frame d logname loglevel
                          (set_LOG_DIR d st))). }
  split; [exact Hlog|].
  split; [apply init_log_frame|].
  split; [intros l o n s; apply init_log_frame|].
  split; [|split].
  - intros level2 logname2 loglevel2 Hl2 Hpos2.
    rewrite (init_log_without_dir st' level2 logname2 loglevel2 Hl2 Hpos2).
    rewrite Hlog. split; [reflexivity|]. split.
    + unfold after.
      rewrite (init_log_without_dir st' level2 logname2 loglevel2 Hl2 Hpos2).
      rewrite Hlog.
      now rewrite (proj2 (init_log_open_frame d logname2 loglevel2 st')).
    + intros Hcwd.
      assert (Hc : canonical d).
      { destruct (resolve_conf_path_abspath st logdir d Hr) as [x ->].
        now apply abspath_canonical. }
      assert (Hd : d <> "").
      { destruct Hc as [Ha _]. intros ->. discriminate Ha. }
      rewrite (init_log_with_dir st' level2 d logname2 loglevel2 d
                 Hl2 Hpos2 Hd (canonical_resolves st' d Hc)).
      pose proof (set_LOG_DIR_same st') as E. rewrite Hlog in E.
      now rewrite E.
  - intros He Hd. rewrite Hrun.
    now rewrite (init_log_open_not_dir d logname loglevel (set_LOG_DIR d st)
                   He Hd).
  - intros He _. split; [|split].
    + intros Hv Ht.
      assert (Hd : f d = None).
      { unfold Os.exists_ in He. fold f in He. now destruct (f d). }
      assert (Hne' : d <> "").
      { destruct (resolve_conf_path_abspath st logdir d Hr) as [x ->].
        apply normpath_nonempty. }
      destruct (mkdir_free (world st) d Hne' Hd Hv Ht) as [w Hm].
      unfold st'. rewrite Hrun.
      exact (init_log_open_creates d logname loglevel (set_LOG_DIR d st) w
               He Hm).
    + intros Hp. rewrite Hrun.
      apply (init_log_open_mkdir_fails d logname loglevel
               (set_LOG_DIR d st)); [exact He|].
      apply mkdir_one_level; [exact Hp | exact He].
    + intros Hv. rewrite Hrun.
      apply (init_log_open_mkdir_fails d logname loglevel
               (set_LOG_DIR d st)); [exact He|].
      now apply mkdir_in_the_way.
Qed.

Lemma init_log_logdir_witness :
  LOG_DIR (after (init_log "INFO" (Some "{{rel}}/log") None) riak_state)
  = "/opt/riak/log"
  /\ LOG_DIR (after (init_log "debug" None None)
                (after (init_log "INFO" (Some "{{rel}}/log") None)
                   riak_state))
     = "/opt/riak/log"
  /\ Os.isdir (Os.fs (world riak_state)) "/opt/riak/log" = false
  /\ Os.isdir
       (Os.fs (world (after (init_log "INFO" (Some "{{rel}}/log") None)
                        riak_state)))
       "/opt/riak/log"
     = true.
Proof.
  assert (Hpos : (0 <= 20)%Z) by discriminate.
  assert (Hpos2 : (0 <= 10)%Z) by discriminate.
  assert (Hne : "{{rel}}/log" <> "") by discriminate.
  pose proof (init_log_logdir riak_state "INFO" "{{rel}}/log" None 20
                "/opt/riak/log" eq_refl Hpos Hne eq_refl)
    as (H1 & _ & _ & H2 & _ & H3).
  split; [exact H1|].
  split; [exact (proj1 (proj2 (H2 "debug" None 10%Z eq_refl Hpos2)))|].
  split; [reflexivity|].
  exact (proj1 (proj1 (H3 eq_refl eq_refl) eq_refl eq_refl)).
Defined.

(** ** Bootstrap *)

Lemma same_node_refl n : Os.same_node n n = true.
Proof. unfold Os.same_node. now rewrite !Z.eqb_refl. Qed.

Lemma same_node_sym a b : Os.same_node a b = Os.same_node b a.
Proof. unfold Os.same_node. now rewrite (Z.eqb_sym (Os.st_dev a)), (Z.eqb_sym (Os.st_ino a)). Qed.

Lemma same_node_trans a b c :
  Os.same_node a b = true -> Os.same_node b c = true ->
  Os.same_node a c = true.
Proof.
  unfold Os.same_node. intros H1 H2.
  apply andb_prop in H1 as [H1 H1']. apply andb_prop in H2 as [H2 H2'].
  apply Z.eqb_eq in H1, H1', H2, H2'. rewrite H1, H1', H2, H2'.
  now rewrite !Z.eqb_refl.
Qed.

Lemma identical_refl f a : Os.exists_ f a = true -> identical f a a = true.
Proof.
  unfold Os.exists_, identical. destruct (f a); [|discriminate].
  intros _. apply same_node_refl.
Qed.

Lemma identical_via f a b c :
  identical f a b = true -> identical f c b = true -> identical f a c = true.
Proof.
  unfold identical.
  destruct (f a) as [na|], (f b) as [nb|], (f c) as [nc|]; try discriminate.
  intros H1 H2. rewrite same_node_sym in H2. now apply (same_node_trans na nb nc).
Qed.

Lemma identical_exists f a b : identical f a b = true -> Os.exists_ f a = true.
Proof. unfold identical, Os.exists_. now destruct (f a). Qed.

(** The guarded [samefile] of the code is the identity test, as long as
    the path compared with exists or the entry does not. *)
Lemma guarded_samefile f d b :
  Os.exists_ f d = false \/ Os.exists_ f b = true ->
  and_then (Os.exists_ f d) (Os.samefile f d b) = Ok (identical f d b).
Proof.
  unfold and_then, Os.exists_, Os.samefile, identical.
  destruct (f d), (f b); intros [H|H]; try discriminate H; reflexivity.
Qed.

Lemma guarded_samefile_raises f d b :
  Os.exists_ f d = true -> Os.exists_ f b = false ->
  and_then (Os.exists_ f d) (Os.samefile f d b) = Raise (OSError b).
Proof.
  unfold and_then, Os.exists_, Os.samefile.
  destruct (f d), (f b); intros H1 H2; try discriminate; reflexivity.
Qed.

Lemma already_on_path_spec f lib sp :
  Os.exists_ f lib = true ->
  already_on_path f lib sp = Ok (existsb (fun d => identical f d lib) sp).
Proof.
  intros Hl. induction sp as [|d rest IH]; [reflexivity|].
  cbn [already_on_path existsb].
  rewrite (guarded_samefile f d lib (or_intror Hl)). cbn [bind].
  destruct (identical f d lib); [reflexivity | exact IH].
Qed.

Lemma isdir_exists f p : Os.isdir f p = true -> Os.exists_ f p = true.
Proof. unfold Os.isdir, Os.exists_. now destruct (f p). Qed.

(** [_init_module] once the candidate is found to be there. *)
Lemma init_module_with_lib st0 :
  let w := world st0 in
  let f := Os.fs w in
  Os.isdir f (libdir_of w) = true ->
  Os.access f (libdir_of w) (Z.lor Os.R_OK Os.X_OK) = true ->
  exists st,
    sys_path st = sys_path st0 /\ world st = w
    /\ BIN_DIR st = bindir_of w /\ LIB_DIR st = libdir_of w
    /\ _init_module st0
       = if existsb (fun d => identical f d (libdir_of w)) (sys_path st0)
         then (Ok tt, st)
         else match sys_path st0 with
              | [] => (Raise (IndexError "list index out of range"), st)
              | d0 :: _ =>
                  match and_then (Os.exists_ f d0)
                          (Os.samefile f d0 (bindir_of w)) with
                  | Ok true =>
                      (Ok tt,
                       set_sys_path
                         (list_insert 1 (libdir_of w) (sys_path st0)) st)
                  | Ok false =>
                      (Ok tt,
                       set_sys_path (sys_path st0 ++ [libdir_of w])%list st)
                  | Raise e => (Raise e, st)
                  end
              end.
Proof.
  intros w f Hd Ha. unfold _init_module. cbv zeta.
  fold w. fold f. fold (bindir_of w). fold (libdir_of w).
  rewrite Hd, Ha. cbn [andb].
  eexists. split; [|split; [|split; [|split]]]; cycle 4.
  - unfold mbind, lift, modify, ret.
    cbn [sys_path].
    rewrite (already_on_path_spec f (libdir_of w) (sys_path st0)
               (isdir_exists _ _ Hd)).
    destruct (existsb _ (sys_path st0)); [reflexivity|].
    destruct (sys_path st0) as [|d0 rest]; [reflexivity|].
    cbn [list_first].
    destruct (and_then _ _) as [[|]|e]; reflexivity.
  - reflexivity.
  - reflexivity.
  - reflexivity.
  - reflexivity.
Qed.

Lemma init_module_without_lib st0 :
  let w := world st0 in
  Os.isdir (Os.fs w) (libdir_of w)
  && Os.access (Os.fs w) (libdir_of w) (Z.lor Os.R_OK Os.X_OK) = false ->
  fst (_init_module st0) = Ok tt
  /\ sys_path (after _init_module st0) = sys_path st0.
Proof.
  intros w H. unfold after, _init_module. cbv zeta.
  fold w. fold (bindir_of w). fold (libdir_of w). rewrite H. now split.
Qed.

Lemma filter_none {A : Type} (p : A -> bool) l :
  existsb p l = false -> filter p l = [].
Proof.
  induction l as [|a l IH]; [reflexivity|]. cbn [existsb filter].
  intros H. apply orb_false_elim in H as [-> H]. now apply IH.
Qed.

Lemma existsb_cons_false {A : Type} (p : A -> bool) a l :
  existsb p (a :: l) = false -> p a = false /\ existsb p l = false.
Proof. cbn [existsb]. apply orb_false_elim. Qed.

Lemma filter_app_one {A : Type} (p : A -> bool) l x :
  existsb p l = false -> p x = true -> filter p (l ++ [x])%list = [x].
Proof.
  intros Hl Hx. rewrite filter_app, (filter_none p l Hl). cbn [filter app].
  now rewrite Hx.
Qed.

(** C2, as amended. With the candidate lib directory there, readable and
    traversable: if an entry of the search path is filesystem-identical to
    it (an entry that does not exist is identical to nothing, and is no
    error), Bootstrap leaves the search path as it is; otherwise, the
    search path having a first entry, the candidate is put right after
    that entry when the entry is filesystem-identical to the binary
    directory, and at the end when it is not and the comparison can be
    made (the entry does not exist, or the binary directory does). A
    Bootstrap that has returned leaves exactly one entry naming the
    candidate where there was none, and a second Bootstrap, whose
    candidate names the same directory by whatever string, returns and
    leaves the search path as the first one left it. *)
Theorem init_module_search_path (st0 : State) :
  let w := world st0 in
  let f := Os.fs w in
  let lib := libdir_of w in
  let bin := bindir_of w in
  let sp := sys_path st0 in
  let st := after _init_module st0 in
  let on_path := existsb (fun d => identical f d lib) sp in
  Os.isdir f lib = true ->
  Os.access f lib (Z.lor Os.R_OK Os.X_OK) = true ->
  LIB_DIR st = lib /\ BIN_DIR st = bin
  /\ (on_path = true -> fst (_init_module st0) = Ok tt /\ sys_path st = sp)
  /\ (on_path = false ->
      forall d0 rest, sp = d0 :: rest ->
      (identical f d0 bin = true ->
       fst (_init_module st0) = Ok tt /\ sys_path st = d0 :: lib :: rest)
      /\ (identical f d0 bin = false ->
          Os.exists_ f d0 = false \/ Os.exists_ f bin = true ->
          fst (_init_module st0) = Ok tt
          /\ sys_path st = (sp ++ [lib])%list))
  /\ (fst (_init_module st0) = Ok tt ->
      (on_path = false ->
       List.length (filter (fun d => identical f d lib) (sys_path st))
       = 1%nat)
      /\ forall st2,
           Os.fs (world st2) = f -> sys_path st2 = sys_path st ->
           identical f (libdir_of (world st2)) lib = true ->
           fst (_init_module st2) = Ok tt
           /\ sys_path (after _init_module st2) = sys_path st).
Proof.
  intros w f lib bin sp st on_path Hd Ha.
  destruct (init_module_with_lib st0 Hd Ha)
    as (s & Hsp & Hw & Hbin & Hlib & Hrun).
  fold w f lib bin sp on_path in Hrun, Hsp.
  assert (Hlibex : Os.exists_ f lib = true) by now apply isdir_exists.
  unfold st, after. rewrite Hrun.
  split; [destruct on_path; [exact Hlib|];
          destruct sp as [|d0 rest]; [exact Hlib|];
          destruct (and_then _ _) as [[|]|e]; exact Hlib|].
  split; [destruct on_path; [exact Hbin|];
          destruct sp as [|d0 rest]; [exact Hbin|];
          destruct (and_then _ _) as [[|]|e]; exact Hbin|].
  split; [intros ->; now split|].
  split.
  - intros -> d0 rest ->. split.
    + intros Hid.
      rewrite guarded_samefile, Hid; [now split|].
      right. unfold identical, Os.exists_ in *.
      destruct (f d0), (f bin); try discriminate Hid; reflexivity.
    + intros Hid Hcmp. rewrite (guarded_samefile f d0 bin Hcmp), Hid.
      now split.
  - intros Hok.
    assert (Hhas : exists d, In d (sys_path
              (snd (if on_path then (Ok tt, s)
                    else match sp with
                         | [] => (Raise (IndexError "list index out of range"), s)
                         | d0 :: _ =>
                             match and_then (Os.exists_ f d0)
                                     (Os.samefile f d0 bin) with
                             | Ok true =>
                                 (Ok tt, set_sys_path (list_insert 1 lib sp) s)
                             | Ok false =>
                                 (Ok tt, set_sys_path (sp ++ [lib])%list s)
                             | Raise e => (Raise e, s)
                             end
                         end)))
            /\ identical f d lib = true).
    { destruct on_path eqn:Hon.
      - cbn [snd]. rewrite Hsp. apply existsb_exists in Hon. exact Hon.
      - destruct sp as [|d0 rest]; [discriminate Hok|].
        destruct (and_then _ _) as [[|]|e]; [| |discriminate Hok];
          exists lib; (split; [|now apply identical_refl]);
          cbn [snd sys_path set_sys_path].
        + right. now left.
        + apply in_or_app. right. now left. }
    split.
    + intros Hon. rewrite Hon in *.
      destruct sp as [|d0 rest]; [discriminate Hok|].
      destruct (existsb_cons_false _ _ _ Hon) as [Hd0 Hrest].
      destruct (and_then _ _) as [[|]|e]; [| |discriminate Hok];
        cbn [snd sys_path set_sys_path].
      * unfold list_insert. cbn [firstn skipn List.app filter].
        now rewrite Hd0, (identical_refl f lib Hlibex), (filter_none _ _ Hrest).
      * now rewrite (filter_app_one _ _ lib Hon (identical_refl f lib Hlibex)).
    + intros st2 Hf2 Hsp2 Hid2. destruct Hhas as (d & Hin & Hdl).
      destruct (Os.isdir (Os.fs (world st2)) (libdir_of (world st2))
                && Os.access (Os.fs (world st2)) (libdir_of (world st2))
                     (Z.lor Os.R_OK Os.X_OK)) eqn:Hc.
      * apply andb_prop in Hc as [Hd2 Ha2].
        destruct (init_module_with_lib st2 Hd2 Ha2)
          as (s2 & Hs2 & _ & _ & _ & Hrun2).
        unfold after. rewrite Hrun2.
        replace (existsb _ (sys_path st2)) with true;
          [cbn [fst snd]; split; [reflexivity | now rewrite Hs2]|].
        symmetry. apply existsb_exists. exists d. split.
        -- now rewrite Hsp2.
        -- rewrite Hf2. now apply (identical_via f d lib).
      * destruct (init_module_without_lib st2 Hc) as [H1 H2].
        unfold after in H2. split; [exact H1 | now rewrite H2].
Qed.

Lemma init_module_search_path_witness :
  sys_path riak_state
  = ["/opt/riak/bin"; "/opt/riak/lib"; "/usr/lib/python3"]
  /\ LIB_DIR (after _init_module
                (at_load riak_alias_world (sys_path riak_state)))
     = "/srv/riak/lib"
  /\ sys_path (after _init_module
                 (at_load riak_alias_world (sys_path riak_state)))
     = sys_path riak_state.
Proof.
  pose proof (init_module_search_path
                (at_load riak_world ["/opt/riak/bin"; "/usr/lib/python3"])
                eq_refl eq_refl)
    as (_ & _ & _ & Hins & Htwice).
  split; [|split].
  - exact (proj2 (proj1 (Hins eq_refl "/opt/riak/bin" ["/usr/lib/python3"]
                           eq_refl) eq_refl)).
  - reflexivity.
  - exact (proj2 (proj2 (Htwice eq_refl)
                    (at_load riak_alias_world (sys_path riak_state))
                    eq_refl eq_refl eq_refl)).
Defined.

(** C2, as the specification words it, fails: where the binary directory
    does not exist and the first entry does, the comparison of the two
    raises and nothing is appended; and on an empty search path there is
    no first entry to read. *)
Lemma init_module_not_as_specified :
  (fst (_init_module (at_load moved_world ["/opt/riak/bin"]))
   = Raise (OSError "/var/bin")
   /\ ~ bootstrap_as_specified (at_load moved_world ["/opt/riak/bin"]))
  /\ (fst (_init_module (at_load riak_world []))
      = Raise (IndexError "list index out of range")
      /\ ~ bootstrap_as_specified (at_load riak_world [])).
Proof.
  split; (split; [reflexivity|]); intros H;
    specialize (H eq_refl eq_refl); vm_compute in H; discriminate H.
Qed.

(** * Further properties *)

(** ** The version codec on any integers *)

Lemma split_segment_length sep s seg :
  In seg (Py.split sep s) -> (String.length seg <= String.length s)%nat.
Proof.
  revert seg. induction s as [|c r IH]; cbn [Py.split]; intros seg Hin.
  - destruct Hin as [<- | []]. apply le_n.
  - pose proof (split_nonempty sep r) as Hne.
    destruct (Ascii.eqb c sep).
    + destruct Hin as [<- | Hin]; [cbn; lia|].
      specialize (IH seg Hin). cbn [String.length]. lia.
    + destruct (Py.split sep r) as [|h t]; [now destruct Hne|].
      destruct Hin as [<- | Hin].
      * specialize (IH h (or_introl eq_refl)). cbn [String.length]. lia.
      * specialize (IH seg (or_intror Hin)). cbn [String.length]. lia.
Qed.

(** X1. Every integer [semver_to_vsn] returns is non-negative and has at
    most 4300 digits, so that it can be written again; and for a string
    of at most 4300 characters [semver_to_vsn] returns, whatever the
    string holds. *)
Theorem semver_to_vsn_nonneg (s : string) :
  (forall v, semver_to_vsn s = Ok v ->
             Forall (fun i => 0 <= i < 10 ^ Py.int_max_str_digits)%Z v)
  /\ ((Z.of_nat (String.length s) <= Py.int_max_str_digits)%Z ->
      exists v, semver_to_vsn s = Ok v).
Proof.
  split; [intros v; apply parse_values_within|].
  intros Hs. eexists. unfold semver_to_vsn.
  apply decimal_segments_within. apply Forall_forall. intros seg Hin.
  apply filter_In in Hin as [Hin _]. apply within_limit_spec.
  apply (split_segment_length "." s seg) in Hin. lia.
Qed.

Lemma semver_to_vsn_nonneg_witness :
  exists v, semver_to_vsn "3.x.-1.07" = Ok v.
Proof.
  apply (proj2 (semver_to_vsn_nonneg "3.x.-1.07")). discriminate.
Defined.

(** X2. Formatting any sequence of integers of at most 4300 digits each
    and parsing the string gives the non-negative integers of the
    sequence, in their order: a negative integer is printed with a sign,
    which makes its segment non-decimal, and is dropped without an
    error. *)
Theorem semver_to_vsn_drops_negatives (v : list Z) :
  Forall (fun i => Z.abs i < 10 ^ Py.int_max_str_digits)%Z v ->
  exists t,
    vsn_to_semver v = Ok t
    /\ semver_to_vsn t = Ok (filter (fun i => 0 <=? i)%Z v).
Proof. apply parse_format_any. Qed.

Lemma semver_to_vsn_drops_negatives_witness :
  exists t,
    vsn_to_semver [3; -1; 0]%Z = Ok t
    /\ semver_to_vsn t = Ok [3; 0]%Z.
Proof.
  apply (semver_to_vsn_drops_negatives [3; -1; 0]%Z).
  repeat constructor; apply small_within_limit; cbn; lia.
Defined.

(** X3. What [semver_to_vsn] returns is stable: it can be formatted, and
    formatted and parsed again it is the same sequence, and so formatting
    a parsed string twice over gives the string of the first
    formatting. *)
Theorem semver_to_vsn_stable (s : string) (v : list Z) :
  semver_to_vsn s = Ok v ->
  exists t,
    vsn_to_semver v = Ok t
    /\ semver_to_vsn t = Ok v
    /\ (v' <- semver_to_vsn t ;; vsn_to_semver v') = Ok t.
Proof.
  intros H. pose proof (parse_values_within s v H) as Hv.
  destruct (parse_format_nonneg v Hv) as (t & Ht & Hp).
  exists t. split; [exact Ht|]. split; [exact Hp|].
  rewrite Hp. exact Ht.
Qed.

Lemma semver_to_vsn_stable_witness :
  exists t,
    vsn_to_semver [1; 2; 3]%Z = Ok t
    /\ semver_to_vsn t = Ok [1; 2; 3]%Z
    /\ (v' <- semver_to_vsn t ;; vsn_to_semver v') = Ok t.
Proof.
  exact (semver_to_vsn_stable "01.x.002..3" [1; 2; 3]%Z eq_refl).
Defined.

(** ** The resolver: outcomes *)

(** X4. With an absolute working directory, what [resolve_conf_path]
    returns is a canonical absolute path, and resolving it again gives the
    same path: the function is idempotent. *)
Theorem resolve_conf_path_idempotent (st : State) (path d : string) :
  PosixPath.isabs (Os.cwd (world st)) = true ->
  resolve_conf_path st path = Ok d ->
  canonical d /\ resolve_conf_path st d = Ok d.
Proof.
  intros Hcwd Hr.
  assert (Hc : canonical d).
  { destruct (resolve_conf_path_abspath st path d Hr) as [x ->].
    now apply abspath_canonical. }
  split; [exact Hc | now apply canonical_resolves].
Qed.

Lemma resolve_conf_path_idempotent_witness :
  resolve_conf_path riak_state "/opt/riak/etc/riak.conf"
  = Ok "/opt/riak/etc/riak.conf".
Proof.
  exact (proj2 (resolve_conf_path_idempotent riak_state
                  "{{ETC}}/conf.d/../riak.conf" "/opt/riak/etc/riak.conf"
                  eq_refl eq_refl)).
Defined.

Lemma token_known_or_not key : {In key stache_keys} + {~ In key stache_keys}.
Proof. apply in_dec, string_dec. Qed.

(** X5. The failures of [resolve_conf_path] are three, all on a path that
    opens with the token marker: no closing marker raises the
    [ValueError] of [str.index]; a token that is not in the table raises
    the [KeyError] of the lookup; a token of the table with nothing after
    the closing marker raises [IndexError]. Every other path resolves.
    The path is one without a NUL character, which the look-up of a user
    behind [~] would reject. *)
Theorem resolve_conf_path_failures (st : State) (path : string) (e : exn) :
  Py.contains_char "000" path = false ->
  resolve_conf_path st path = Raise e <->
  Py.startswith "{{" path = true
  /\ ((Py.find "}}" path = None /\ e = ValueError "substring not found")
      \/ (exists subend,
            Py.find "}}" path = Some subend
            /\ ~ In (token_of path subend) stache_keys
            /\ e = KeyError (token_of path subend))
      \/ (exists subend,
            Py.find "}}" path = Some subend
            /\ In (token_of path subend) stache_keys
            /\ tail_of path subend = ""
            /\ e = IndexError "string index out of range")).
Proof.
  intros _. destruct (Py.startswith "{{" path) eqn:Hs.
  - destruct (Py.find "}}" path) as [subend|] eqn:Hf.
    + rewrite (resolve_stache st path subend Hs Hf).
      destruct (token_known_or_not (token_of path subend)) as [Hk|Hk].
      * destruct (stache_map_known st _ Hk) as [base ->]. cbn [bind].
        destruct (tail_of path subend) as [|c t] eqn:Ht;
          cbn [bind Py.first_char].
        -- split.
           ++ intros [= <-]. split; [reflexivity|]. right; right.
              exists subend. repeat split; assumption.
           ++ intros [_ [[H _]|[(i & H & Hn & _)|(i & _ & _ & _ & ->)]]];
                [discriminate H | | reflexivity].
              injection H as <-. now destruct Hn.
        -- split.
           ++ destruct (Py.contains_char c _fspath_seps); discriminate.
           ++ intros [_ [[H _]|[(i & H & Hn & _)|(i & H & _ & Hte & _)]]].
              ** discriminate H.
              ** injection H as <-. now destruct Hn.
              ** injection H as <-. rewrite Ht in Hte. discriminate Hte.
      * rewrite (stache_map_unknown st _ Hk). cbn [bind]. split.
        -- intros [= <-]. split; [reflexivity|]. right; left.
           exists subend. repeat split; assumption.
        -- intros [_ [[H _]|[(i & H & _ & ->)|(i & H & Hin & _)]]].
           ++ discriminate H.
           ++ now injection H as <-.
           ++ injection H as <-. now destruct Hk.
    + assert (Hrun : resolve_conf_path st path
                     = Raise (ValueError "substring not found")).
      { unfold resolve_conf_path, Py.index.
        now rewrite (stache_not_tilde path Hs), Hs, Hf. }
      rewrite Hrun. split.
      * intros [= <-]. split; [reflexivity|]. now left.
      * intros [_ [[_ ->]|[(i & H & _)|(i & H & _)]]];
          [reflexivity | discriminate H | discriminate H].
  - split.
    + unfold resolve_conf_path. rewrite Hs.
      destruct (Py.startswith "~" path); discriminate.
    + intros [H _]. discriminate H.
Qed.

Lemma resolve_conf_path_failures_witness :
  resolve_conf_path riak_state "{{nope}}/x" = Raise (KeyError "nope").
Proof.
  apply (proj2 (resolve_conf_path_failures riak_state "{{nope}}/x"
                  (KeyError "nope") eq_refl)).
  split; [reflexivity|]. right; left. eexists.
  split; [reflexivity|]. split; [|reflexivity].
  vm_compute. intros H.
  repeat (destruct H as [H|H]; [discriminate H|]). exact H.
Defined.

Lemma expanduser_home_rest home_of h rest :
  home_of "" = Some h ->
  PosixPath.expanduser home_of (String "~" (String "/" rest))
  = PosixPath.rstrip_seps h ++ String "/" rest.
Proof.
  intros Hh. unfold PosixPath.expanduser.
  change (Py.startswith "~" (String "~" (String "/" rest))) with true.
  cbn [negb Py.drop].
  change (Py.find "/" (String "/" rest)) with (Some 0%nat).
  cbv beta iota zeta.
  change (Py.slice 1 1 (String "~" (String "/" rest))) with "".
  rewrite Hh. cbn [Py.drop].
  destruct (PosixPath.rstrip_seps h); reflexivity.
Qed.

Lemma expanduser_no_home home_of rest :
  home_of "" = None ->
  PosixPath.expanduser home_of (String "~" (String "/" rest))
  = String "~" (String "/" rest).
Proof.
  intros Hh. unfold PosixPath.expanduser.
  change (Py.startswith "~" (String "~" (String "/" rest))) with true.
  cbn [negb Py.drop].
  change (Py.find "/" (String "/" rest)) with (Some 0%nat).
  cbv beta iota zeta.
  change (Py.slice 1 1 (String "~" (String "/" rest))) with "".
  now rewrite Hh.
Qed.

(** X6. A path that opens with [~] and holds no NUL character never
    fails. With a home directory [h]
    for the user of the process, [~/rest] resolves to the absolute form of
    [h], its trailing separators dropped, followed by [/rest]; where
    no home directory is to be found the path is taken as it is written,
    [~] being the name of an entry of the working directory. *)
Theorem resolve_conf_path_home (st : State) (rest : string) :
  let cwd := Os.cwd (world st) in
  (forall h, Os.home_of (world st) "" = Some h ->
   resolve_conf_path st ("~/" ++ rest)
   = Ok (PosixPath.abspath cwd (PosixPath.rstrip_seps h ++ "/" ++ rest)))
  /\ (Os.home_of (world st) "" = None ->
      resolve_conf_path st ("~/" ++ rest)
      = Ok (PosixPath.normpath (PosixPath.join cwd ("~/" ++ rest))))
  /\ (forall path, Py.startswith "~" path = true ->
      Py.contains_char "000" path = false ->
      exists d, resolve_conf_path st path = Ok d).
Proof.
  intros cwd. split; [|split].
  - intros h Hh. unfold resolve_conf_path.
    change (Py.startswith "~" ("~/" ++ rest)) with true. cbn [bind].
    change ("~/" ++ rest) with (String "~" (String "/" rest)).
    now rewrite (expanduser_home_rest _ h rest Hh).
  - intros Hh. unfold resolve_conf_path.
    change (Py.startswith "~" ("~/" ++ rest)) with true. cbn [bind].
    change ("~/" ++ rest) with (String "~" (String "/" rest)).
    now rewrite (expanduser_no_home _ rest Hh).
  - intros path Hp _. unfold resolve_conf_path. rewrite Hp. cbn [bind].
    eexists. reflexivity.
Qed.

Lemma resolve_conf_path_home_witness :
  resolve_conf_path riak_state "~/x" = Ok "/root/x".
Proof.
  exact (proj1 (resolve_conf_path_home riak_state "x") "/root" eq_refl).
Defined.

(** ** [dict_with] *)

Lemma dict_get_has {V : Type} (d : list (string * V)) key :
  dict_has d key = true -> exists v, dict_get d key = Ok v.
Proof.
  induction d as [|[k x] d IH]; cbn [dict_has dict_get]; [discriminate|].
  destruct (String.eqb k key); [now exists x | exact IH].
Qed.

Lemma dict_get_missing {V : Type} (d : list (string * V)) key :
  dict_has d key = false -> dict_get d key = Raise (KeyError key).
Proof.
  induction d as [|[k x] d IH]; cbn [dict_has dict_get]; [reflexivity|].
  destruct (String.eqb k key); [discriminate | exact IH].
Qed.

Lemma dict_get_set {V : Type} (d : list (string * V)) key v k :
  dict_get (dict_set d key v) k
  = if String.eqb key k then Ok v else dict_get d k.
Proof.
  induction d as [|[k0 x] d IH]; cbn [dict_set dict_get]; [reflexivity|].
  destruct (String.eqb_spec k0 key) as [->|Hne]; cbn [dict_get].
  - now destruct (String.eqb key k).
  - rewrite IH. destruct (String.eqb_spec k0 k) as [->|_]; [|reflexivity].
    apply String.eqb_neq in Hne. now rewrite String.eqb_sym, Hne.
Qed.

Lemma dict_keys_set {V : Type} (d : list (string * V)) key v :
  dict_keys (dict_set d key v)
  = if dict_has d key then dict_keys d else (dict_keys d ++ [key])%list.
Proof.
  unfold dict_keys.
  induction d as [|[k x] d IH]; cbn [dict_set dict_has map]; [reflexivity|].
  destruct (String.eqb k key); cbn [orb map fst]; [reflexivity|].
  rewrite IH. now destruct (dict_has d key).
Qed.

Lemma dict_has_keys {V : Type} (d : list (string * V)) key :
  dict_has d key = seq_has (dict_keys d) key.
Proof.
  unfold dict_keys. induction d as [|[k x] d IH]; [reflexivity|].
  cbn [dict_has map fst seq_has]. now rewrite IH.
Qed.

Lemma dict_set_new {V : Type} (d : list (string * V)) key v :
  dict_has d key = false -> dict_set d key v = (d ++ [(key, v)])%list.
Proof.
  induction d as [|[k x] d IH]; cbn [dict_has dict_set]; [reflexivity|].
  destruct (String.eqb k key); [discriminate|]. cbn [orb]. intros H.
  now rewrite (IH H).
Qed.

Lemma seq_has_app l1 l2 key :
  seq_has (l1 ++ l2)%list key = seq_has l1 key || seq_has l2 key.
Proof.
  induction l1 as [|x l1 IH]; [reflexivity|]. cbn [List.app seq_has].
  now rewrite IH, orb_assoc.
Qed.

Lemma seq_has_In l key : seq_has l key = true <-> In key l.
Proof.
  induction l as [|x l IH]; cbn [seq_has In]; [split; [discriminate|tauto]|].
  rewrite orb_true_iff, IH, String.eqb_eq. tauto.
Qed.

Lemma first_seen_ext s1 s2 l :
  (forall x, seq_has s1 x = seq_has s2 x) ->
  first_seen s1 l = first_seen s2 l.
Proof.
  revert s1 s2. induction l as [|x l IH]; intros s1 s2 H; [reflexivity|].
  cbn [first_seen]. rewrite (H x). destruct (seq_has s2 x); [now apply IH|].
  f_equal. apply IH. intros y. cbn [seq_has]. now rewrite H.
Qed.

(** The loop over [keys]: it returns, the keys it adds are the keys of
    [src] among [keys] that are new, each where it is first met, and
    a key it has met holds the value of [src]. *)
Lemma dict_with_keys_spec {V : Type} (src : list (string * V)) keys out0 :
  exists out,
    dict_with_keys src keys out0 = Ok out
    /\ dict_keys out
       = (dict_keys out0
          ++ first_seen (dict_keys out0) (filter (dict_has src) keys))%list
    /\ forall k,
         dict_get out k
         = if seq_has keys k && dict_has src k then dict_get src k
           else dict_get out0 k.
Proof.
  revert out0. induction keys as [|key rest IH]; intros out0.
  - exists out0. cbn [dict_with_keys filter first_seen seq_has andb].
    now rewrite app_nil_r.
  - cbn [dict_with_keys filter]. destruct (dict_has src key) eqn:Hk.
    + destruct (dict_get_has src key Hk) as [v Hv]. rewrite Hv. cbn [bind].
      destruct (IH (dict_set out0 key v)) as (out & Hrun & Hkeys & Hget).
      exists out. split; [exact Hrun|]. split.
      * rewrite Hkeys, dict_keys_set. cbn [first_seen].
        rewrite <- dict_has_keys.
        destruct (dict_has out0 key) eqn:Ho; [reflexivity|].
        rewrite <- app_assoc. cbn [List.app]. do 2 f_equal.
        apply first_seen_ext. intros x. rewrite seq_has_app.
        cbn [seq_has]. rewrite orb_false_r. apply orb_comm.
      * intros k. rewrite Hget, dict_get_set. cbn [seq_has].
        destruct (String.eqb_spec key k) as [<-|Hne]; cbn [orb].
        -- rewrite Hk. now destruct (seq_has rest key).
        -- reflexivity.
    + destruct (IH out0) as (out & Hrun & Hkeys & Hget).
      exists out. split; [exact Hrun|]. split; [exact Hkeys|].
      intros k. rewrite Hget. cbn [seq_has].
      destruct (String.eqb_spec key k) as [<-|Hne]; cbn [orb]; [|reflexivity].
      rewrite Hk. now rewrite !andb_false_r.
Qed.

Lemma first_seen_nodup seen l :
  NoDup (first_seen seen l)
  /\ forall x, In x (first_seen seen l) -> seq_has seen x = false.
Proof.
  revert seen. induction l as [|x l IH]; intros seen;
    [split; [constructor | intros ? []]|].
  cbn [first_seen]. destruct (seq_has seen x) eqn:Hx; [apply IH|].
  destruct (IH (x :: seen)) as [Hn Hs]. split.
  - constructor; [|exact Hn]. intros Hin. apply Hs in Hin.
    cbn [seq_has] in Hin. now rewrite String.eqb_refl in Hin.
  - intros y [<-|Hin]; [exact Hx|]. apply Hs in Hin.
    cbn [seq_has] in Hin. now apply orb_false_elim in Hin as [_ ?].
Qed.

Lemma first_seen_In l x : In x (first_seen [] l) <-> In x l.
Proof.
  assert (H : forall seen, In x (first_seen seen l)
                           <-> In x l /\ seq_has seen x = false).
  { induction l as [|y l IH]; intros seen; cbn [first_seen In]; [tauto|].
    destruct (seq_has seen y) eqn:Hy.
    - rewrite IH. split; [tauto|]. intros [[<-|Hin] Hs]; [congruence|tauto].
    - cbn [In]. rewrite IH. cbn [seq_has].
      destruct (String.eqb_spec y x) as [->|Hne]; cbn [orb].
      + split; [intros [_|[_ H]]; [tauto | discriminate H] | tauto].
      + split; [intros [H|H]; [congruence | tauto]|].
        intros [[H|H] Hs]; [congruence | tauto]. }
  rewrite H. cbn [seq_has]. tauto.
Qed.

(** X7. [dict_with(src, keys)] with the key order of [keys] returns for
    every [src] and [keys], a missing key being skipped, not an
    error. Its keys are the keys of [keys] that [src] has, each once, at
    the place of its first occurrence in [keys]; and it maps each of them
    to the value [src] has, every other key being absent. *)
Theorem dict_with_keyorder {V : Type} (src : list (string * V))
  (keys : list string) :
  exists out,
    dict_with src keys true = Ok out
    /\ dict_keys out = first_seen [] (filter (dict_has src) keys)
    /\ NoDup (dict_keys out)
    /\ (forall k, In k (dict_keys out) <-> In k keys /\ dict_has src k = true)
    /\ forall k,
         dict_get out k
         = if seq_has keys k then dict_get src k else Raise (KeyError k).
Proof.
  destruct (dict_with_keys_spec src keys []) as (out & Hrun & Hkeys & Hget).
  exists out. cbn [dict_keys map List.app] in Hkeys.
  split; [exact Hrun|]. split; [exact Hkeys|].
  split; [rewrite Hkeys; apply first_seen_nodup|].
  split.
  - intros k. rewrite Hkeys, first_seen_In, filter_In. tauto.
  - intros k. rewrite Hget. cbn [dict_get].
    destruct (seq_has keys k); cbn [andb]; [|reflexivity].
    destruct (dict_has src k) eqn:Hk; [reflexivity|].
    now rewrite (dict_get_missing src k Hk).
Qed.

Lemma dict_has_app {V : Type} (d1 d2 : list (string * V)) key :
  dict_has (d1 ++ d2)%list key = dict_has d1 key || dict_has d2 key.
Proof.
  induction d1 as [|[k x] d1 IH]; [reflexivity|].
  cbn [List.app dict_has]. now rewrite IH, orb_assoc.
Qed.

Lemma dict_with_items_spec {V : Type} (items : list (string * V)) keys out0 :
  NoDup (dict_keys items) ->
  (forall k, In k (dict_keys items) -> dict_has out0 k = false) ->
  dict_with_items items keys out0
  = (out0 ++ filter (fun kv => seq_has keys (fst kv)) items)%list.
Proof.
  revert out0. induction items as [|[key val] rest IH]; intros out0 Hnd Hnew.
  - cbn [dict_with_items filter]. now rewrite app_nil_r.
  - cbn [dict_keys map fst] in Hnd. inversion Hnd as [|? ? Hnot Hnd']; subst.
    cbn [dict_with_items filter fst].
    destruct (seq_has keys key).
    + rewrite (dict_set_new out0 key val) by (apply Hnew; now left).
      rewrite IH; [now rewrite <- app_assoc | exact Hnd' |].
      intros k Hk. rewrite dict_has_app. cbn [dict_has].
      rewrite (Hnew k) by (now right). rewrite orb_false_r. cbn [orb].
      apply String.eqb_neq. intros ->. now apply Hnot.
    + apply IH; [exact Hnd'|]. intros k Hk. apply Hnew. now right.
Qed.

Lemma dict_get_filter {V : Type} (src : list (string * V)) keys k :
  dict_get (filter (fun kv => seq_has keys (fst kv)) src) k
  = if seq_has keys k then dict_get src k else Raise (KeyError k).
Proof.
  induction src as [|[key val] src IH]; cbn [filter dict_get fst].
  - now destruct (seq_has keys k).
  - destruct (seq_has keys key) eqn:Hkey; cbn [dict_get].
    + rewrite IH. destruct (String.eqb_spec key k) as [<-|_];
        [now rewrite Hkey | reflexivity].
    + rewrite IH. destruct (String.eqb_spec key k) as [<-|_];
        [now rewrite Hkey | reflexivity].
Qed.

(** X8. For a [dict] [src], [dict_with(src, keys, keyorder=False)] is
    [src] with the items whose key is not among [keys] left out: the
    items it keeps are in the order [src] has them, whatever the order
    and the repetitions of [keys]. *)
Theorem dict_with_srcorder {V : Type} (src : list (string * V))
  (keys : list string) :
  NoDup (dict_keys src) ->
  dict_with src keys false
  = Ok (filter (fun kv => seq_has keys (fst kv)) src).
Proof.
  intros Hnd. unfold dict_with. f_equal.
  now rewrite (dict_with_items_spec src keys [] Hnd).
Qed.

Lemma dict_with_srcorder_witness :
  dict_with [("a", 1); ("b", 2); ("c", 3)]%Z ["c"; "x"; "a"; "c"] false
  = Ok [("a", 1); ("c", 3)]%Z.
Proof.
  apply (dict_with_srcorder [("a", 1); ("b", 2); ("c", 3)]%Z
           ["c"; "x"; "a"; "c"]).
  repeat constructor; simpl; intros H;
    repeat (destruct H as [H|H]; [discriminate H|]); exact H.
Defined.

(** X9. The two key orders of [dict_with] give the same mapping: for a
    [dict] [src], every key is looked up alike in the two results, with
    the value [src] has for a key among [keys] and a [KeyError] for any
    other. *)
Theorem dict_with_same_mapping {V : Type} (src : list (string * V))
  (keys : list string) :
  NoDup (dict_keys src) ->
  exists by_keys by_src,
    dict_with src keys true = Ok by_keys
    /\ dict_with src keys false = Ok by_src
    /\ List.length by_keys = List.length by_src
    /\ forall k,
         dict_get by_keys k = dict_get by_src k
         /\ dict_get by_src k
            = if seq_has keys k then dict_get src k else Raise (KeyError k).
Proof.
  intros Hnd.
  destruct (dict_with_keys_spec src keys []) as (out & Hrun & Hkeys & Hget).
  exists out, (filter (fun kv => seq_has keys (fst kv)) src).
  split; [exact Hrun|].
  split; [unfold dict_with; f_equal;
          now rewrite (dict_with_items_spec src keys [] Hnd)|].
  assert (Hlook : forall k,
    dict_get out k
    = dict_get (filter (fun kv => seq_has keys (fst kv)) src) k).
  { intros k. rewrite Hget, dict_get_filter. cbn [dict_get].
    destruct (seq_has keys k); cbn [andb]; [|reflexivity].
    destruct (dict_has src k) eqn:Hk; [reflexivity|].
    now rewrite (dict_get_missing src k Hk). }
  split.
  - (* both have one item for each key of [src] among [keys] *)
    rewrite <- (length_map fst out), <- (length_map fst (filter _ src)).
    change (map fst out) with (dict_keys out).
    apply Nat.le_antisymm; apply NoDup_incl_length.
    + rewrite Hkeys. apply first_seen_nodup.
    + intros k Hk. rewrite Hkeys in Hk. cbn [dict_keys map List.app] in Hk.
      apply first_seen_In, filter_In in Hk as [Hin Hhas].
      rewrite dict_has_keys in Hhas. apply seq_has_In in Hhas.
      unfold dict_keys in Hhas. apply in_map_iff in Hhas as [[k' v] [<- Hkv]].
      apply in_map_iff. exists (k', v). split; [reflexivity|].
      apply filter_In. split; [exact Hkv|]. now apply seq_has_In.
    + clear - Hnd. unfold dict_keys in Hnd.
      induction src as [|[key val] src IH]; [constructor|].
      cbn [map fst] in Hnd. inversion Hnd as [|? ? Hnot Hnd']; subst.
      cbn [filter fst]. destruct (seq_has keys key); [|now apply IH].
      cbn [map fst]. constructor; [|now apply IH].
      intros Hin. apply Hnot. apply in_map_iff in Hin as [kv [<- Hkv]].
      apply filter_In in Hkv as [Hkv _]. now apply in_map.
    + intros k Hk. apply in_map_iff in Hk as [[k' v] [<- Hkv]].
      apply filter_In in Hkv as [Hkv Hs]. cbn [fst] in *.
      rewrite Hkeys. cbn [dict_keys map List.app].
      apply first_seen_In, filter_In. split; [now apply seq_has_In|].
      rewrite dict_has_keys. apply seq_has_In. unfold dict_keys.
      apply in_map_iff. now exists (k', v).
  - intros k. split; [apply Hlook | apply dict_get_filter].
Qed.

Lemma dict_with_same_mapping_witness :
  exists by_keys by_src,
    dict_with [("a", 1); ("b", 2); ("c", 3)]%Z ["c"; "x"; "a"; "c"] true
    = Ok by_keys
    /\ dict_with [("a", 1); ("b", 2); ("c", 3)]%Z ["c"; "x"; "a"; "c"] false
       = Ok by_src
    /\ dict_get by_keys "c" = dict_get by_src "c".
Proof.
  assert (Hnd : NoDup (dict_keys [("a", 1); ("b", 2); ("c", 3)]%Z)).
  { repeat constructor; simpl; intros H;
      repeat (destruct H as [H|H]; [discriminate H|]); exact H. }
  destruct (dict_with_same_mapping [("a", 1); ("b", 2); ("c", 3)]%Z
              ["c"; "x"; "a"; "c"] Hnd)
    as (o1 & o2 & H1 & H2 & _ & H3).
  exists o1, o2. split; [exact H1|]. split; [exact H2|].
  exact (proj1 (H3 "c")).
Defined.

(** ** [write_file] and [read_file] *)

Lemma same_node_congr a b m :
  Os.same_node a b = true -> Os.same_node m a = Os.same_node m b.
Proof.
  unfold Os.same_node. intros H. apply andb_prop in H as [H1 H2].
  apply Z.eqb_eq in H1, H2. now rewrite H1, H2.
Qed.

Lemma same_node_with_content n c : Os.same_node (with_content n c) n = true.
Proof. apply (same_node_refl n). Qed.

Lemma same_node_with_access n g : Os.same_node (with_access n g) n = true.
Proof. apply (same_node_refl n). Qed.

Lemma change_node_at w old new p :
  Os.fs w p = Some old -> Os.fs (change_node w old new) p = Some new.
Proof.
  intros H. cbn [Os.fs change_node]. now rewrite H, same_node_refl.
Qed.

Lemma same_but_refl p n f : f p = Some n -> same_but p n f f.
Proof.
  intros H. split; [|tauto]. exists n. split; [exact H|].
  apply same_node_refl.
Qed.

Lemma same_but_trans p n n1 f f1 f2 :
  same_but p n f f1 -> f1 p = Some n1 -> same_but p n1 f1 f2 ->
  same_but p n f f2.
Proof.
  intros [(nd1 & Hp1 & Hs1) Hk1] H1 [(nd2 & Hp2 & Hs2) Hk2].
  rewrite H1 in Hp1. injection Hp1 as <-.
  split.
  - exists nd2. split; [exact Hp2|]. now apply (same_node_trans _ n1).
  - intros q m Hq Hm. apply Hk2; [now apply Hk1|].
    now rewrite (same_node_congr n1 n m Hs1).
Qed.

Lemma retouch_same_but p w w' n :
  retouch p w w' -> Os.fs w p = Some n -> same_but p n (Os.fs w) (Os.fs w').
Proof.
  intros [-> | (n0 & n' & Hp & Hs & ->)] Hn; [now apply same_but_refl|].
  rewrite Hn in Hp. injection Hp as <-. split.
  - exists n'. split; [now apply change_node_at | exact Hs].
  - intros q m Hq Hm. cbn [Os.fs change_node]. now rewrite Hq, Hm.
Qed.

(** Two names that give the same node give the same node after a change
    to the file. *)
Lemma retouch_tied p q w w' :
  retouch p w w' -> Os.fs w q = Os.fs w p -> Os.fs w' q = Os.fs w' p.
Proof.
  intros [-> | (n0 & n' & _ & _ & ->)] H; [exact H|].
  cbn [Os.fs change_node]. now rewrite H.
Qed.

Lemma retouch_twice p w1 w2 w3 n :
  retouch p w1 w2 -> retouch p w2 w3 -> Os.fs w1 p = Some n ->
  same_but p n (Os.fs w1) (Os.fs w3).
Proof.
  intros H12 H23 Hn.
  pose proof (retouch_same_but _ _ _ _ H12 Hn) as S12.
  destruct S12 as [(n2 & Hn2 & Hs2) Hk].
  apply (same_but_trans p n n2 _ (Os.fs w2));
    [split; [now exists n2 | exact Hk] | exact Hn2|].
  now apply retouch_same_but.
Qed.

Lemma os_chmod_retouch w p m w' : os_chmod w p m = Ok w' -> retouch p w w'.
Proof.
  unfold os_chmod. destruct (Os.fs w p) as [n|] eqn:Hp; [|discriminate].
  destruct (Os.owned n || Os.privileged w); [|discriminate].
  intros [= <-]. right.
  exists n, (with_access n (Os.granted w (Os.is_dir n) m)).
  split; [exact Hp|]. split; [apply same_node_with_access | reflexivity].
Qed.

Lemma fd_write_retouch w p c k w' :
  fd_write w p c = Ok (k, w') -> retouch p w w'.
Proof.
  unfold fd_write. destruct (Os.fs w p) as [n|] eqn:Hp; [|discriminate].
  assert (Hc : retouch p w
                 (change_node w n (with_content n (Os.content n ++ c)))).
  { right. exists n, (with_content n (Os.content n ++ c)).
    split; [exact Hp|].
    split; [apply same_node_with_content | reflexivity]. }
  destruct (Os.st_kind n) as [| |d].
  - now intros [= _ <-].
  - now intros [= _ <-].
  - destruct (Os.dev_takes d c); [|discriminate].
    intros [= _ <-]. now left.
Qed.

(** After the opening, [write_file] is two changes to the file that was
    opened, each of which may be none. *)
Lemma write_file_steps st path content mode w1 :
  open_write (world st) path = Ok w1 ->
  exists w2 w3,
    retouch path w1 w2 /\ retouch path w2 w3
    /\ world (after (write_file path content mode) st) = w3.
Proof.
  intros Ho. unfold after, write_file. rewrite Ho.
  assert (H2 : exists w2,
    retouch path w1 w2
    /\ ((if truthy_int mode then os_chmod w1 path (int_of mode) else Ok w1)
        = Ok w2
        \/ (w2 = w1
            /\ exists e,
                 (if truthy_int mode then os_chmod w1 path (int_of mode)
                  else Ok w1) = Raise e))).
  { destruct (truthy_int mode).
    - destruct (os_chmod w1 path (int_of mode)) as [w2|e] eqn:E.
      + exists w2. split; [now apply (os_chmod_retouch _ _ _ _ E) | now left].
      + exists w1. split; [now left|]. right. split; [reflexivity|].
        now exists e.
    - exists w1. split; [now left | now left]. }
  destruct H2 as (w2 & Hr2 & [-> | (-> & e & ->)]).
  - exists w2. destruct (truthy content).
    + destruct (fd_write w2 path (str_of content)) as [[k w3]|e] eqn:E.
      * exists w3. split; [exact Hr2|].
        split; [now apply (fd_write_retouch _ _ _ _ _ E) | reflexivity].
      * exists w2. split; [exact Hr2|]. split; [now left | reflexivity].
    + exists w2. split; [exact Hr2|]. split; [now left | reflexivity].
  - exists w1, w1. split; [now left|]. split; [now left | reflexivity].
Qed.

Lemma reg_not_dir n : Os.is_reg n = true -> Os.is_dir n = false.
Proof. unfold Os.is_reg, Os.is_dir. now destruct (Os.st_kind n). Qed.

(** The opening of a regular file the process may write to: the file is
    emptied. *)
Lemma open_write_reg w p n0 :
  Os.fs w p = Some n0 -> Os.is_reg n0 = true -> Os.may_write n0 = true ->
  open_write w p = Ok (change_node w n0 (with_content n0 "")).
Proof.
  intros Hp Hr Hw. unfold open_write.
  now rewrite Hp, (reg_not_dir n0 Hr), Hw, Hr.
Qed.



(** What the opening leaves of the file system: where a file was there,
    a change to it, which may be none; where none was, a new entry. *)
Lemma open_write_shape w p w1 :
  open_write w p = Ok w1 ->
  match Os.fs w p with
  | Some _ => retouch p w w1
  | None => exists nd, w1 = Os.with_entry w p nd
  end.
Proof.
  unfold open_write.
  destruct (Os.fs w p) as [n|] eqn:Hp.
  - destruct (negb (Os.is_dir n) && Os.may_write n); [|discriminate].
    intros [= <-]. destruct (Os.is_reg n); [|now left].
    right. exists n, (with_content n "").
    split; [exact Hp|].
    split; [apply same_node_with_content | reflexivity].
  - intros H. apply make_file_ok in H as [dev ->]. eauto.
Qed.










(** X12. What [write_file] leaves alone, whatever its outcome: every
    entry of the file system that is another file than the one written
    is as it was, and so are the module's globals, the search path and
    the state of the logging backend. And what it does not: a regular
    file that was there is written under every name it has, all of which
    give what the path gives. *)
Theorem write_file_frame (st : State) (path : string)
  (content : option string) (mode : option Z) :
  let f := Os.fs (world st) in
  let st' := after (write_file path content mode) st in
  let f' := Os.fs (world st') in
  (forall q m,
     f q = Some m ->
     (forall nd, f' path = Some nd -> Os.same_node m nd = false) ->
     f' q = Some m)
  /\ (forall n0 q m,
        f path = Some n0 -> Os.is_reg n0 = true -> Os.may_write n0 = true ->
        f q = Some m -> Os.same_node m n0 = true ->
        f' q = f' path)
  /\ same_globals st st' /\ LOG_DIR st' = LOG_DIR st
  /\ debug st' = debug st /\ sys_path st' = sys_path st
  /\ logging st' = logging st.
Proof.
  intros f st' f'. split; [|split].
  - intros q m Hq Hm.
    destruct (open_write (world st) path) as [w1|e] eqn:Ho.
    + destruct (write_file_steps st path content mode w1 Ho)
        as (w2 & w3 & H12 & H23 & Hw3).
      fold st' in Hw3. unfold f' in *. rewrite Hw3 in *.
      pose proof (open_write_shape _ _ _ Ho) as Hsh. fold f in Hsh.
      destruct (f path) as [n0|] eqn:Hp.
      * pose proof (retouch_same_but _ _ _ _ Hsh Hp) as S01.
        destruct S01 as [(n1 & Hn1 & Hs1) Hk1].
        pose proof (retouch_twice _ _ _ _ _ H12 H23 Hn1) as S13.
        assert (S03 : same_but path n0 f (Os.fs w3)).
        { apply (same_but_trans path n0 n1 f (Os.fs w1));
            [split; [now exists n1 | exact Hk1] | exact Hn1 | exact S13]. }
        destruct S03 as [(nd & Hnd & Hsd) Hk]. apply Hk; [exact Hq|].
        rewrite <- (same_node_congr nd n0 m Hsd). now apply Hm.
      * destruct Hsh as [n1 ->].
        assert (Hn1 : Os.fs (Os.with_entry (world st) path n1) path
                      = Some n1) by apply enter_at.
        pose proof (retouch_twice _ _ _ _ _ H12 H23 Hn1) as S13.
        destruct S13 as [(nd & Hnd & Hsd) Hk]. apply Hk.
        -- cbn [Os.fs Os.with_entry]. now apply enter_keeps.
        -- rewrite <- (same_node_congr nd n1 m Hsd). now apply Hm.
    + unfold f', st', after, write_file. now rewrite Ho.
  - intros n0 q m Hp Hr Hw Hq Hm. fold f in Hp.
    pose proof (open_write_reg (world st) path n0 Hp Hr Hw) as Ho.
    destruct (write_file_steps st path content mode _ Ho)
      as (w2 & w3 & H12 & H23 & Hw3).
    fold st' in Hw3. unfold f'. rewrite Hw3.
    apply (retouch_tied path q w2 w3 H23).
    apply (retouch_tied path q _ w2 H12).
    cbn [Os.fs change_node]. fold f. now rewrite Hq, Hp, Hm, same_node_refl.
  - unfold st', after, write_file.
    destruct (open_write (world st) path) as [w1|e]; [|now repeat split].
    destruct (if truthy_int mode then _ else _) as [w2|e];
      [|now repeat split].
    destruct (truthy content); [|now repeat split].
    destruct (fd_write w2 path (str_of content)) as [[n w3]|e];
      now repeat split.
Qed.

Lemma write_file_frame_witness :
  let st' := after (write_file "/data/notes" (Some "x") None) notes_state in
  Os.fs (world st') "/data/./notes" = Os.fs (world st') "/data/notes"
  /\ read_file st' "/data/./notes" = Ok "x"
  /\ Os.fs (world st') "/data" = Os.fs (world notes_state) "/data".
Proof.
  pose proof (write_file_frame notes_state "/data/notes" (Some "x") None)
    as (H1 & H2 & _).
  cbv zeta. split; [|split].
  - exact (H2 _ "/data/./notes" _ eq_refl eq_refl eq_refl eq_refl eq_refl).
  - unfold read_file, Os.read_text.
    rewrite (H2 _ "/data/./notes" _ eq_refl eq_refl eq_refl eq_refl eq_refl).
    reflexivity.
  - apply (H1 "/data" _ eq_refl). intros nd Hnd.
    vm_compute in Hnd. injection Hnd as <-. reflexivity.
Defined.



(** ** The validators: what they let through *)

Lemma access_R_OK f path n :
  f path = Some n -> Os.access f path Os.R_OK = Os.may_read n.
Proof.
  intros H. unfold Os.access. rewrite H.
  change (Z.testbit Os.R_OK 2) with true.
  change (Z.testbit Os.R_OK 1) with false.
  change (Z.testbit Os.R_OK 0) with false.
  cbn [negb orb andb]. now rewrite !andb_true_r.
Qed.

Lemma ReadableAbsFile_returns st p r :
  ReadableAbsFile st p = Ok r -> r = p.
Proof.
  unfold ReadableAbsFile. intros H.
  destruct (negb _); [now destruct (debug st)|]. now injection H.
Qed.

Lemma ReadableAbsFile_raises st p e :
  ReadableAbsFile st p = Raise e -> is_value_error e = true.
Proof.
  unfold ReadableAbsFile, raise_param_error.
  destruct (negb _); [|discriminate].
  destruct (debug st); intros [= <-]; reflexivity.
Qed.

Lemma PossibleFile_returns st path d :
  PossibleFile st path = Ok d -> d = abs_expanded st path.
Proof.
  unfold PossibleFile, raise_param_error. cbv zeta.
  set (f := Os.fs (world st)). set (fp := abs_expanded st path).
  set (dp := PosixPath.dirname fp).
  destruct (Os.exists_ f fp), (Os.isfile f fp), (Os.access f fp Os.R_OK),
    (Os.access f fp Os.W_OK), (Os.isdir f dp), (Os.access f dp Os.W_OK),
    (debug st); cbn [negb andb orb]; intros H; try discriminate H;
    now injection H.
Qed.

(** X14. [ReadableAbsFile] returns the path it is given, unchanged, when
    the path is a regular file the process may read, and only then; a
    missing path, a directory and a file that may not be read fail alike,
    with the parameter value error [not a readable file: 'path']. Write
    access plays no part. *)
Theorem ReadableAbsFile_spec (st : State) (path : string) :
  let f := Os.fs (world st) in
  (forall r, ReadableAbsFile st path = Ok r <->
             r = path /\ Os.isfile f path = true
             /\ Os.access f path Os.R_OK = true)
  /\ (forall e, ReadableAbsFile st path = Raise e <->
                (Os.isfile f path = false \/ Os.access f path Os.R_OK = false)
                /\ e = if debug st
                       then ParamValueError
                              ("not a readable file: '" ++ path ++ "'")
                       else ValueError
                              ("not a readable file: '" ++ path ++ "'"))
  /\ (forall n, f path = Some n -> Os.is_reg n = true ->
      (ReadableAbsFile st path = Ok path <-> Os.may_read n = true)).
Proof.
  intros f. unfold ReadableAbsFile, raise_param_error. fold f.
  split; [|split].
  - intros r. destruct (Os.isfile f path), (Os.access f path Os.R_OK),
      (debug st); cbn [andb negb]; intuition congruence.
  - intros e. destruct (Os.isfile f path), (Os.access f path Os.R_OK),
      (debug st); cbn [andb negb]; intuition congruence.
  - intros n Hn Hr. rewrite (access_R_OK f path n Hn).
    unfold Os.isfile. rewrite Hn, Hr. cbn [andb].
    destruct (Os.may_read n), (debug st); cbn [negb]; intuition congruence.
Qed.

Lemma abs_expanded_canonical st d : canonical d -> abs_expanded st d = d.
Proof.
  intros Hc. pose proof Hc as [Ha _]. unfold PosixPath.isabs in Ha.
  unfold abs_expanded, PosixPath.expanduser.
  destruct d as [|c r]; [discriminate|].
  cbn [Py.startswith] in Ha. apply andb_prop in Ha as [Hc' _].
  apply Ascii.eqb_eq in Hc' as <-.
  change (Py.startswith "~" (String "/" r)) with false. cbn [negb].
  now apply abspath_of_canonical.
Qed.

Lemma abs_expanded_is_canonical st path :
  PosixPath.isabs (Os.cwd (world st)) = true ->
  canonical (abs_expanded st path).
Proof. intros H. now apply abspath_canonical. Qed.

(** X15. [PossibleFile] lets a path through, as its absolute form [fp],
    exactly when [fp] is a regular file the process may read or write
    (either is enough), or [fp] does not exist and its directory is
    there and writeable. Every failure is a parameter value error: what
    is there is no file, the file gives neither access, the directory is
    none, or the directory may not be written to. The path is one without
    a NUL character, which the look-up of a user behind [~] would
    reject. *)
Theorem PossibleFile_spec (st : State) (path : string) :
  let f := Os.fs (world st) in
  let fp := abs_expanded st path in
  let dp := PosixPath.dirname fp in
  Py.contains_char "000" path = false ->
  (forall r, PossibleFile st path = Ok r <->
             r = fp /\ possible_file f fp = true)
  /\ (Os.exists_ f fp = true ->
      (PossibleFile st path = Ok fp <->
       Os.isfile f fp = true
       /\ (Os.access f fp Os.R_OK = true \/ Os.access f fp Os.W_OK = true)))
  /\ (Os.exists_ f fp = false ->
      (PossibleFile st path = Ok fp <->
       Os.isdir f dp = true /\ Os.access f dp Os.W_OK = true))
  /\ (forall e, PossibleFile st path = Raise e ->
      is_value_error e = true
      /\ In (message e)
           [ "exists but not a file: '" ++ fp ++ "'";
             "insufficient file permissions: '" ++ fp ++ "'";
             "not a directory: '" ++ dp ++ "'";
             "insufficient directory permissions: '" ++ dp ++ "'" ]).
Proof.
  intros f fp dp _.
  unfold PossibleFile, possible_file, raise_param_error. cbv zeta.
  fold fp. fold dp. fold f.
  destruct (Os.exists_ f fp), (Os.isfile f fp), (Os.access f fp Os.R_OK),
    (Os.access f fp Os.W_OK), (Os.isdir f dp), (Os.access f dp Os.W_OK),
    (debug st); cbn [negb andb orb];
    (split; [intros r; intuition congruence|]);
    (split; [intuition congruence|]);
    (split; [intuition congruence|]);
    intros e; try discriminate; intros [= <-]; cbn; tauto.
Qed.

Lemma PossibleFile_spec_witness :
  PossibleFile riak_state "bin/new.txt" = Ok "/opt/riak/bin/new.txt".
Proof.
  apply (proj1 (PossibleFile_spec riak_state "bin/new.txt" eq_refl)).
  split; reflexivity.
Defined.

(** X16. With an absolute working directory, what [ReadableDir],
    [ReadableFile] and [PossibleFile] return is a canonical absolute
    path, and each of them returns that path again when given it: the
    three are idempotent, and the path [ReadableDir] or [ReadableFile]
    returns passes [ReadableAbsDir] or [ReadableAbsFile]. *)
Theorem validators_idempotent (st : State) (path d : string) :
  PosixPath.isabs (Os.cwd (world st)) = true ->
  (ReadableDir st path = Ok d ->
   canonical d /\ ReadableAbsDir st d = Ok d /\ ReadableDir st d = Ok d)
  /\ (ReadableFile st path = Ok d ->
      canonical d /\ ReadableAbsFile st d = Ok d /\ ReadableFile st d = Ok d)
  /\ (PossibleFile st path = Ok d ->
      canonical d /\ PossibleFile st d = Ok d).
Proof.
  intros Hcwd.
  pose proof (abs_expanded_is_canonical st path Hcwd) as Hc.
  split; [|split].
  - unfold ReadableDir. intros H.
    assert (Hd : d = abs_expanded st path).
    { unfold ReadableAbsDir in H.
      destruct (negb _); [now destruct (debug st)|].
      destruct (negb _); [now destruct (debug st)|]. now injection H. }
    subst d. split; [exact Hc|]. split; [exact H|].
    now rewrite (abs_expanded_canonical st _ Hc).
  - unfold ReadableFile. intros H.
    assert (Hd : d = abs_expanded st path).
    { unfold ReadableAbsFile in H.
      destruct (negb _); [now destruct (debug st)|]. now injection H. }
    subst d. split; [exact Hc|]. split; [exact H|].
    now rewrite (abs_expanded_canonical st _ Hc).
  - intros H.
    assert (Hd : d = abs_expanded st path).
    { now apply PossibleFile_returns. }
    subst d. split; [exact Hc|].
    unfold PossibleFile in *. cbv zeta in *.
    now rewrite (abs_expanded_canonical st _ Hc).
Qed.

Lemma validators_idempotent_witness :
  ReadableDir riak_state "/opt/riak/bin" = Ok "/opt/riak/bin"
  /\ PossibleFile riak_state "/opt/riak/bin/new.txt"
     = Ok "/opt/riak/bin/new.txt".
Proof.
  pose proof (validators_idempotent riak_state "bin/../bin/"
                "/opt/riak/bin" eq_refl) as (H1 & _ & _).
  pose proof (validators_idempotent riak_state "./bin/new.txt"
                "/opt/riak/bin/new.txt" eq_refl) as (_ & _ & H3).
  split.
  - exact (proj2 (proj2 (H1 eq_refl))).
  - exact (proj2 (H3 eq_refl)).
Defined.

(** ** [NamesListOrFile] *)

Lemma all_chars_app p a b :
  all_chars p (a ++ b) = all_chars p a && all_chars p b.
Proof.
  induction a as [|c a IH]; [reflexivity|]. cbn [append all_chars].
  now rewrite IH, andb_assoc.
Qed.

Lemma append_nil_r (s : string) : s ++ "" = s.
Proof. induction s as [|c s IH]; [reflexivity|]. cbn. now rewrite IH. Qed.

Lemma append_nonempty_r (a : string) c : a ++ String c "" <> "".
Proof. destruct a; discriminate. Qed.

(** The words [str.split()] gives are not empty and are made of the
    characters of the string that are no whitespace. *)
Lemma split_ws_from_words p cur s :
  match cur with
  | Some u => u <> "" /\ all_chars p u = true
  | None => True
  end ->
  all_chars (fun c => Py.isspace c || p c) s = true ->
  Forall (fun w => w <> "" /\ all_chars p w = true)
    (Py.split_ws_from cur s).
Proof.
  revert cur. induction s as [|c r IH]; intros cur Hcur Hs.
  - cbn [Py.split_ws_from]. destruct cur as [u|]; repeat constructor;
      apply Hcur.
  - cbn [all_chars] in Hs. apply andb_prop in Hs as [Hc Hr].
    cbn [Py.split_ws_from]. destruct (Py.isspace c) eqn:Hsp.
    + destruct cur as [u|]; [constructor; [exact Hcur|]|]; now apply IH.
    + cbn [orb] in Hc. apply IH; [|exact Hr].
      destruct cur as [u|].
      * split; [apply append_nonempty_r|].
        rewrite all_chars_app. cbn [all_chars].
        now rewrite (proj2 Hcur), Hc.
      * split; [discriminate|]. cbn [all_chars]. now rewrite Hc.
Qed.

Lemma replace_comma_chars s :
  all_chars (fun c => Py.isspace c || name_char c)
    (Py.replace_char "," " " s) = true.
Proof.
  induction s as [|c r IH]; [reflexivity|].
  cbn [Py.replace_char all_chars]. rewrite IH, andb_true_r.
  unfold name_char. destruct (Ascii.eqb c ",") eqn:E; [reflexivity|].
  rewrite E. cbn [negb]. rewrite andb_true_r. apply orb_negb_r.
Qed.

Lemma names_of_text s :
  Forall (fun w => is_name w = true)
    (Py.split_ws (Py.replace_char "," " " s)).
Proof.
  unfold Py.split_ws.
  pose proof (split_ws_from_words name_char None
                (Py.replace_char "," " " s) I (replace_comma_chars s)) as H.
  eapply Forall_impl; [|exact H].
  intros w [Hne Hw]. unfold is_name. rewrite Hw.
  apply String.eqb_neq in Hne. now rewrite Hne.
Qed.

Lemma readable_file_reads st fp :
  ReadableAbsFile st fp = Ok fp ->
  exists n, Os.fs (world st) fp = Some n /\ read_file st fp = Ok (Os.content n).
Proof.
  unfold ReadableAbsFile, raise_param_error, Os.isfile, Os.access,
    read_file, Os.read_text.
  destruct (Os.fs (world st) fp) as [n|];
    [|cbn [andb negb]; now destruct (debug st)].
  change (Z.testbit Os.R_OK 2) with true. cbn [negb orb].
  unfold Os.is_reg, Os.is_dir.
  destruct (Os.st_kind n), (Os.may_read n), (debug st);
    cbn [andb negb orb]; try discriminate; intros _; now exists n.
Qed.

(** X17. Every name [NamesListOrFile] returns is a name: it is not
    empty and holds no comma and no whitespace. A parameter that does
    not open with [@] never fails. A parameter [@file] fails with the
    parameter value error of [ReadableFile] where that rejects the file,
    and where it lets the file through it gives the names of the text of
    the file: the text is split as a parameter without [@] is, also when
    it opens with [@] itself. The parameter is one without a NUL
    character, which the look-up of a user behind [~] would reject. *)
Theorem NamesListOrFile_spec (st : State) (param : string) :
  Py.contains_char "000" param = false ->
  (forall names, NamesListOrFile st param = Ok names ->
                 Forall (fun w => is_name w = true) names)
  /\ (Py.startswith "@" param = false ->
      NamesListOrFile st param
      = Ok (Py.split_ws (Py.replace_char "," " " param)))
  /\ (Py.startswith "@" param = true ->
      match ReadableFile st (Py.drop 1 param) with
      | Ok fp =>
          exists n,
            Os.fs (world st) fp = Some n
            /\ NamesListOrFile st param
               = Ok (Py.split_ws (Py.replace_char "," " " (Os.content n)))
      | Raise e =>
          NamesListOrFile st param = Raise e /\ is_value_error e = true
      end).
Proof.
  intros _.
  assert (Hfile : Py.startswith "@" param = true ->
    match ReadableFile st (Py.drop 1 param) with
    | Ok fp =>
        exists n,
          Os.fs (world st) fp = Some n
          /\ NamesListOrFile st param
             = Ok (Py.split_ws (Py.replace_char "," " " (Os.content n)))
    | Raise e =>
        NamesListOrFile st param = Raise e /\ is_value_error e = true
    end).
  { intros Hp. unfold NamesListOrFile. rewrite Hp.
    destruct (ReadableFile st (Py.drop 1 param)) as [fp|e] eqn:Hr.
    - assert (Hfp : ReadableAbsFile st fp = Ok fp).
      { unfold ReadableFile in Hr.
        now rewrite (ReadableAbsFile_returns _ _ _ Hr) in Hr |- *. }
      destruct (readable_file_reads st fp Hfp) as (n & Hn & Hread).
      exists n. split; [exact Hn|]. cbn [bind]. now rewrite Hread.
    - split; [reflexivity|]. unfold ReadableFile in Hr.
      now apply ReadableAbsFile_raises in Hr. }
  split; [|split; [|exact Hfile]].
  - intros names. destruct (Py.startswith "@" param) eqn:Hp.
    + specialize (Hfile eq_refl).
      destruct (ReadableFile st (Py.drop 1 param)) as [fp|e].
      * destruct Hfile as (n & _ & ->). intros [= <-]. apply names_of_text.
      * destruct Hfile as [-> _]. discriminate.
    + unfold NamesListOrFile. rewrite Hp. cbn [bind].
      intros [= <-]. apply names_of_text.
  - intros Hp. unfold NamesListOrFile. now rewrite Hp.
Qed.

Lemma NamesListOrFile_spec_witness :
  NamesListOrFile riak_state "riak_kv, riak_core  yz"
  = Ok ["riak_kv"; "riak_core"; "yz"].
Proof.
  exact (proj1 (proj2 (NamesListOrFile_spec riak_state
                         "riak_kv, riak_core  yz" eq_refl)) eq_refl).
Defined.

Lemma replace_char_app a b x y :
  Py.replace_char a b (x ++ y)
  = Py.replace_char a b x ++ Py.replace_char a b y.
Proof.
  induction x as [|c x IH]; [reflexivity|].
  cbn [append Py.replace_char]. now rewrite IH.
Qed.

Lemma replace_comma_name w :
  all_chars name_char w = true -> Py.replace_char "," " " w = w.
Proof.
  induction w as [|c w IH]; [reflexivity|]. cbn [all_chars Py.replace_char].
  intros H. apply andb_prop in H as [Hc Hw]. rewrite (IH Hw).
  unfold name_char in Hc. apply andb_prop in Hc as [_ Hc].
  apply negb_true_iff in Hc. now rewrite Hc.
Qed.

Lemma replace_comma_sep sep :
  all_chars (fun c => Py.isspace c || Ascii.eqb c ",") sep = true ->
  all_chars Py.isspace (Py.replace_char "," " " sep) = true.
Proof.
  induction sep as [|c r IH]; [reflexivity|].
  cbn [all_chars Py.replace_char]. intros H.
  apply andb_prop in H as [Hc Hr]. rewrite (IH Hr), andb_true_r.
  destruct (Ascii.eqb c ","); [reflexivity|]. now rewrite orb_false_r in Hc.
Qed.

Lemma name_char_not_space w :
  all_chars name_char w = true ->
  all_chars (fun c => negb (Py.isspace c)) w = true.
Proof.
  induction w as [|c w IH]; [reflexivity|]. cbn [all_chars]. intros H.
  apply andb_prop in H as [Hc Hw]. rewrite (IH Hw), andb_true_r.
  unfold name_char in Hc. now apply andb_prop in Hc as [-> _].
Qed.

Lemma split_ws_from_word u w rest :
  all_chars (fun c => negb (Py.isspace c)) w = true ->
  Py.split_ws_from (Some u) (w ++ rest)
  = Py.split_ws_from (Some (u ++ w)) rest.
Proof.
  revert u. induction w as [|c w IH]; intros u H.
  - now rewrite append_nil_r.
  - cbn [all_chars] in H. apply andb_prop in H as [Hc Hw].
    apply negb_true_iff in Hc.
    cbn [append Py.split_ws_from]. rewrite Hc, (IH _ Hw).
    now rewrite append_assoc_string.
Qed.

Lemma split_ws_from_first_word w rest :
  w <> "" ->
  all_chars (fun c => negb (Py.isspace c)) w = true ->
  Py.split_ws_from None (w ++ rest) = Py.split_ws_from (Some w) rest.
Proof.
  destruct w as [|c w]; [now intros []|]. intros _ H.
  cbn [all_chars] in H. apply andb_prop in H as [Hc Hw].
  apply negb_true_iff in Hc.
  cbn [append Py.split_ws_from]. rewrite Hc.
  now rewrite (split_ws_from_word _ w rest Hw).
Qed.

Lemma split_ws_from_spaces ws rest :
  all_chars Py.isspace ws = true ->
  Py.split_ws_from None (ws ++ rest) = Py.split_ws_from None rest.
Proof.
  induction ws as [|c ws IH]; [reflexivity|]. cbn [all_chars]. intros H.
  apply andb_prop in H as [Hc Hw].
  cbn [append Py.split_ws_from]. rewrite Hc. now apply IH.
Qed.

Lemma split_ws_from_word_end u ws rest :
  ws <> "" -> all_chars Py.isspace ws = true ->
  Py.split_ws_from (Some u) (ws ++ rest) = u :: Py.split_ws_from None rest.
Proof.
  destruct ws as [|c ws]; [now intros []|]. intros _ H.
  cbn [all_chars] in H. apply andb_prop in H as [Hc Hw].
  cbn [append Py.split_ws_from]. rewrite Hc. f_equal.
  now apply split_ws_from_spaces.
Qed.

Lemma replace_char_nonempty a b s : s <> "" -> Py.replace_char a b s <> "".
Proof. destruct s; [now intros [] | discriminate]. Qed.

Lemma is_name_inv w :
  is_name w = true -> w <> "" /\ all_chars name_char w = true.
Proof.
  unfold is_name. intros H. apply andb_prop in H as [Hne Hw].
  apply negb_true_iff, String.eqb_neq in Hne. now split.
Qed.

Lemma names_of_joined sep names :
  sep <> "" ->
  all_chars (fun c => Py.isspace c || Ascii.eqb c ",") sep = true ->
  Forall (fun w => is_name w = true) names ->
  Py.split_ws (Py.replace_char "," " " (Py.join sep names)) = names.
Proof.
  intros Hsep Hs Hn. unfold Py.split_ws.
  induction Hn as [|x l Hx Hl IH]; [reflexivity|].
  apply is_name_inv in Hx as [Hne Hx].
  pose proof (name_char_not_space x Hx) as Hxs.
  destruct l as [|y l].
  - cbn [Py.join String.concat]. rewrite (replace_comma_name x Hx).
    rewrite <- (append_nil_r x) at 1.
    now rewrite (split_ws_from_first_word x "" Hne Hxs).
  - rewrite join_cons, !replace_char_app, (replace_comma_name x Hx).
    rewrite (split_ws_from_first_word x _ Hne Hxs).
    rewrite (split_ws_from_word_end x _ _
               (replace_char_nonempty _ _ _ Hsep) (replace_comma_sep _ Hs)).
    f_equal. exact IH.
Qed.

Lemma startswith_first_name sep x l :
  x <> "" ->
  Py.startswith "@" (Py.join sep (x :: l)) = Py.startswith "@" x.
Proof.
  intros Hx. destruct x as [|c x]; [now destruct Hx|].
  destruct l as [|y l]; [reflexivity|]. now rewrite join_cons.
Qed.

(** X18. Names joined by a separator come back: for a list of names (no
    name empty, none with a comma or a whitespace character), the first
    of which does not open with [@], and a separator that is any
    non-empty string of commas and whitespace, [NamesListOrFile] of the
    joined names is the list, in its order and with its repetitions. *)
Theorem NamesListOrFile_join (st : State) (sep : string)
  (names : list string) :
  sep <> "" ->
  all_chars (fun c => Py.isspace c || Ascii.eqb c ",") sep = true ->
  Forall (fun w => is_name w = true) names ->
  Py.startswith "@" (hd "" names) = false ->
  NamesListOrFile st (Py.join sep names) = Ok names.
Proof.
  intros Hsep Hs Hn Hat. unfold NamesListOrFile.
  assert (Hp : Py.startswith "@" (Py.join sep names) = false).
  { destruct names as [|x l]; [reflexivity|].
    inversion Hn as [|? ? Hx _]; subst. apply is_name_inv in Hx as [Hne _].
    now rewrite (startswith_first_name sep x l Hne). }
  rewrite Hp. cbn [bind]. f_equal. now apply names_of_joined.
Qed.

Lemma NamesListOrFile_join_witness :
  NamesListOrFile riak_state "riak_kv, riak_core, riak_kv"
  = Ok ["riak_kv"; "riak_core"; "riak_kv"].
Proof.
  apply (NamesListOrFile_join riak_state ", "
           ["riak_kv"; "riak_core"; "riak_kv"]).
  - discriminate.
  - reflexivity.
  - repeat constructor.
  - reflexivity.
Defined.

(** ** [init_log]: the directory and the log file *)

Lemma init_log_open_in_dir d logname loglevel st :
  Os.isdir (Os.fs (world st)) d = true ->
  init_log_open d logname loglevel st
  = if Os.access (Os.fs (world st)) d rwx
    then match Logging.root_handlers (logging st) with
         | [] =>
             match Os.open_append (world st) (log_file st d logname) with
             | Ok w =>
                 (Ok tt,
                  set_logging
                    (Logging.configure (log_file st d logname) loglevel
                       (logging st))
                    (set_world w st))
             | Raise e => (Raise e, st)
             end
         | _ :: _ => (Ok tt, st)
         end
    else (Raise (if debug st
                 then ParamValueError
                        ("insufficient directory permissions: '" ++ d ++ "'")
                 else ValueError
                        ("insufficient directory permissions: '" ++ d ++ "'")),
          st).
Proof.
  intros Hd.
  unfold init_log_open, mbind, lift, basicConfig, raise_param_error, log_file,
    rwx.
  rewrite Hd. cbn [negb]. cbv beta iota.
  destruct (Os.access _ _ _); cbn [negb]; [|reflexivity].
  destruct (truthy logname); reflexivity.
Qed.

Lemma init_log_open_after_mkdir d logname loglevel st w :
  Os.exists_ (Os.fs (world st)) d = false ->
  Os.mkdir (world st) d = Ok w ->
  init_log_open d logname loglevel st
  = init_log_open d logname loglevel (set_world w st).
Proof.
  intros He Hm. destruct (mkdir_makes_dir _ _ _ Hm) as (Hd & _ & _).
  unfold init_log_open at 1 2, mbind at 1 4, os_mkdir.
  rewrite (missing_not_dir _ _ He), He, Hm.
  change (world (set_world w st)) with w. rewrite Hd. reflexivity.
Qed.

Lemma open_append_keeps w p w' q n :
  Os.open_append w p = Ok w' -> Os.fs w q = Some n -> Os.fs w' q = Some n.
Proof. apply open_append_keeps_entries. Qed.

Lemma open_append_exists w p w' :
  Os.open_append w p = Ok w' -> Os.exists_ (Os.fs w') p = true.
Proof.
  unfold Os.open_append, Os.exists_.
  destruct (Os.fs w p) as [m|] eqn:Hp.
  - destruct (negb (Os.is_dir m) && Os.may_write m); [|discriminate].
    intros [= <-]. now rewrite Hp.
  - intros H. apply make_file_ok in H as [dev ->].
    cbn [Os.fs Os.with_entry]. now rewrite enter_at.
Qed.

Lemma access_keeps f f' d mode :
  (forall n, f d = Some n -> f' d = Some n) ->
  Os.access f d mode = true -> Os.access f' d mode = true.
Proof.
  unfold Os.access. intros H. destruct (f d) as [n|]; [|discriminate].
  now rewrite (H n eq_refl).
Qed.

(** What a call that returns leaves, for a directory that is there. *)
Lemma init_log_open_returns d logname loglevel st :
  Os.isdir (Os.fs (world st)) d = true ->
  fst (init_log_open d logname loglevel st) = Ok tt ->
  let st' := snd (init_log_open d logname loglevel st) in
  Os.isdir (Os.fs (world st')) d = true
  /\ Os.access (Os.fs (world st')) d rwx = true
  /\ Logging.root_handlers (logging st') <> []
  /\ (Logging.root_handlers (logging st) = [] ->
      Logging.root_handlers (logging st') = [log_file st d logname]
      /\ Logging.root_level (logging st') = loglevel
      /\ Os.exists_ (Os.fs (world st')) (log_file st d logname) = true)
  /\ (Logging.root_handlers (logging st) <> [] -> st' = st).
Proof.
  intros Hd. rewrite (init_log_open_in_dir d logname loglevel st Hd).
  destruct (Os.access (Os.fs (world st)) d rwx) eqn:Ha;
    [|now destruct (debug st)].
  destruct (Logging.root_handlers (logging st)) as [|h hs] eqn:Hh.
  - destruct (Os.open_append (world st) (log_file st d logname))
      as [w|e] eqn:Ho; [|discriminate].
    intros _. cbn [snd world set_logging set_world logging].
    split; [now apply (open_append_keeps_dir _ _ _ _ Ho)|].
    split.
    { apply (access_keeps (Os.fs (world st))); [|exact Ha].
      intros n. now apply (open_append_keeps _ _ _ _ _ Ho). }
    cbn [Logging.configure Logging.root_handlers Logging.root_level].
    rewrite Hh. cbn [List.app].
    split; [discriminate|]. split; [|now intros []].
    intros _. repeat split. now apply (open_append_exists _ _ _ Ho).
  - intros _. cbn [snd]. rewrite Hh.
    split; [exact Hd|]. split; [exact Ha|]. split; [discriminate|].
    split; [discriminate | reflexivity].
Qed.

Lemma mkdir_keeps_cwd w d w' : Os.mkdir w d = Ok w' -> Os.cwd w' = Os.cwd w.
Proof.
  unfold Os.mkdir, Os.create. destruct (Os.fs w d); [discriminate|].
  destruct (Os.vacant w d); try discriminate.
  destruct (String.eqb d ""); [discriminate|].
  intros H. now apply create_in_ok in H as (_ & dev & ->).
Qed.

Lemma init_log_open_returns_any d logname loglevel st :
  fst (init_log_open d logname loglevel st) = Ok tt ->
  let st' := snd (init_log_open d logname loglevel st) in
  Os.isdir (Os.fs (world st')) d = true
  /\ Os.access (Os.fs (world st')) d rwx = true
  /\ Logging.root_handlers (logging st') <> []
  /\ (Logging.root_handlers (logging st) = [] ->
      Logging.root_handlers (logging st') = [log_file st d logname]
      /\ Logging.root_level (logging st') = loglevel
      /\ Os.exists_ (Os.fs (world st')) (log_file st d logname) = true).
Proof.
  destruct (Os.isdir (Os.fs (world st)) d) eqn:Hd.
  - intros Hok.
    destruct (init_log_open_returns d logname loglevel st Hd Hok)
      as (H1 & H2 & H3 & H4 & _).
    cbv zeta. split; [exact H1|]. split; [exact H2|].
    split; [exact H3 | exact H4].
  - destruct (Os.exists_ (Os.fs (world st)) d) eqn:He.
    + rewrite (init_log_open_not_dir d logname loglevel st He Hd).
      now destruct (debug st).
    + destruct (Os.mkdir (world st) d) as [w|e] eqn:Hm.
      * rewrite (init_log_open_after_mkdir d logname loglevel st w He Hm).
        intros Hok. destruct (mkdir_makes_dir _ _ _ Hm) as (Hdw & _ & _).
        destruct (init_log_open_returns d logname loglevel (set_world w st)
                    Hdw Hok) as (H1 & H2 & H3 & H4 & _).
        assert (Hfile : log_file (set_world w st) d logname
                        = log_file st d logname).
        { unfold log_file. cbn [world set_world PROG_NAME].
          now rewrite (mkdir_keeps_cwd _ _ _ Hm). }
        rewrite Hfile in H4. cbv zeta. split; [exact H1|].
        split; [exact H2|]. split; [exact H3 | exact H4].
      * now rewrite (init_log_open_mkdir_fails d logname loglevel st e He Hm).
Qed.

Lemma init_log_open_keeps_logging d logname loglevel st :
  Logging.root_handlers (logging st) <> [] ->
  logging (snd (init_log_open d logname loglevel st)) = logging st.
Proof.
  intros Hh.
  assert (Hin : forall s, logging s = logging st ->
                Os.isdir (Os.fs (world s)) d = true ->
                logging (snd (init_log_open d logname loglevel s))
                = logging st).
  { intros s Hs Hd. rewrite (init_log_open_in_dir d logname loglevel s Hd).
    destruct (Os.access _ _ _); [|exact Hs]. rewrite Hs.
    destruct (Logging.root_handlers (logging st)); [now destruct Hh|].
    exact Hs. }
  destruct (Os.isdir (Os.fs (world st)) d) eqn:Hd; [now apply Hin|].
  destruct (Os.exists_ (Os.fs (world st)) d) eqn:He.
  - now rewrite (init_log_open_not_dir d logname loglevel st He Hd).
  - destruct (Os.mkdir (world st) d) as [w|e] eqn:Hm.
    + rewrite (init_log_open_after_mkdir d logname loglevel st w He Hm).
      apply Hin; [reflexivity|]. now apply (mkdir_makes_dir _ _ _ Hm).
    + now rewrite (init_log_open_mkdir_fails d logname loglevel st e He Hm).
Qed.

(** X19. A level that is none of the seven names, in upper case, makes
    [init_log] raise the [KeyError] of the table lookup before anything
    is done: the log directory of the module is not replaced, although
    one was given, no directory is made and the logging backend is not
    touched. For a level of ASCII characters the argument of the error
    is the level in upper case. *)
Theorem init_log_unknown_level (st : State) (level : string)
  (logdir logname : option string) :
  ~ In (Py.upper level) (map fst LOG_LEVELS) ->
  exists key,
    init_log level logdir logname st = (Raise (KeyError key), st)
    /\ (all_chars (fun c => (Py.code c <? 128)%N) level = true ->
        key = Py.upper level).
Proof.
  intros H. exists (Py.upper level). split; [|reflexivity].
  unfold init_log, mbind, lift.
  assert (Hk : dict_get LOG_LEVELS (Py.upper level)
               = Raise (KeyError (Py.upper level))).
  { apply dict_get_missing. rewrite dict_has_keys.
    destruct (seq_has (dict_keys LOG_LEVELS) (Py.upper level)) eqn:E;
      [|reflexivity].
    apply seq_has_In in E. now destruct H. }
  now rewrite Hk.
Qed.

Lemma init_log_unknown_level_witness :
  exists key,
    init_log "verbose" (Some "/tmp/logs") None riak_state
    = (Raise (KeyError key), riak_state)
    /\ (all_chars (fun c => (Py.code c <? 128)%N) "verbose" = true ->
        key = Py.upper "verbose").
Proof.
  apply (init_log_unknown_level riak_state "verbose" (Some "/tmp/logs") None).
  vm_compute. intros H.
  repeat (destruct H as [H|H]; [discriminate H|]). exact H.
Defined.

(** X20. When [init_log] returns for a level other than [NONE], the log
    directory of the module is a directory the process may read, write
    and search, and the root logger has a handler. If it had none
    before, its one handler is the file [<logname>.log] of that
    directory, the program's name standing in for a name that is missing
    or empty; the file is there, and the level of the root logger is the
    level asked for. *)
Theorem init_log_returns (st : State) (level : string)
  (logdir logname : option string) (loglevel : Z) :
  dict_get LOG_LEVELS (Py.upper level) = Ok loglevel -> (0 <= loglevel)%Z ->
  fst (init_log level logdir logname st) = Ok tt ->
  let st' := after (init_log level logdir logname) st in
  let d := LOG_DIR st' in
  Os.isdir (Os.fs (world st')) d = true
  /\ Os.access (Os.fs (world st')) d rwx = true
  /\ Logging.root_handlers (logging st') <> []
  /\ (Logging.root_handlers (logging st) = [] ->
      Logging.root_handlers (logging st') = [log_file st d logname]
      /\ Logging.root_level (logging st') = loglevel
      /\ Os.exists_ (Os.fs (world st')) (log_file st d logname) = true).
Proof.
  intros Hl Hpos. unfold after.
  destruct (truthy logdir) eqn:Ht.
  - destruct logdir as [[|c r]|]; try discriminate Ht.
    destruct (resolve_conf_path st (String c r)) as [d0|e] eqn:Hr.
    + assert (Hne : String c r <> "") by discriminate.
      rewrite (init_log_with_dir st level (String c r) logname loglevel d0
                 Hl Hpos Hne Hr).
      intros Hok. cbv zeta.
      rewrite (proj2 (init_log_open_frame d0 logname loglevel
                        (set_LOG_DIR d0 st))).
      cbn [LOG_DIR set_LOG_DIR].
      exact (init_log_open_returns_any d0 logname loglevel
               (set_LOG_DIR d0 st) Hok).
    + unfold init_log, mbind at 1, lift at 1. rewrite Hl.
      replace (loglevel <? 0)%Z with false
        by (symmetry; apply Z.ltb_ge; lia).
      unfold init_log_dir. cbn [truthy str_of]. unfold mbind, lift.
      rewrite Hr. discriminate.
  - assert (Hrun : init_log level logdir logname st
                   = init_log_open (LOG_DIR st) logname loglevel st).
    { unfold init_log, mbind at 1, lift at 1. rewrite Hl.
      replace (loglevel <? 0)%Z with false
        by (symmetry; apply Z.ltb_ge; lia).
      unfold init_log_dir. rewrite Ht. reflexivity. }
    rewrite Hrun. intros Hok. cbv zeta.
    rewrite (proj2 (init_log_open_frame (LOG_DIR st) logname loglevel st)).
    exact (init_log_open_returns_any (LOG_DIR st) logname loglevel st Hok).
Qed.

Lemma init_log_returns_witness :
  Logging.root_handlers
    (logging (after (init_log "Info" (Some "{{rel}}/log") (Some "")) riak_state))
  = ["/opt/riak/log/riak-admin.log"].
Proof.
  assert (Hpos : (0 <= 20)%Z) by discriminate.
  pose proof (init_log_returns riak_state "Info" (Some "{{rel}}/log")
                (Some "") 20%Z eq_refl Hpos eq_refl)
    as (_ & _ & _ & H).
  exact (proj1 (H eq_refl)).
Defined.

Lemma negative_level_is_NONE key loglevel :
  dict_get LOG_LEVELS key = Ok loglevel -> (loglevel < 0)%Z -> key = "NONE".
Proof.
  unfold LOG_LEVELS. cbn [dict_get].
  repeat match goal with
  | |- context [String.eqb ?k key] =>
      destruct (String.eqb_spec k key) as [<-|_];
      [intros [= <-] H; try reflexivity; vm_compute in H; discriminate H|]
  end.
  discriminate.
Qed.

Lemma init_log_cases st level logdir logname loglevel :
  dict_get LOG_LEVELS (Py.upper level) = Ok loglevel -> (0 <= loglevel)%Z ->
  init_log level logdir logname st
  = if truthy logdir
    then match resolve_conf_path st (str_of logdir) with
         | Ok d => init_log_open d logname loglevel (set_LOG_DIR d st)
         | Raise e => (Raise e, st)
         end
    else init_log_open (LOG_DIR st) logname loglevel st.
Proof.
  intros Hl Hpos. unfold init_log, mbind at 1, lift at 1. rewrite Hl.
  replace (loglevel <? 0)%Z with false by (symmetry; apply Z.ltb_ge; lia).
  unfold init_log_dir. destruct (truthy logdir); [|reflexivity].
  unfold mbind, lift, modify, ret.
  now destruct (resolve_conf_path st (str_of logdir)).
Qed.

(** X21. Once the root logger has a handler, a call of [init_log] with a
    level other than [NONE] leaves the logging backend as it is, whatever
    its arguments and its outcome: the level of the root logger and its
    log file are those of the first configuration. The call may still
    replace the log directory of the module and make it. *)
Theorem init_log_again (st : State) (level : string)
  (logdir logname : option string) :
  Logging.root_handlers (logging st) <> [] ->
  Py.upper level <> "NONE" ->
  logging (after (init_log level logdir logname) st) = logging st.
Proof.
  intros Hh Hn. unfold after.
  destruct (dict_get LOG_LEVELS (Py.upper level)) as [loglevel|e] eqn:Hl.
  - destruct (Z.ltb_spec loglevel 0) as [Hneg|Hpos].
    + now destruct Hn; apply (negative_level_is_NONE _ loglevel).
    + rewrite (init_log_cases st level logdir logname loglevel Hl Hpos).
      destruct (truthy logdir).
      * destruct (resolve_conf_path st (str_of logdir)) as [d|e];
          [|reflexivity].
        now rewrite (init_log_open_keeps_logging d logname loglevel
                       (set_LOG_DIR d st) Hh).
      * now apply init_log_open_keeps_logging.
  - unfold init_log, mbind, lift. now rewrite Hl.
Qed.

Lemma init_log_again_witness :
  logging (after (init_log "DEBUG" (Some "/opt/riak/bin") (Some "other"))
             (after (init_log "INFO" (Some "{{rel}}/log") None) riak_state))
  = logging (after (init_log "INFO" (Some "{{rel}}/log") None) riak_state).
Proof.
  assert (H1 : Logging.root_handlers
                 (logging (after (init_log "INFO" (Some "{{rel}}/log") None)
                             riak_state)) <> [])
    by (vm_compute; discriminate).
  assert (H2 : Py.upper "DEBUG" <> "NONE") by (vm_compute; discriminate).
  exact (init_log_again _ "DEBUG" (Some "/opt/riak/bin") (Some "other")
           H1 H2).
Defined.




(** ** Bootstrap: the search path and the directories *)

Ltac init_module_branches st0 :=
  unfold after, _init_module; cbv zeta;
  destruct (Os.isdir _ _ && Os.access _ _ _);
  [unfold mbind, lift, modify, ret; cbn [sys_path];
   destruct (already_on_path _ _ (sys_path st0)) as [[|]|?];
   [| destruct (sys_path st0) as [|sp0 sprest]; cbn [list_first];
      [| destruct (and_then _ _) as [[|]|?]] |] |].

(** What [_init_module] sets, whatever becomes of the search path. *)
Lemma init_module_globals st0 :
  let w := world st0 in
  let st := after _init_module st0 in
  let script := PosixPath.abspath (Os.cwd w) (Os.argv0 w) in
  let rel := PosixPath.dirname (PosixPath.dirname script) in
  BIN_DIR st = PosixPath.dirname script
  /\ REL_DIR st = rel
  /\ CUR_DIR st = Os.cwd w
  /\ ETC_DIR st = PosixPath.join rel "etc"
  /\ LIB_DIR st = PosixPath.join rel "lib"
  /\ LOG_DIR st = PosixPath.join rel "log"
  /\ SCH_DIR st = PosixPath.join rel "schema"
  /\ PROG_NAME st = PosixPath.basename script
  /\ world st = w /\ logging st = logging st0 /\ debug st = debug st0.
Proof.
  cbv zeta. init_module_branches st0; cbn [snd]; repeat split.
Qed.

(** X23. Without a lib directory beside the release, or with one the
    process may not read or search, [_init_module] returns without an
    error and leaves the search path as it is; the globals are set all
    the same, [LIB_DIR] to the directory that is not there. *)
Theorem init_module_missing_lib (st0 : State) :
  let w := world st0 in
  let st := after _init_module st0 in
  Os.isdir (Os.fs w) (libdir_of w) = false
  \/ Os.access (Os.fs w) (libdir_of w) (Z.lor Os.R_OK Os.X_OK) = false ->
  fst (_init_module st0) = Ok tt
  /\ sys_path st = sys_path st0
  /\ LIB_DIR st = libdir_of w.
Proof.
  intros w st H.
  assert (Hc : Os.isdir (Os.fs w) (libdir_of w)
               && Os.access (Os.fs w) (libdir_of w)
                    (Z.lor Os.R_OK Os.X_OK) = false).
  { destruct H as [-> | ->]; [reflexivity | apply andb_false_r]. }
  destruct (init_module_without_lib st0 Hc) as [H1 H2].
  split; [exact H1|]. split; [exact H2|].
  apply (init_module_globals st0).
Qed.

Lemma init_module_missing_lib_witness :
  fst (_init_module (at_load root_world ["/bin"])) = Ok tt
  /\ sys_path (after _init_module (at_load root_world ["/bin"])) = ["/bin"]
  /\ LIB_DIR (after _init_module (at_load root_world ["/bin"])) = "/lib".
Proof.
  apply (init_module_missing_lib (at_load root_world ["/bin"])).
  left. reflexivity.
Defined.

(** X24. Whatever its outcome, [_init_module] takes no entry off the
    search path and moves none: the search path it leaves is the one it
    found, or that one with the single entry [LIB_DIR] put in; where
    [_init_module] raises, it is the one it found. The file system, the
    logging backend and the debug flag are not touched. *)
Theorem init_module_keeps_entries (st0 : State) :
  let st := after _init_module st0 in
  let sp := sys_path st0 in
  (sys_path st = sp
   \/ exists pre post,
        sp = (pre ++ post)%list
        /\ sys_path st = (pre ++ LIB_DIR st :: post)%list)
  /\ (forall d, In d sp -> In d (sys_path st))
  /\ (List.length (sys_path st) <= S (List.length sp))%nat
  /\ (fst (_init_module st0) <> Ok tt -> sys_path st = sp)
  /\ world st = world st0 /\ logging st = logging st0
  /\ debug st = debug st0.
Proof.
  intros st sp.
  assert (Hshape : (sys_path st = sp
    \/ exists pre post,
         sp = (pre ++ post)%list
         /\ sys_path st = (pre ++ LIB_DIR st :: post)%list)
    /\ (fst (_init_module st0) <> Ok tt -> sys_path st = sp)).
  { unfold st, sp. init_module_branches st0; cbn [fst snd];
      try (split; [now left | reflexivity]).
    - split; [|now intros []]. right.
      exists (firstn 1 (sp0 :: sprest)), (skipn 1 (sp0 :: sprest)).
      split; [now rewrite firstn_skipn | reflexivity].
    - split; [|now intros []]. right. exists (sp0 :: sprest), [].
      split; [now rewrite app_nil_r | reflexivity]. }
  destruct Hshape as [Hshape Hraise].
  split; [exact Hshape|]. split; [|split; [|split; [exact Hraise|]]].
  - intros d Hd. destruct Hshape as [-> | (pre & post & Hsp & ->)];
      [exact Hd|].
    fold sp in Hsp. rewrite Hsp in Hd. apply in_app_or in Hd.
    apply in_or_app. destruct Hd; [now left | right; now right].
  - destruct Hshape as [-> | (pre & post & Hsp & ->)]; [lia|].
    fold sp in Hsp. rewrite Hsp, !length_app. cbn [List.length]. lia.
  - destruct (init_module_globals st0) as (_ & _ & _ & _ & _ & _ & _ & _ & H).
    exact H.
Qed.

(** ** [dirname] and [basename] of canonical paths *)

Lemma split_at_last_no_sep t :
  Py.contains_char "/" t = false -> PosixPath.split_at_last_sep t = ("", t).
Proof.
  induction t as [|c t IH]; [reflexivity|].
  cbn [Py.contains_char PosixPath.split_at_last_sep]. intros H.
  apply orb_false_elim in H as [Hc Ht]. rewrite (IH Ht).
  now rewrite Ascii.eqb_sym, Hc.
Qed.

Lemma split_at_last_app h t :
  Py.contains_char "/" t = false ->
  PosixPath.split_at_last_sep (h ++ String "/" t) = (h ++ "/", t).
Proof.
  intros Ht. induction h as [|c h IH].
  - cbn [append PosixPath.split_at_last_sep].
    now rewrite (split_at_last_no_sep t Ht).
  - cbn [append PosixPath.split_at_last_sep]. rewrite IH.
    destruct h; reflexivity.
Qed.

Lemma all_seps_app a b :
  PosixPath.all_seps (a ++ b) = PosixPath.all_seps a && PosixPath.all_seps b.
Proof.
  induction a as [|c a IH]; [reflexivity|].
  cbn [append PosixPath.all_seps]. now rewrite IH, andb_assoc.
Qed.

Lemma rstrip_seps_snoc x :
  PosixPath.rstrip_seps (x ++ "/") = PosixPath.rstrip_seps x.
Proof.
  induction x as [|c x IH]; [reflexivity|].
  cbn [append PosixPath.rstrip_seps]. now rewrite IH.
Qed.

Lemma endswith_char_app c a b :
  b <> "" -> Py.endswith_char c (a ++ b) = Py.endswith_char c b.
Proof.
  intros Hb. induction a as [|x a IH]; [reflexivity|].
  cbn [append Py.endswith_char]. rewrite IH.
  destruct (a ++ b) eqn:E; [|reflexivity].
  destruct a, b; try discriminate E. now destruct Hb.
Qed.

Lemma no_sep_endswith t :
  Py.contains_char "/" t = false -> Py.endswith_char "/" t = false.
Proof.
  induction t as [|c t IH]; [reflexivity|].
  cbn [Py.contains_char Py.endswith_char]. intros H.
  apply orb_false_elim in H as [Hc Ht]. rewrite (IH Ht).
  destruct t; [now rewrite Ascii.eqb_sym | reflexivity].
Qed.

Lemma rstrip_seps_id x :
  Py.endswith_char "/" x = false -> PosixPath.rstrip_seps x = x.
Proof.
  induction x as [|c x IH]; [reflexivity|].
  cbn [Py.endswith_char PosixPath.rstrip_seps].
  destruct x as [|d x].
  - intros ->. reflexivity.
  - intros H. rewrite (IH H). reflexivity.
Qed.

Lemma seps_snoc k : PosixPath.seps (S k) = PosixPath.seps k ++ "/".
Proof. induction k as [|k IH]; [reflexivity|]. cbn [PosixPath.seps append] in *. now rewrite <- IH. Qed.

Lemma all_seps_seps k : PosixPath.all_seps (PosixPath.seps k) = true.
Proof. induction k as [|k IH]; [reflexivity | exact IH]. Qed.

Lemma canon_one k last :
  canon (S k) [last] = PosixPath.seps k ++ String "/" last.
Proof.
  unfold canon. cbn [Py.join String.concat].
  now rewrite seps_snoc, append_assoc_string.
Qed.

Lemma canon_snoc k init last :
  init <> [] ->
  canon k (init ++ [last]) = canon k init ++ String "/" last.
Proof.
  intros Hne. unfold canon. rewrite (join_app "/" init [last]) by
    (exact Hne || discriminate).
  cbn [Py.join String.concat]. now rewrite append_assoc_string.
Qed.

(** A canonical form with components ends with the last character of a
    name and is not made of separators only. *)
Lemma canon_names k comps :
  comps <> [] ->
  Forall (fun c => good_comp c = true) comps ->
  Py.endswith_char "/" (canon k comps) = false
  /\ PosixPath.all_seps (canon k comps) = false.
Proof.
  intros Hne Hg. split.
  - destruct (exists_last Hne) as (front & l & ->).
    assert (Hgl : good_comp l = true).
    { apply (proj1 (Forall_forall _ _) Hg). apply in_or_app. right. now left. }
    apply good_comp_inv in Hgl as (Hl & _ & _ & Hns).
    apply String.eqb_neq in Hl.
    destruct front as [|f front].
    + unfold canon. cbn [List.app Py.join String.concat].
      rewrite endswith_char_app by exact Hl. now apply no_sep_endswith.
    + rewrite canon_snoc by discriminate.
      rewrite (endswith_char_app "/" _ (String "/" l)) by discriminate.
      cbn [Py.endswith_char]. destruct l as [|c l]; [now destruct Hl|].
      now apply (no_sep_endswith (String c l)).
  - destruct comps as [|x comps]; [now destruct Hne|].
    inversion Hg as [|? ? Hx _]; subst.
    destruct (good_comp_head x Hx) as (a & r & -> & Ha).
    assert (Hj : exists t, Py.join "/" (String a r :: comps) = String a t).
    { destruct comps; [now exists r|]. rewrite join_cons. eexists.
      reflexivity. }
    destruct Hj as [t Hj]. unfold canon. rewrite all_seps_app, Hj.
    cbn [PosixPath.all_seps]. rewrite Ascii.eqb_sym, Ha. apply andb_false_r.
Qed.

Lemma canon_nil k : canon k [] = PosixPath.seps k.
Proof. unfold canon. cbn [Py.join String.concat]. apply append_nil_r. Qed.

Lemma endswith_seps k : Py.endswith_char "/" (PosixPath.seps (S k)) = true.
Proof.
  induction k as [|k IH]; [reflexivity|].
  change (PosixPath.seps (S (S k))) with (String "/" (PosixPath.seps (S k))).
  cbn [Py.endswith_char]. exact IH.
Qed.

Lemma good_comp_not_abs name :
  good_comp name = true ->
  Py.startswith "/" name = false /\ Py.contains_char "/" name = false.
Proof.
  intros H. destruct (good_comp_head name H) as (a & r & -> & Ha).
  apply good_comp_inv in H as (_ & _ & _ & Hs).
  split; [|exact Hs]. cbn [Py.startswith]. now rewrite Ha.
Qed.

(** Joining a name to a canonical form puts the name after its
    components. *)
Lemma join_canon_name k comps name :
  Forall (fun c => good_comp c = true) comps ->
  good_comp name = true ->
  PosixPath.join (canon (S k) comps) name = canon (S k) (comps ++ [name]).
Proof.
  intros Hg Hn. destruct (good_comp_not_abs name Hn) as [Hs _].
  unfold PosixPath.join. rewrite Hs.
  destruct comps as [|x comps].
  - rewrite canon_nil, endswith_seps, orb_true_r. reflexivity.
  - destruct (canon_names (S k) (x :: comps)) as [He _];
      [discriminate | exact Hg |].
    rewrite He, orb_false_r.
    replace (String.eqb (canon (S k) (x :: comps)) "") with false
      by reflexivity.
    now rewrite canon_snoc by discriminate.
Qed.

(** [dirname] and [basename] of a canonical form: the form without its
    last component, and that component. *)
Lemma dirname_basename_canon k init last :
  Forall (fun c => good_comp c = true) init ->
  good_comp last = true ->
  PosixPath.dirname (canon (S k) (init ++ [last])) = canon (S k) init
  /\ PosixPath.basename (canon (S k) (init ++ [last])) = last.
Proof.
  intros Hg Hl. destruct (good_comp_not_abs last Hl) as [_ Hns].
  unfold PosixPath.dirname, PosixPath.basename.
  destruct init as [|x init].
  - cbn [List.app]. rewrite canon_one, (split_at_last_app _ _ Hns).
    cbn [fst snd]. rewrite <- seps_snoc, all_seps_seps, canon_nil.
    cbn [negb andb]. now split.
  - rewrite canon_snoc by discriminate.
    rewrite (split_at_last_app _ _ Hns). cbn [fst snd].
    destruct (canon_names (S k) (x :: init)) as [He Ha];
      [discriminate | exact Hg |].
    rewrite all_seps_app, Ha. cbn [andb negb].
    replace (String.eqb (canon (S k) (x :: init) ++ "/") "") with false
      by reflexivity.
    cbn [negb andb]. rewrite rstrip_seps_snoc.
    split; [now apply rstrip_seps_id | reflexivity].
Qed.

(** What [dirname] and [basename] make of a canonical absolute path. *)
Lemma canonical_dirname_basename d :
  canonical d ->
  canonical (PosixPath.dirname d)
  /\ Py.contains_char "/" (PosixPath.basename d) = false
  /\ PosixPath.join (PosixPath.dirname d) (PosixPath.basename d) = d.
Proof.
  intros [Ha Hn].
  destruct (normpath_abs_canon d Ha) as (k & comps & Hk & Hg & Hd).
  rewrite Hn in Hd. subst d.
  assert (Hk' : exists k', k = S k').
  { destruct Hk as [-> | ->]; eexists; reflexivity. }
  destruct Hk' as [k' ->].
  destruct comps as [|x comps].
  - destruct Hk as [[= ->] | [= ->]]; repeat split.
  - destruct (exists_last (l := x :: comps)) as (init & last & E);
      [discriminate|].
    rewrite E in *. apply Forall_app in Hg as [Hi Hl].
    inversion Hl as [|? ? Hlast _]; subst.
    destruct (dirname_basename_canon k' init last Hi Hlast) as [-> ->].
    split; [|split].
    + split; [now apply canon_isabs | now apply normpath_canon].
    + now apply good_comp_not_abs.
    + now apply join_canon_name.
Qed.

Lemma canonical_child d name :
  canonical d -> good_comp name = true ->
  canonical (PosixPath.join d name)
  /\ PosixPath.dirname (PosixPath.join d name) = d
  /\ PosixPath.basename (PosixPath.join d name) = name.
Proof.
  intros [Ha Hn] Hname.
  destruct (normpath_abs_canon d Ha) as (k & comps & Hk & Hg & Hd).
  rewrite Hn in Hd. subst d.
  assert (Hk' : exists k', k = S k').
  { destruct Hk as [-> | ->]; eexists; reflexivity. }
  destruct Hk' as [k' ->].
  rewrite (join_canon_name k' comps name Hg Hname).
  destruct (dirname_basename_canon k' comps name Hg Hname) as [-> ->].
  split; [|now split].
  split; [now apply canon_isabs|].
  apply normpath_canon; [exact Hk|]. apply Forall_app. split; [exact Hg|].
  now repeat constructor.
Qed.

(** X25. With an absolute working directory, the directories
    [_init_module] sets are canonical absolute paths laid out from where
    the program is: [BIN_DIR] joined with [PROG_NAME], a name without a
    separator, is the absolute path of the program; [REL_DIR] is the
    directory above [BIN_DIR]; and [ETC_DIR], [LIB_DIR], [LOG_DIR] and
    [SCH_DIR] are the entries [etc], [lib], [log] and [schema] of
    [REL_DIR]. This holds however the program is started and whatever
    becomes of the search path. *)
Theorem init_module_layout (st0 : State) :
  let w := world st0 in
  let st := after _init_module st0 in
  PosixPath.isabs (Os.cwd w) = true ->
  (canonical (BIN_DIR st) /\ canonical (REL_DIR st)
   /\ canonical (ETC_DIR st) /\ canonical (LIB_DIR st)
   /\ canonical (LOG_DIR st) /\ canonical (SCH_DIR st))
  /\ PosixPath.join (BIN_DIR st) (PROG_NAME st)
     = PosixPath.abspath (Os.cwd w) (Os.argv0 w)
  /\ Py.contains_char "/" (PROG_NAME st) = false
  /\ REL_DIR st = PosixPath.dirname (BIN_DIR st)
  /\ (PosixPath.dirname (ETC_DIR st) = REL_DIR st
      /\ PosixPath.basename (ETC_DIR st) = "etc")
  /\ (PosixPath.dirname (LIB_DIR st) = REL_DIR st
      /\ PosixPath.basename (LIB_DIR st) = "lib")
  /\ (PosixPath.dirname (LOG_DIR st) = REL_DIR st
      /\ PosixPath.basename (LOG_DIR st) = "log")
  /\ (PosixPath.dirname (SCH_DIR st) = REL_DIR st
      /\ PosixPath.basename (SCH_DIR st) = "schema").
Proof.
  intros w st Hcwd.
  destruct (init_module_globals st0)
    as (Hbin & Hrel & _ & Hetc & Hlib & Hlog & Hsch & Hprog & _).
  fold w st in Hbin, Hrel, Hetc, Hlib, Hlog, Hsch, Hprog.
  rewrite Hbin, Hrel, Hetc, Hlib, Hlog, Hsch, Hprog.
  pose proof (abspath_canonical (Os.cwd w) (Os.argv0 w) Hcwd) as Hs.
  destruct (canonical_dirname_basename _ Hs) as (Hb & Hp & Hj).
  destruct (canonical_dirname_basename _ Hb) as (Hr & _ & _).
  destruct (canonical_child _ "etc" Hr eq_refl) as (E1 & E2 & E3).
  destruct (canonical_child _ "lib" Hr eq_refl) as (L1 & L2 & L3).
  destruct (canonical_child _ "log" Hr eq_refl) as (G1 & G2 & G3).
  destruct (canonical_child _ "schema" Hr eq_refl) as (S1 & S2 & S3).
  repeat match goal with |- _ /\ _ => split end;
    first [assumption | reflexivity].
Qed.

Lemma init_module_layout_witness :
  PosixPath.join (BIN_DIR riak_state) (PROG_NAME riak_state)
  = "/opt/riak/bin/riak-admin"
  /\ PosixPath.dirname (LOG_DIR riak_state) = REL_DIR riak_state.
Proof.
  pose proof (init_module_layout
                (at_load riak_world ["/opt/riak/bin"; "/usr/lib/python3"])
                eq_refl) as (_ & Hj & _ & _ & _ & _ & Hlog & _).
  split; [exact Hj | exact (proj1 Hlog)].
Defined.
